(** * A SIP back-to-back user agent with an RTP relay: model and properties

    The development embeds the server's message codec, validator, registrar
    ([UserManager]), dialog manager ([CallManager]), RTP relay ([RtpProxy])
    and SIP engine (the [message] handler of the UDP socket) as Rocq
    functions, and states the properties of the specification over them.

    Conventions of the embedding.
    - A JavaScript string is a [string]: a sequence of 8-bit code units.
      SIP and SDP are ASCII protocols; the white space class is the
      JavaScript one restricted to that range.
    - A JavaScript number is a [Z]; [undefined] and [null] are [None].
    - A [Map] and a plain object are insertion-ordered association lists.
    - Logging ([sipLogger], [rtpLogger], [console.log]) has no effect on the
      state or on the datagrams sent and is left out.
    - [new Date()] is a parameter [now] (milliseconds); a handler that sends
      datagrams returns them, oldest first, next to the new state. *)

From Stdlib Require Import String Ascii List Bool Arith ZArith Lia.
From Stdlib Require Import DecimalString.
From Stdlib Require DecimalPos DecimalN.
Import ListNotations.

Local Open Scope list_scope.
Local Open Scope string_scope.

(** ** JavaScript strings *)

Module Js.

Definition CR : ascii := "013"%char.
Definition LF : ascii := "010"%char.
Definition CRLF : string := String CR (String LF "").

(** [\s] of a regular expression and the characters [trim] removes:
    TAB, LF, VT, FF, CR, SP and NBSP. *)
Definition is_space (c : ascii) : bool :=
  let n := nat_of_ascii c in
  (((9 <=? n) && (n <=? 13)) || (n =? 32) || (n =? 160))%nat.

(** [\d] and [[0-9]]. *)
Definition is_digit (c : ascii) : bool :=
  let n := nat_of_ascii c in ((48 <=? n) && (n <=? 57))%nat.

Definition is_upper (c : ascii) : bool :=
  let n := nat_of_ascii c in ((65 <=? n) && (n <=? 90))%nat.

Definition is_lower (c : ascii) : bool :=
  let n := nat_of_ascii c in ((97 <=? n) && (n <=? 122))%nat.

Definition is_newline (c : ascii) : bool :=
  Ascii.eqb c CR || Ascii.eqb c LF.

Fixpoint take (n : nat) (s : string) : string :=
  match n, s with
  | S n', String c s' => String c (take n' s')
  | _, _ => ""
  end.

Fixpoint drop (n : nat) (s : string) : string :=
  match n, s with
  | S n', String _ s' => drop n' s'
  | _, _ => s
  end.

(** [s.substring(a, b)] for [a <= b], and [s.substring(a)]. *)
Definition substring (a b : nat) (s : string) : string := take (b - a) (drop a s).
Definition substring_from (a : nat) (s : string) : string := drop a s.

(** [s.indexOf(c)] for a one-character needle; [None] stands for [-1]. *)
Fixpoint indexOf (c : ascii) (s : string) : option nat :=
  match s with
  | "" => None
  | String d s' =>
      if Ascii.eqb d c then Some 0
      else match indexOf c s' with Some i => Some (S i) | None => None end
  end.

(** [s.startsWith(p)]. *)
Fixpoint startsWith (p s : string) : bool :=
  match p with
  | "" => true
  | String a p' =>
      match s with
      | String b s' => Ascii.eqb a b && startsWith p' s'
      | "" => false
      end
  end.

(** [s.includes(p)]. *)
Fixpoint includes (p s : string) : bool :=
  startsWith p s ||
  match s with
  | "" => false
  | String _ s' => includes p s'
  end.

Fixpoint trimStart (s : string) : string :=
  match s with
  | String c s' => if is_space c then trimStart s' else s
  | "" => ""
  end.

Fixpoint trimEnd (s : string) : string :=
  match s with
  | "" => ""
  | String c s' =>
      match trimEnd s' with
      | "" => if is_space c then "" else String c ""
      | t => String c t
      end
  end.

Definition trim (s : string) : string := trimEnd (trimStart s).

(** [s.split('\r\n')]: the list is never empty. *)
Fixpoint split_crlf (s : string) : list string :=
  match s with
  | "" => [""]
  | String c s' =>
      let keep := match split_crlf s' with
                  | l :: ls => String c l :: ls
                  | [] => [String c ""]
                  end in
      match s' with
      | String d s'' =>
          if Ascii.eqb c CR && Ascii.eqb d LF then "" :: split_crlf s'' else keep
      | "" => keep
      end
  end.

(** [s.split(c)] for a one-character separator. *)
Fixpoint split_char (sep : ascii) (s : string) : list string :=
  match s with
  | "" => [""]
  | String c s' =>
      if Ascii.eqb c sep then "" :: split_char sep s'
      else match split_char sep s' with
           | l :: ls => String c l :: ls
           | [] => [String c ""]
           end
  end.

(** [ls.join(sep)]. *)
Definition join (sep : string) (ls : list string) : string := String.concat sep ls.

(** A number in a template literal: decimal digits, with a sign when negative. *)
Definition num_to_string (z : Z) : string :=
  match z with
  | Zneg p => "-" ++ NilEmpty.string_of_uint (Pos.to_uint p)
  | _ => NilEmpty.string_of_uint (N.to_uint (Z.to_N z))
  end.

Definition digit_value (c : ascii) : Z := Z.of_nat (nat_of_ascii c - 48).

(** The value of the longest run of decimal digits a string starts with;
    [None] when it starts with none. *)
Fixpoint digits_value (acc : option Z) (s : string) : option Z :=
  match s with
  | String c s' =>
      if is_digit c
      then digits_value (Some (10 * match acc with Some a => a | None => 0 end + digit_value c)%Z) s'
      else acc
  | "" => acc
  end.

Definition hex_value (c : ascii) : option Z :=
  let n := nat_of_ascii c in
  if is_digit c then Some (Z.of_nat (n - 48))
  else if ((97 <=? n) && (n <=? 102))%nat then Some (Z.of_nat (n - 87))
  else if ((65 <=? n) && (n <=? 70))%nat then Some (Z.of_nat (n - 55))
  else None.

Fixpoint hex_digits_value (acc : option Z) (s : string) : option Z :=
  match s with
  | String c s' =>
      match hex_value c with
      | Some v => hex_digits_value (Some (16 * match acc with Some a => a | None => 0 end + v)%Z) s'
      | None => acc
      end
  | "" => acc
  end.

(** [parseInt(s)] with no radix: leading white space, an optional sign, then
    hexadecimal digits after [0x] or [0X] and decimal digits otherwise.
    [None] is [NaN].  Integers are exact here, as the numbers of the code are
    up to [2^53]; the code rounds a longer numeral to the nearest double. *)
Definition parseInt (s : string) : option Z :=
  let t := trimStart s in
  let '(neg, u) :=
    match t with
    | String "-" u => (true, u)
    | String "+" u => (false, u)
    | _ => (false, t)
    end in
  let v :=
    match u with
    | String "0" (String "x" h) | String "0" (String "X" h) => hex_digits_value None h
    | _ => digits_value None u
    end in
  match v with
  | Some z => Some (if neg then (- z)%Z else z)
  | None => None
  end.

End Js.

(** ** Regular expressions

    The fragment of JavaScript regular expressions the server uses: literal
    characters, character classes, sequence, the greedy quantifiers [*], [+]
    and [?], capture groups and [$] (without the [m] flag).  The matcher is
    the backtracking matcher of the language definition, written with a
    continuation: a quantifier tries its longest alternative first and gives
    characters back when the rest of the pattern fails. *)

Module Regex.
Import Js.

Inductive regex : Type :=
| Eps
| Chr (c : ascii)
| Cls (p : ascii -> bool)
| Seq (r1 r2 : regex)
| Star (r : regex)
| Opt (r : regex)
| Grp (i : nat) (r : regex)
| Eoi.

Definition Plus (r : regex) : regex := Seq r (Star r).

Fixpoint Lit (s : string) : regex :=
  match s with
  | "" => Eps
  | String c s' => Seq (Chr c) (Lit s')
  end.

Declare Scope regex_scope.
Delimit Scope regex_scope with re.
Bind Scope regex_scope with regex.
Infix ">>" := Seq (at level 61, right associativity) : regex_scope.

(** The captures of a match: group number and captured text, latest first. *)
Definition caps : Type := list (nat * string).

Fixpoint cap (i : nat) (c : caps) : option string :=
  match c with
  | [] => None
  | (j, s) :: c' => if Nat.eqb j i then Some s else cap i c'
  end.

Section Matcher.
Context {A : Type}.

Definition cont : Type := string -> caps -> option A.

(** [r*]: at most [n] more iterations, each of which must consume a
    character (an iteration that matches the empty string is rejected). *)
Fixpoint star_loop (m : string -> caps -> cont -> option A) (k : cont)
    (n : nat) (s : string) (c : caps) : option A :=
  match n with
  | O => k s c
  | S n' =>
      match m s c (fun s' c' =>
                     if (String.length s' <? String.length s)%nat
                     then star_loop m k n' s' c' else None) with
      | Some x => Some x
      | None => k s c
      end
  end.

Fixpoint rmatch (r : regex) (s : string) (c : caps) (k : cont) : option A :=
  match r with
  | Eps => k s c
  | Chr a =>
      match s with
      | String b s' => if Ascii.eqb b a then k s' c else None
      | "" => None
      end
  | Cls p =>
      match s with
      | String b s' => if p b then k s' c else None
      | "" => None
      end
  | Seq r1 r2 => rmatch r1 s c (fun s' c' => rmatch r2 s' c' k)
  | Star r1 => star_loop (rmatch r1) k (String.length s) s c
  | Opt r1 =>
      match rmatch r1 s c k with
      | Some x => Some x
      | None => k s c
      end
  | Grp i r1 =>
      rmatch r1 s c
        (fun s' c' => k s' ((i, take (String.length s - String.length s') s) :: c'))
  | Eoi =>
      match s with
      | "" => k s c
      | _ => None
      end
  end.

End Matcher.

(** A match of [r] at the start of [s]: the text after the match and the
    captures.  This is [r] behind [^]. *)
Definition exec (r : regex) (s : string) : option (string * caps) :=
  rmatch r s [] (fun s' c => Some (s', c)).

(** The text of a match of [s] that leaves [rest]. *)
Definition matched (s rest : string) : string :=
  take (String.length s - String.length rest) s.

Record found : Type := Found {
  before : string;
  text : string;
  after : string;
  groups : caps
}.

(** The leftmost match of [r] in [s]: [s.match(r)] and [r.test(s)] for a
    pattern without [^] and without the [g] flag. *)
Fixpoint search (r : regex) (s : string) : option found :=
  match exec r s with
  | Some (rest, c) => Some (Found "" (matched s rest) rest c)
  | None =>
      match s with
      | "" => None
      | String a s' =>
          match search r s' with
          | Some f => Some (Found (String a (before f)) (text f) (after f) (groups f))
          | None => None
          end
      end
  end.

Definition test (r : regex) (s : string) : bool :=
  match search r s with Some _ => true | None => false end.

Definition test_anchored (r : regex) (s : string) : bool :=
  match exec r s with Some _ => true | None => false end.

(** [s.replace(r, f)] for a pattern with the [g] flag: every match, left to
    right and without overlap, is replaced by [f] of its text.  [skip] counts
    the characters of the last match that are still to be passed over. *)
Fixpoint replace_from (r : regex) (f : string -> string) (skip : nat) (s : string) : string :=
  match skip with
  | S k =>
      match s with
      | String _ s' => replace_from r f k s'
      | "" => ""
      end
  | O =>
      match exec r s with
      | Some (rest, _) =>
          let m := matched s rest in
          match s with
          | "" => f m
          | String a s' =>
              match String.length m with
              | O => f m ++ String a (replace_from r f 0 s')
              | S n => f m ++ replace_from r f n s'
              end
          end
      | None =>
          match s with
          | "" => ""
          | String a s' => String a (replace_from r f 0 s')
          end
      end
  end.

Definition replace_all (r : regex) (f : string -> string) (s : string) : string :=
  replace_from r f 0 s.

(** [s.replace(r, f)] for a pattern without the [g] flag: the leftmost match only. *)
Definition replace_first (r : regex) (f : string -> string) (s : string) : string :=
  match search r s with
  | Some m => before m ++ f (text m) ++ after m
  | None => s
  end.

(** Character classes. *)
Definition digit : regex := Cls is_digit.
Definition non_space : regex := Cls (fun c => negb (is_space c)).
Definition non_newline : regex := Cls (fun c => negb (is_newline c)).
Definition none_of (a : ascii) : regex := Cls (fun c => negb (Ascii.eqb c a)).

End Regex.

(** ** Maps and objects *)

(** A [Map] with string keys: entries in insertion order, keys distinct. *)
Module JsMap.
Section Map.
Context {V : Type}.

Definition t : Type := list (string * V).

Definition empty : t := [].

Fixpoint get (k : string) (m : t) : option V :=
  match m with
  | [] => None
  | (k', v) :: m' => if k' =? k then Some v else get k m'
  end.

Definition has (k : string) (m : t) : bool :=
  match get k m with Some _ => true | None => false end.

(** [m.set(k, v)]: an existing key keeps its place. *)
Fixpoint set (k : string) (v : V) (m : t) : t :=
  match m with
  | [] => [(k, v)]
  | (k', v') :: m' => if k' =? k then (k, v) :: m' else (k', v') :: set k v m'
  end.

Definition delete (k : string) (m : t) : t :=
  filter (fun kv => negb (fst kv =? k)) m.

Definition keys (m : t) : list string := map fst m.
Definition values (m : t) : list V := map snd m.
Definition size (m : t) : nat := List.length m.

End Map.
Arguments t : clear implicits.
End JsMap.

(** A plain object used as a dictionary: own properties in the order of
    [Object.entries], which lists array-index keys first, in ascending
    order, and the other keys in the order of their creation. *)
Module JsObj.
Import Js.
Section Obj.
Context {V : Type}.

Definition t : Type := list (string * V).

(** A canonical array index: a decimal numeral without leading zero, below [2^32 - 1]. *)
Definition array_index (k : string) : option N :=
  match k with
  | "" => None
  | String c k' =>
      if forallb is_digit (list_ascii_of_string k)
         && (negb (Ascii.eqb c "0") || (k' =? ""))
      then match digits_value None k with
           | Some z => if (z <? 4294967295)%Z then Some (Z.to_N z) else None
           | None => None
           end
      else None
  end.

Definition get (k : string) (o : t) : option V := JsMap.get k o.

Fixpoint insert_index (n : N) (k : string) (v : V) (o : t) : t :=
  match o with
  | [] => [(k, v)]
  | (k', v') :: o' =>
      match array_index k' with
      | Some m => if (m <? n)%N then (k', v') :: insert_index n k v o' else (k, v) :: o
      | None => (k, v) :: o
      end
  end.

(** [o[k] = v] on an object whose prototype is [Object.prototype]: the
    assignment of a string to [__proto__] changes nothing. *)
Definition set (k : string) (v : V) (o : t) : t :=
  if k =? "__proto__" then o
  else match array_index k with
       | Some n => if JsMap.has k o then JsMap.set k v o else insert_index n k v o
       | None => JsMap.set k v o
       end.

Definition entries (o : t) : list (string * V) := o.

End Obj.
Arguments t : clear implicits.
End JsObj.

(** ** Configuration ([config.js]) *)

Record Config : Type := {
  sip_port : Z;              (* config.sip.port *)
  serverAddress : string;    (* config.sip.serverAddress *)
  rtp_port : Z;              (* config.rtp.port *)
  ext_min : Z;               (* config.extensions.min *)
  ext_max : Z;               (* config.extensions.max *)
  callSetup : Z;             (* config.timeouts.callSetup, milliseconds *)
  cleanupInterval : Z        (* config.timeouts.cleanup, milliseconds *)
}.

(** The set built by the loop [for (i = min; i <= max; i++) add(i.toString())]. *)
Definition validExtensions (cfg : Config) : list string :=
  map (fun i => Js.num_to_string (ext_min cfg + Z.of_nat i))
      (seq 0 (Z.to_nat (ext_max cfg - ext_min cfg + 1))).

Definition has_extension (cfg : Config) (number : string) : bool :=
  existsb (String.eqb number) (validExtensions cfg).

(** The defaults of [config.js]. *)
Definition default_config : Config := {|
  sip_port := 5060;
  serverAddress := "192.168.0.42";
  rtp_port := 10000;
  ext_min := 100;
  ext_max := 110;
  callSetup := 30000;
  cleanupInterval := 60000
|}.

(** A value interpolated in a template literal. *)
Definition show (v : option string) : string :=
  match v with Some s => s | None => "undefined" end.

Definition show_null (v : option string) : string :=
  match v with Some s => s | None => "null" end.

Definition show_num (v : option Z) : string :=
  match v with Some z => Js.num_to_string z | None => "null" end.

(** Truthiness of a string that may be [undefined]. *)
Definition truthy (v : option string) : bool :=
  match v with
  | Some s => negb (s =? "")
  | None => false
  end.

(** ** Message codec ([parseSipMessage], [createSipResponse]) *)

Module Codec.
Import Js Regex.

Record SipMessage : Type := {
  firstLine : string;
  headers : JsObj.t string;
  body : string
}.

(** The loop over [lines[1..]]: an empty line starts the body and is itself
    skipped, wherever it stands; a header line without a colon is skipped. *)
Fixpoint parse_lines (lines : list string) (hs : JsObj.t string) (bd : string)
    (bodyStart : bool) : JsObj.t string * string :=
  match lines with
  | [] => (hs, bd)
  | line :: rest =>
      if line =? "" then parse_lines rest hs bd true
      else if bodyStart then parse_lines rest hs (bd ++ line ++ CRLF) true
      else match indexOf ":" line with
           | Some colonIndex =>
               let key := trim (substring 0 colonIndex line) in
               let value := trim (substring_from (colonIndex + 1) line) in
               parse_lines rest (JsObj.set key value hs) bd false
           | None => parse_lines rest hs bd false
           end
  end.

Definition parseSipMessage (message : string) : SipMessage :=
  let lines := split_crlf message in
  let '(hs, bd) := parse_lines (tl lines) [] "" false in
  {| firstLine := hd "" lines; headers := hs; body := trim bd |}.

Definition header_line (kv : string * option string) : string :=
  fst kv ++ ": " ++ show (snd kv) ++ CRLF.

Definition createSipResponse (statusCode : option string) (statusText : string)
    (hs : JsObj.t (option string)) (bd : string) : string :=
  "SIP/2.0 " ++ show statusCode ++ " " ++ statusText ++ CRLF
  ++ String.concat "" (map header_line (JsObj.entries hs))
  ++ (if bd =? "" then "" else "Content-Length: " ++ num_to_string (Z.of_nat (String.length bd)) ++ CRLF)
  ++ CRLF
  ++ bd.

(** The pattern [/sip:(\d+)@/]. *)
Definition numberPattern : regex :=
  (Lit "sip:" >> Grp 1 (Plus digit) >> Chr "@")%re.

Definition extractNumber (uri : string) : option string :=
  match search numberPattern uri with
  | Some m => cap 1 (groups m)
  | None => None
  end.

End Codec.

(** ** Validator ([SipValidator]) *)

Module SipValidator.
Import Js Regex.

(** The three shapes of object the validator returns: [{valid: true, ...}],
    [{valid: false, error}] and [{valid: false, errors}]. *)
Inductive validation : Type :=
| Valid
| Error (error : string)
| Errors (errors : list string).

Definition valid (v : validation) : bool :=
  match v with Valid => true | _ => false end.

(** The pattern [/<([^>]+)>/]. *)
Definition bracketPattern : regex :=
  (Chr "<" >> Grp 1 (Plus (none_of ">")) >> Chr ">")%re.

Definition extractUri (header : option string) : option string :=
  match header with
  | None => None
  | Some h =>
      if h =? "" then None
      else match search bracketPattern h with
           | Some m => cap 1 (groups m)
           | None => Some (trim h)
           end
  end.

(** The pattern [/^sip:(\d+)@([^:]+)(?::(\d+))?P$/], where [P] stands for the
    parameters: a non-capturing group of [;] and [[^;]*], under a star. *)
Definition sipUriPattern : regex :=
  (Lit "sip:" >> Grp 1 (Plus digit) >> Chr "@" >> Grp 2 (Plus (none_of ":")) >>
   Opt (Chr ":" >> Grp 3 (Plus digit)) >>
   Star (Chr ";" >> Star (none_of ";")) >> Eoi)%re.

Inductive uri_result : Type :=
| UriError (error : string)
| UriValid (number domain port : string).

Definition validateSipUri (cfg : Config) (uri : option string) : uri_result :=
  if negb (truthy uri) then UriError "URI is required and must be a string"
  else match exec sipUriPattern (show uri) with
       | None => UriError "Invalid SIP URI format"
       | Some (_, c) =>
           let number := show (cap 1 c) in
           let domain := show (cap 2 c) in
           let port := cap 3 c in
           if negb (has_extension cfg number)
           then UriError ("Invalid extension number: " ++ number ++ ". Valid range: "
                          ++ num_to_string (ext_min cfg) ++ "-" ++ num_to_string (ext_max cfg))
           else UriValid number domain (if truthy port then show port else "5060")
       end.

Definition uri_validation (r : uri_result) : validation :=
  match r with UriError e => Error e | UriValid _ _ _ => Valid end.

Definition is_callid_char (c : ascii) : bool :=
  is_lower c || is_upper c || is_digit c
  || Ascii.eqb c "." || Ascii.eqb c "_" || Ascii.eqb c "-".

(** The pattern [/^[a-zA-Z0-9._-]+(?:@[a-zA-Z0-9._-]+)?(?:-[a-zA-Z0-9._-]+)?$/]. *)
Definition callIdPattern : regex :=
  (Plus (Cls is_callid_char) >> Opt (Chr "@" >> Plus (Cls is_callid_char)) >>
   Opt (Chr "-" >> Plus (Cls is_callid_char)) >> Eoi)%re.

(** The pattern [/^\d+\s+[A-Z]+$/]. *)
Definition cseqPattern : regex :=
  (Plus digit >> Plus (Cls is_space) >> Plus (Cls is_upper) >> Eoi)%re.

(** The pattern [/^SIP\/2\.0\/UDP\s+[^:]+:\d+P$/], with the same parameters [P]. *)
Definition viaPattern : regex :=
  (Lit "SIP/2.0/UDP" >> Plus (Cls is_space) >> Plus (none_of ":") >> Chr ":" >>
   Plus digit >> Star (Chr ";" >> Star (none_of ";")) >> Eoi)%re.

Definition check_format (hs : JsObj.t string) (name : string) (p : regex)
    (error : string) : list string :=
  match JsObj.get name hs with
  | Some v => if negb (v =? "") && negb (test_anchored p v) then [error] else []
  | None => []
  end.

Definition validateHeaders (hs : JsObj.t string) (requiredHeaders : list string) : bool * list string :=
  let missingHeaders := filter (fun h => negb (truthy (JsObj.get h hs))) requiredHeaders in
  let errors :=
    ((match missingHeaders with
      | [] => []
      | _ => [("Missing required headers: " ++ join ", " missingHeaders)%string]
      end)
     ++ check_format hs "Call-ID" callIdPattern "Invalid Call-ID format"
     ++ check_format hs "CSeq" cseqPattern "Invalid CSeq format"
     ++ check_format hs "Via" viaPattern "Invalid Via header format")%list in
  (match errors with [] => true | _ => false end, errors).

Definition requiredSections : list string := ["v="; "o="; "s="; "c="; "t="; "m="].

Definition media_errors (mediaLine : string) : list string :=
  let mediaParts := split_char " " mediaLine in
  if (List.length mediaParts <? 4)%nat then ["Invalid media line format"]
  else
    let mediaType := substring_from 2 (nth 0 mediaParts "") in
    let port := parseInt (nth 1 mediaParts "") in
    ((if mediaType =? "audio" then [] else ["Only audio media type is supported"])
     ++ (match port with
         | Some p => if ((p <? 1024) || (p >? 65535))%Z then ["Invalid RTP port number"] else []
         | None => ["Invalid RTP port number"]
         end))%list.

Definition validateSdp (sdp : string) : validation :=
  if sdp =? "" then Error "SDP is required and must be a string"
  else
    let lines := split_crlf sdp in
    let missing :=
      filter (fun section => negb (existsb (startsWith section) lines)) requiredSections in
    let errors :=
      (map (fun section => ("Missing required SDP section: " ++ section)%string) missing
       ++ match find (startsWith "m=") lines with
          | Some mediaLine => media_errors mediaLine
          | None => []
          end)%list in
    match errors with [] => Valid | _ => Errors errors end.

Definition is_sdp (m : Codec.SipMessage) : bool :=
  negb (Codec.body m =? "")
  && match JsObj.get "Content-Type" (Codec.headers m) with
     | Some ct => includes "application/sdp" ct
     | None => false
     end.

Definition validateRegisterRequest (cfg : Config) (m : Codec.SipMessage) : validation :=
  let hs := Codec.headers m in
  let '(ok, errors) := validateHeaders hs ["To"; "From"; "Call-ID"; "CSeq"; "Contact"] in
  if negb ok then Errors errors
  else match extractUri (JsObj.get "To" hs) with
  | None => Error "Invalid To header format"
  | Some toUri =>
  match validateSipUri cfg (Some toUri) with
  | UriError e => Error e
  | UriValid toNumber _ _ =>
  match extractUri (JsObj.get "From" hs) with
  | None => Error "Invalid From header format"
  | Some fromUri =>
  match validateSipUri cfg (Some fromUri) with
  | UriError e => Error e
  | UriValid fromNumber _ _ =>
      if negb (toNumber =? fromNumber)
      then Error "To and From numbers must match in REGISTER request"
      else
        let expires := JsObj.get "Expires" hs in
        if truthy expires
        then match parseInt (show expires) with
             | Some e => if ((e <? 0) || (e >? 86400))%Z
                         then Error "Expires must be a number between 0 and 86400"
                         else Valid
             | None => Error "Expires must be a number between 0 and 86400"
             end
        else Valid
  end end end end.

Definition validateInviteRequest (cfg : Config) (m : Codec.SipMessage) : validation :=
  let hs := Codec.headers m in
  let '(ok, errors) := validateHeaders hs ["To"; "From"; "Call-ID"; "CSeq"; "Contact"] in
  if negb ok then Errors errors
  else match extractUri (JsObj.get "To" hs) with
  | None => Error "Invalid To header format"
  | Some toUri =>
  match validateSipUri cfg (Some toUri) with
  | UriError e => Error e
  | UriValid toNumber _ _ =>
  match extractUri (JsObj.get "From" hs) with
  | None => Error "Invalid From header format"
  | Some fromUri =>
  match validateSipUri cfg (Some fromUri) with
  | UriError e => Error e
  | UriValid fromNumber _ _ =>
      if toNumber =? fromNumber then Error "Cannot call yourself"
      else if is_sdp m then validateSdp (Codec.body m)
      else Valid
  end end end end.

Definition validateByeRequest (cfg : Config) (m : Codec.SipMessage) : validation :=
  let hs := Codec.headers m in
  let '(ok, errors) := validateHeaders hs ["To"; "From"; "Call-ID"; "CSeq"] in
  if negb ok then Errors errors
  else match validateSipUri cfg (JsObj.get "To" hs) with
  | UriError e => Error e
  | UriValid _ _ _ =>
  match validateSipUri cfg (JsObj.get "From" hs) with
  | UriError e => Error e
  | UriValid _ _ _ => Valid
  end end.

End SipValidator.

(** ** Registrar ([UserManager]) *)

Module UserManager.

Record UserData : Type := {
  number : string;
  uri : string;
  address : string;
  port : Z;
  expires : Z;
  expiresAt : Z;
  registeredAt : Z;
  lastSeen : Z;
  status : string;
  registrationCount : Z
}.

Record HistoryEntry : Type := {
  action : string;
  h_number : string;
  h_address : string;
  h_port : Z;
  h_expires : option Z;
  timestamp : Z
}.

Record t : Type := {
  registeredUsers : JsMap.t UserData;
  registrationHistory : list HistoryEntry
}.

Definition create : t := {| registeredUsers := []; registrationHistory := [] |}.

Definition maxHistorySize : nat := 1000.

(** [a.slice(-n)]: the last [n] elements. *)
Definition last_n {A : Type} (n : nat) (l : list A) : list A :=
  skipn (List.length l - n) l.

Definition addToHistory (entry : HistoryEntry) (um : t) : t :=
  let h := (registrationHistory um ++ [entry])%list in
  {| registeredUsers := registeredUsers um;
     registrationHistory :=
       if (maxHistorySize <? List.length h)%nat then last_n maxHistorySize h else h |}.

Definition registerUser (now : Z) (number uri address : string) (port expires : Z)
    (um : t) : UserData * t :=
  let existingUser := JsMap.get number (registeredUsers um) in
  let userData := {|
    number := number;
    uri := uri;
    address := address;
    port := port;
    expires := expires;
    expiresAt := now + expires * 1000;
    registeredAt := match existingUser with Some u => registeredAt u | None => now end;
    lastSeen := now;
    status := "REGISTERED";
    registrationCount :=
      match existingUser with Some u => registrationCount u + 1 | None => 1 end
  |} in
  let um1 := {| registeredUsers := JsMap.set number userData (registeredUsers um);
                registrationHistory := registrationHistory um |} in
  (userData,
   addToHistory {| action := "REGISTER"; h_number := number; h_address := address;
                   h_port := port; h_expires := Some expires; timestamp := now |} um1).

Definition unregisterUser (now : Z) (number : string) (um : t) : bool * t :=
  match JsMap.get number (registeredUsers um) with
  | None => (false, um)
  | Some user =>
      let um1 := {| registeredUsers := JsMap.delete number (registeredUsers um);
                    registrationHistory := registrationHistory um |} in
      (true,
       addToHistory {| action := "UNREGISTER"; h_number := number;
                       h_address := address user; h_port := port user;
                       h_expires := None; timestamp := now |} um1)
  end.

Definition getUser (number : string) (um : t) : option UserData :=
  JsMap.get number (registeredUsers um).

Definition isUserRegistered (now : Z) (number : string) (um : t) : bool * t :=
  match JsMap.get number (registeredUsers um) with
  | None => (false, um)
  | Some user =>
      if (now >? expiresAt user)%Z
      then (false, {| registeredUsers := JsMap.delete number (registeredUsers um);
                      registrationHistory := registrationHistory um |})
      else (true, um)
  end.

Definition updateLastSeen (now : Z) (number : string) (um : t) : t :=
  match JsMap.get number (registeredUsers um) with
  | Some user =>
      {| registeredUsers :=
           JsMap.set number
             {| number := UserManager.number user; uri := uri user;
                address := address user; port := port user; expires := expires user;
                expiresAt := expiresAt user; registeredAt := registeredAt user;
                lastSeen := now; status := status user;
                registrationCount := registrationCount user |}
             (registeredUsers um);
         registrationHistory := registrationHistory um |}
  | None => um
  end.

(** The periodic tick: collect the expired numbers, then delete them. *)
Definition cleanup (now : Z) (um : t) : t :=
  let expiredUsers :=
    map fst (filter (fun kv => (now >? expiresAt (snd kv))%Z) (registeredUsers um)) in
  {| registeredUsers := fold_left (fun m n => JsMap.delete n m) expiredUsers (registeredUsers um);
     registrationHistory := registrationHistory um |}.

(** [getAllUsers]: the bindings that have not expired, in the order of the
    map, each copied under its key; an expired binding met on the way is
    deleted.  Deleting the entry the iteration stands on leaves the entries
    still to come in place. *)
Definition getAllUsers (now : Z) (um : t) : list UserData * t :=
  fold_left
    (fun acc kv =>
       let user := snd kv in
       if (now >? expiresAt user)%Z
       then (fst acc,
             {| registeredUsers := JsMap.delete (fst kv) (registeredUsers (snd acc));
                registrationHistory := registrationHistory (snd acc) |})
       else ((fst acc ++ [{| number := fst kv; uri := uri user; address := address user;
                             port := port user; expires := expires user;
                             expiresAt := expiresAt user; registeredAt := registeredAt user;
                             lastSeen := lastSeen user; status := status user;
                             registrationCount := registrationCount user |}])%list,
             snd acc))
    (registeredUsers um) ([], um).

End UserManager.

(** ** Dialog manager ([CallManager]) *)

Module CallManager.

Inductive CallState : Type := INITIATED | RINGING | ESTABLISHED | TERMINATED.

Record Call : Type := {
  callId : string;
  fromNumber : string;
  toNumber : string;
  fromAddress : string;
  fromPort : Z;
  toAddress : option string;
  toPort : option Z;
  fromRtpPort : option Z;
  toRtpPort : option Z;
  sdp : string;
  state : CallState;
  inviteTime : Z;
  answerTime : option Z;
  endTime : option Z;
  duration : Z;
  terminating : bool;
  originalVia : option string;
  originalFrom : option string;
  originalTo : option string;
  originalCSeq : option string;
  retryCount : Z;
  maxRetries : Z;
  (* properties added later by [Object.assign] and by [endCall] *)
  originalContact : option string;
  waitingForAck : option bool;
  terminationReason : option string
}.

Record t : Type := {
  activeCalls : JsMap.t Call;
  callHistory : list Call
}.

Definition create : t := {| activeCalls := []; callHistory := [] |}.

Definition maxHistorySize : nat := 1000.

Definition with_calls (m : JsMap.t Call) (cm : t) : t :=
  {| activeCalls := m; callHistory := callHistory cm |}.

Definition createCall (now : Z) (callId fromNumber toNumber fromAddress : string)
    (fromPort : Z) (sdp : string) (cm : t) : Call * t :=
  let callData := {|
    callId := callId; fromNumber := fromNumber; toNumber := toNumber;
    fromAddress := fromAddress; fromPort := fromPort;
    toAddress := None; toPort := None; fromRtpPort := None; toRtpPort := None;
    sdp := sdp; state := INITIATED; inviteTime := now;
    answerTime := None; endTime := None; duration := 0; terminating := false;
    originalVia := None; originalFrom := None; originalTo := None; originalCSeq := None;
    retryCount := 0; maxRetries := 3;
    originalContact := None; waitingForAck := None; terminationReason := None
  |} in
  (callData, with_calls (JsMap.set callId callData (activeCalls cm)) cm).

Definition getCall (callId : option string) (cm : t) : option Call :=
  match callId with
  | Some k => JsMap.get k (activeCalls cm)
  | None => None
  end.

(** An object held by the map is changed in place: the entry keeps its key
    and its position. *)
Definition modify (callId : string) (f : Call -> Call) (cm : t) : bool * t :=
  match JsMap.get callId (activeCalls cm) with
  | None => (false, cm)
  | Some call => (true, with_calls (JsMap.set callId (f call) (activeCalls cm)) cm)
  end.

Definition set_state (s : CallState) (c : Call) : Call :=
  {| callId := callId c; fromNumber := fromNumber c; toNumber := toNumber c;
     fromAddress := fromAddress c; fromPort := fromPort c;
     toAddress := toAddress c; toPort := toPort c;
     fromRtpPort := fromRtpPort c; toRtpPort := toRtpPort c;
     sdp := sdp c; state := s; inviteTime := inviteTime c;
     answerTime := answerTime c; endTime := endTime c; duration := duration c;
     terminating := terminating c;
     originalVia := originalVia c; originalFrom := originalFrom c;
     originalTo := originalTo c; originalCSeq := originalCSeq c;
     retryCount := retryCount c; maxRetries := maxRetries c;
     originalContact := originalContact c; waitingForAck := waitingForAck c;
     terminationReason := terminationReason c |}.

Definition set_target (a : string) (p : Z) (c : Call) : Call :=
  {| callId := callId c; fromNumber := fromNumber c; toNumber := toNumber c;
     fromAddress := fromAddress c; fromPort := fromPort c;
     toAddress := Some a; toPort := Some p;
     fromRtpPort := fromRtpPort c; toRtpPort := toRtpPort c;
     sdp := sdp c; state := state c; inviteTime := inviteTime c;
     answerTime := answerTime c; endTime := endTime c; duration := duration c;
     terminating := terminating c;
     originalVia := originalVia c; originalFrom := originalFrom c;
     originalTo := originalTo c; originalCSeq := originalCSeq c;
     retryCount := retryCount c; maxRetries := maxRetries c;
     originalContact := originalContact c; waitingForAck := waitingForAck c;
     terminationReason := terminationReason c |}.

Definition set_rtp_ports (f t : option Z) (c : Call) : Call :=
  {| callId := callId c; fromNumber := fromNumber c; toNumber := toNumber c;
     fromAddress := fromAddress c; fromPort := fromPort c;
     toAddress := toAddress c; toPort := toPort c;
     fromRtpPort := f; toRtpPort := t;
     sdp := sdp c; state := state c; inviteTime := inviteTime c;
     answerTime := answerTime c; endTime := endTime c; duration := duration c;
     terminating := terminating c;
     originalVia := originalVia c; originalFrom := originalFrom c;
     originalTo := originalTo c; originalCSeq := originalCSeq c;
     retryCount := retryCount c; maxRetries := maxRetries c;
     originalContact := originalContact c; waitingForAck := waitingForAck c;
     terminationReason := terminationReason c |}.

Definition set_originals (via from to cseq contact : option string) (c : Call) : Call :=
  {| callId := callId c; fromNumber := fromNumber c; toNumber := toNumber c;
     fromAddress := fromAddress c; fromPort := fromPort c;
     toAddress := toAddress c; toPort := toPort c;
     fromRtpPort := fromRtpPort c; toRtpPort := toRtpPort c;
     sdp := sdp c; state := state c; inviteTime := inviteTime c;
     answerTime := answerTime c; endTime := endTime c; duration := duration c;
     terminating := terminating c;
     originalVia := via; originalFrom := from;
     originalTo := to; originalCSeq := cseq;
     retryCount := retryCount c; maxRetries := maxRetries c;
     originalContact := contact; waitingForAck := waitingForAck c;
     terminationReason := terminationReason c |}.

Definition set_waitingForAck (b : bool) (c : Call) : Call :=
  {| callId := callId c; fromNumber := fromNumber c; toNumber := toNumber c;
     fromAddress := fromAddress c; fromPort := fromPort c;
     toAddress := toAddress c; toPort := toPort c;
     fromRtpPort := fromRtpPort c; toRtpPort := toRtpPort c;
     sdp := sdp c; state := state c; inviteTime := inviteTime c;
     answerTime := answerTime c; endTime := endTime c; duration := duration c;
     terminating := terminating c;
     originalVia := originalVia c; originalFrom := originalFrom c;
     originalTo := originalTo c; originalCSeq := originalCSeq c;
     retryCount := retryCount c; maxRetries := maxRetries c;
     originalContact := originalContact c; waitingForAck := Some b;
     terminationReason := terminationReason c |}.

Definition set_terminating (b : bool) (c : Call) : Call :=
  {| callId := callId c; fromNumber := fromNumber c; toNumber := toNumber c;
     fromAddress := fromAddress c; fromPort := fromPort c;
     toAddress := toAddress c; toPort := toPort c;
     fromRtpPort := fromRtpPort c; toRtpPort := toRtpPort c;
     sdp := sdp c; state := state c; inviteTime := inviteTime c;
     answerTime := answerTime c; endTime := endTime c; duration := duration c;
     terminating := b;
     originalVia := originalVia c; originalFrom := originalFrom c;
     originalTo := originalTo c; originalCSeq := originalCSeq c;
     retryCount := retryCount c; maxRetries := maxRetries c;
     originalContact := originalContact c; waitingForAck := waitingForAck c;
     terminationReason := terminationReason c |}.

Definition set_answerTime (now : Z) (c : Call) : Call :=
  {| callId := callId c; fromNumber := fromNumber c; toNumber := toNumber c;
     fromAddress := fromAddress c; fromPort := fromPort c;
     toAddress := toAddress c; toPort := toPort c;
     fromRtpPort := fromRtpPort c; toRtpPort := toRtpPort c;
     sdp := sdp c; state := state c; inviteTime := inviteTime c;
     answerTime := Some now; endTime := endTime c; duration := duration c;
     terminating := terminating c;
     originalVia := originalVia c; originalFrom := originalFrom c;
     originalTo := originalTo c; originalCSeq := originalCSeq c;
     retryCount := retryCount c; maxRetries := maxRetries c;
     originalContact := originalContact c; waitingForAck := waitingForAck c;
     terminationReason := terminationReason c |}.

Definition set_ended (now : Z) (reason : string) (c : Call) : Call :=
  {| callId := callId c; fromNumber := fromNumber c; toNumber := toNumber c;
     fromAddress := fromAddress c; fromPort := fromPort c;
     toAddress := toAddress c; toPort := toPort c;
     fromRtpPort := fromRtpPort c; toRtpPort := toRtpPort c;
     sdp := sdp c; state := TERMINATED; inviteTime := inviteTime c;
     answerTime := answerTime c; endTime := Some now;
     duration := match answerTime c with
                 | Some a => ((now - a) / 1000)%Z
                 | None => duration c
                 end;
     terminating := true;
     originalVia := originalVia c; originalFrom := originalFrom c;
     originalTo := originalTo c; originalCSeq := originalCSeq c;
     retryCount := retryCount c; maxRetries := maxRetries c;
     originalContact := originalContact c; waitingForAck := waitingForAck c;
     terminationReason := Some reason |}.

(** [updateCallState(callId, state, additionalData)]: the state is written,
    then the properties of [additionalData] are copied over the call. *)
Definition updateCallState (callId : string) (s : CallState) (additionalData : Call -> Call)
    (cm : t) : bool * t :=
  modify callId (fun c => additionalData (set_state s c)) cm.

Definition setTarget (callId : string) (toAddress : string) (toPort : Z) (cm : t) : bool * t :=
  modify callId (fun c => set_state RINGING (set_target toAddress toPort c)) cm.

Definition setRtpPorts (callId : string) (fromRtpPort toRtpPort : option Z) (cm : t) : bool * t :=
  modify callId (set_rtp_ports fromRtpPort toRtpPort) cm.

Definition answerCall (now : Z) (callId : string) (cm : t) : bool * t :=
  modify callId (fun c => set_answerTime now (set_state ESTABLISHED c)) cm.

Definition addToHistory (call : Call) (cm : t) : t :=
  let h := (callHistory cm ++ [call])%list in
  {| activeCalls := activeCalls cm;
     callHistory :=
       if (maxHistorySize <? List.length h)%nat then UserManager.last_n maxHistorySize h else h |}.

(** [endCall(callId, reason)]; the history entry is a copy of the ended call
    (its random [id] is left out). *)
Definition endCall (now : Z) (callId : string) (reason : string) (cm : t) : option Call * t :=
  match JsMap.get callId (activeCalls cm) with
  | None => (None, cm)
  | Some call =>
      let ended := set_ended now reason call in
      let cm1 := addToHistory ended cm in
      (Some ended, with_calls (JsMap.delete callId (activeCalls cm1)) cm1)
  end.

Definition state_eqb (a b : CallState) : bool :=
  match a, b with
  | INITIATED, INITIATED | RINGING, RINGING
  | ESTABLISHED, ESTABLISHED | TERMINATED, TERMINATED => true
  | _, _ => false
  end.

Definition cleanup (cfg : Config) (now : Z) (cm : t) : t :=
  let callsToRemove :=
    map fst (filter (fun kv => ((now - inviteTime (snd kv) >? callSetup cfg)%Z
                                && state_eqb (state (snd kv)) INITIATED))
                    (activeCalls cm)) in
  fold_left (fun m k => snd (endCall now k "TIMEOUT" m)) callsToRemove cm.

Definition mentions (number : string) (call : Call) : bool :=
  (fromNumber call =? number) || (toNumber call =? number).

Definition isNumberBusy (number : string) (cm : t) : bool :=
  existsb (fun call => mentions number call
                       && (state_eqb (state call) RINGING || state_eqb (state call) ESTABLISHED))
          (JsMap.values (activeCalls cm)).

End CallManager.

(** ** RTP relay and SDP rewriter ([RtpProxy]) *)

Module RtpProxy.
Import Js Regex.

Record Stream : Type := {
  fromAddress : string;
  fromPort : Z;
  toAddress : string;
  toPort : Z
}.

Record t : Type := { activeStreams : JsMap.t Stream }.

Definition create : t := {| activeStreams := [] |}.

Definition reverse_key (callId : string) : string := callId ++ "_reverse".

Definition addStream (callId fromAddress : string) (fromPort : Z) (toAddress : string)
    (toPort : Z) (rp : t) : t :=
  let m1 := JsMap.set callId
              {| fromAddress := fromAddress; fromPort := fromPort;
                 toAddress := toAddress; toPort := toPort |} (activeStreams rp) in
  {| activeStreams :=
       JsMap.set (reverse_key callId)
         {| fromAddress := toAddress; fromPort := toPort;
            toAddress := fromAddress; toPort := fromPort |} m1 |}.

Definition removeStream (callId : string) (rp : t) : t :=
  let m1 := if JsMap.has callId (activeStreams rp)
            then JsMap.delete callId (activeStreams rp) else activeStreams rp in
  {| activeStreams :=
       if JsMap.has (reverse_key callId) m1
       then JsMap.delete (reverse_key callId) m1 else m1 |}.

(** The three patterns of [modifySdp]:
    [/c=IN IP4 [^\r\n]+/g], [/o=[^\s]+ [^\s]+ [^\s]+ IN IP4 [^\r\n]+/g] with
    [/IN IP4 [^\r\n]+/] inside its match, and [/m=audio [0-9]+/g]. *)
Definition connectionPattern : regex :=
  (Lit "c=IN IP4 " >> Plus non_newline)%re.

Definition originPattern : regex :=
  (Lit "o=" >> Plus non_space >> Chr " " >> Plus non_space >> Chr " " >>
   Plus non_space >> Lit " IN IP4 " >> Plus non_newline)%re.

Definition addressPattern : regex :=
  (Lit "IN IP4 " >> Plus non_newline)%re.

Definition audioPattern : regex :=
  (Lit "m=audio " >> Plus digit)%re.

(** The server address is a dotted address or a host name: it holds no [$],
    so the replacement strings below are taken literally. *)
Definition modifySdp (cfg : Config) (sdp : string) : string :=
  let serverAddress := serverAddress cfg in
  let serverPort := rtp_port cfg in
  let modifiedSdp :=
    replace_all connectionPattern (fun _ => "c=IN IP4 " ++ serverAddress) sdp in
  let modifiedSdp :=
    replace_all originPattern
      (fun m => replace_first addressPattern (fun _ => "IN IP4 " ++ serverAddress) m)
      modifiedSdp in
  replace_all audioPattern (fun _ => "m=audio " ++ num_to_string serverPort) modifiedSdp.

(** [handleRtpPacket]: the first stream, in insertion order, one of whose
    sides is the source of the packet; the result is where the packet goes. *)
Fixpoint route (address : string) (port : Z) (streams : list (string * Stream))
    : option (string * Z) :=
  match streams with
  | [] => None
  | (_, stream) :: rest =>
      if (address =? fromAddress stream) && (port =? fromPort stream)%Z
      then Some (toAddress stream, toPort stream)
      else if (address =? toAddress stream) && (port =? toPort stream)%Z
      then Some (fromAddress stream, fromPort stream)
      else route address port rest
  end.

Definition handleRtpPacket (address : string) (port : Z) (rp : t) : option (string * Z) :=
  route address port (activeStreams rp).

End RtpProxy.

(** ** SIP engine (the handlers of [sip-server/index.js]) *)

Module SipServer.
Import Js Regex Codec.

Record State : Type := {
  userManager : UserManager.t;
  callManager : CallManager.t;
  rtpProxy : RtpProxy.t
}.

Definition initial : State :=
  {| userManager := UserManager.create;
     callManager := CallManager.create;
     rtpProxy := RtpProxy.create |}.

Definition with_users (um : UserManager.t) (st : State) : State :=
  {| userManager := um; callManager := callManager st; rtpProxy := rtpProxy st |}.
Definition with_calls (cm : CallManager.t) (st : State) : State :=
  {| userManager := userManager st; callManager := cm; rtpProxy := rtpProxy st |}.
Definition with_rtp (rp : RtpProxy.t) (st : State) : State :=
  {| userManager := userManager st; callManager := callManager st; rtpProxy := rp |}.

(** The source of a datagram, as [dgram] reports it. *)
Record Rinfo : Type := { address : string; port : Z }.

(** [sipServer.send(payload, port, address)]. *)
Record Datagram : Type := {
  payload : string;
  dport : option Z;
  daddress : option string
}.

Definition send (payload : string) (port : Z) (address : string) : Datagram :=
  {| payload := payload; dport := Some port; daddress := Some address |}.

(** What a handler needs from outside: the clock and, for an ACK without a
    branch, the text of [Math.random().toString(36).substr(2, 9)]. *)
Record Env : Type := { now : Z; random : string }.

Definition header (m : SipMessage) (name : string) : option string :=
  JsObj.get name (headers m).

(** The five headers every reply echoes. *)
Definition echo (m : SipMessage) : JsObj.t (option string) :=
  [("Via", header m "Via"); ("From", header m "From"); ("To", header m "To");
   ("Call-ID", header m "Call-ID"); ("CSeq", header m "CSeq")].

(** [contactHeader.replace(/^<|>.*$/g, '')]: the first alternative can only
    match at the start, where it removes a [<]; the second removes a [>] and
    the rest of the text when no line break follows. *)
Definition closingPattern : regex :=
  (Chr ">" >> Star non_newline >> Eoi)%re.

Definition strip_brackets (contactHeader : string) : string :=
  replace_all closingPattern (fun _ => "")
    match contactHeader with
    | String "<" s' => s'
    | _ => contactHeader
    end.

(** The [try] block of [handleRegister]; nothing in it throws. *)
Definition handleRegister (cfg : Config) (env : Env) (message : string) (rinfo : Rinfo)
    (st : State) : State * list Datagram :=
  let parsed := parseSipMessage message in
  if negb (SipValidator.valid (SipValidator.validateRegisterRequest cfg parsed))
  then (st, [send (createSipResponse (Some "400") "Bad Request" (echo parsed) "")
                  (port rinfo) (address rinfo)])
  else
    let toHeader := header parsed "To" in
    let fromHeader := header parsed "From" in
    let contactHeader := header parsed "Contact" in
    let expiresHeader :=
      if truthy (header parsed "Expires") then show (header parsed "Expires") else "3600" in
    (* after the validation the number is found and the text is a number *)
    let number := show_null (extractNumber (show toHeader)) in
    let expires := match parseInt expiresHeader with Some e => e | None => 0%Z end in
    let contactUri := strip_brackets (show contactHeader) in
    let '(_, um) := UserManager.registerUser (now env) number contactUri
                      (address rinfo) (port rinfo) expires (userManager st) in
    let response :=
      createSipResponse (Some "200") "OK"
        [("Via", header parsed "Via"); ("From", fromHeader); ("To", toHeader);
         ("Call-ID", header parsed "Call-ID"); ("CSeq", header parsed "CSeq");
         ("Contact", contactHeader); ("Expires", Some expiresHeader)] "" in
    (with_users um st, [send response (port rinfo) (address rinfo)]).

(** The pattern [/m=audio ([0-9]+)/]. *)
Definition rtpPortPattern : regex :=
  (Lit "m=audio " >> Grp 1 (Plus digit))%re.

Definition rtpPortMatch (body : string) : option Z :=
  match search rtpPortPattern body with
  | Some m => parseInt (show (cap 1 (groups m)))
  | None => None
  end.

Definition set_fromRtpPort (p : Z) (c : CallManager.Call) : CallManager.Call :=
  CallManager.set_rtp_ports (Some p) (CallManager.toRtpPort c) c.

(** The [try] block of [handleInvite]; nothing in it throws. *)
Definition handleInvite (cfg : Config) (env : Env) (message : string) (rinfo : Rinfo)
    (st : State) : State * list Datagram :=
  let parsed := parseSipMessage message in
  let reply code text :=
    send (createSipResponse (Some code) text (echo parsed) "") (port rinfo) (address rinfo) in
  if negb (SipValidator.valid (SipValidator.validateInviteRequest cfg parsed))
  then (st, [reply "400" "Bad Request"])
  else
    let toHeader := header parsed "To" in
    let fromHeader := header parsed "From" in
    let callId := show (header parsed "Call-ID") in
    let fromNumber := extractNumber (show fromHeader) in
    let toNumber := extractNumber (show toHeader) in
    let lookup n := match n with
                    | Some n' => UserManager.getUser n' (userManager st)
                    | None => None
                    end in
    match toNumber, fromNumber, lookup toNumber, lookup fromNumber with
    | Some toNumber, Some fromNumber, Some targetUser, Some callingUser =>
        if CallManager.isNumberBusy toNumber (callManager st)
        then (st, [reply "486" "Busy Here"])
        else
          let '(_, cm) := CallManager.createCall (now env) callId fromNumber toNumber
                            (address rinfo) (port rinfo) (body parsed) (callManager st) in
          let '(_, cm) := CallManager.setTarget callId (UserManager.address targetUser)
                            (UserManager.port targetUser) cm in
          let '(_, cm) := CallManager.updateCallState callId CallManager.RINGING
                            (CallManager.set_originals
                               (header parsed "Via") (header parsed "From")
                               (header parsed "To") (header parsed "CSeq")
                               (header parsed "Contact")) cm in
          let tryingResponse := reply "100" "Trying" in
          let modifiedSdp :=
            if SipValidator.is_sdp parsed then RtpProxy.modifySdp cfg (body parsed)
            else body parsed in
          let targetUri := "sip:" ++ toNumber ++ "@" ++ UserManager.address targetUser
                           ++ ":" ++ num_to_string (UserManager.port targetUser) in
          let inviteToTarget :=
            "INVITE " ++ targetUri ++ " SIP/2.0" ++ CRLF
            ++ "Via: SIP/2.0/UDP " ++ serverAddress cfg ++ ":" ++ num_to_string (sip_port cfg) ++ CRLF
            ++ "From: " ++ show fromHeader ++ CRLF
            ++ "To: " ++ show toHeader ++ CRLF
            ++ "Call-ID: " ++ callId ++ CRLF
            ++ "CSeq: " ++ show (header parsed "CSeq") ++ CRLF
            ++ "Contact: " ++ show (header parsed "Contact") ++ CRLF
            ++ (if truthy (header parsed "Content-Type")
                then "Content-Type: " ++ show (header parsed "Content-Type") ++ CRLF else "")
            ++ (if modifiedSdp =? "" then ""
                else "Content-Length: " ++ num_to_string (Z.of_nat (String.length modifiedSdp)) ++ CRLF)
            ++ CRLF
            ++ modifiedSdp in
          let cm :=
            if SipValidator.is_sdp parsed
            then match rtpPortMatch (body parsed) with
                 | Some fromRtpPort =>
                     snd (CallManager.updateCallState callId CallManager.RINGING
                            (set_fromRtpPort fromRtpPort) cm)
                 | None => cm
                 end
            else cm in
          (with_calls cm st,
           [tryingResponse;
            send inviteToTarget (UserManager.port targetUser) (UserManager.address targetUser)])
    | _, _, _, _ => (st, [reply "404" "Not Found"])
    end.

Definition handleBye (message : string) (rinfo : Rinfo) (st : State) : State * list Datagram :=
  let parsed := parseSipMessage message in
  let callId := header parsed "Call-ID" in
  let response :=
    send (createSipResponse (Some "200") "OK" (echo parsed) "") (port rinfo) (address rinfo) in
  match callId, CallManager.getCall callId (callManager st) with
  | Some id, Some call =>
      let byeMessage :=
        "BYE " ++ show_null (CallManager.toAddress call) ++ ":"
        ++ show_num (CallManager.toPort call) ++ " SIP/2.0" ++ CRLF
        ++ "Via: SIP/2.0/UDP " ++ address rinfo ++ ":" ++ num_to_string (port rinfo) ++ CRLF
        ++ "From: " ++ show (header parsed "From") ++ CRLF
        ++ "To: " ++ show (header parsed "To") ++ CRLF
        ++ "Call-ID: " ++ id ++ CRLF
        ++ "CSeq: " ++ show (header parsed "CSeq") ++ CRLF
        ++ CRLF in
      let forwarded :=
        {| payload := byeMessage; dport := CallManager.toPort call;
           daddress := CallManager.toAddress call |} in
      let '(_, cm) := CallManager.modify id (CallManager.set_terminating true) (callManager st) in
      (with_rtp (RtpProxy.removeStream id (rtpProxy st)) (with_calls cm st),
       [forwarded; response])
  | _, _ => (st, [response])
  end.

(** The pattern [/branch=([^;]+)/]. *)
Definition branchPattern : regex :=
  (Lit "branch=" >> Grp 1 (Plus (none_of ";")))%re.

(** [handleAck]: [None] when the ACK of a known dialog has no [Via] header,
    where [originalVia.match] throws. *)
Definition handleAck (cfg : Config) (env : Env) (message : string) (rinfo : Rinfo)
    (st : State) : option (State * list Datagram) :=
  let parsed := parseSipMessage message in
  let callId := header parsed "Call-ID" in
  match callId, CallManager.getCall callId (callManager st) with
  | Some id, Some call =>
      match header parsed "Via" with
      | None => None
      | Some originalVia =>
          let branch :=
            match search branchPattern originalVia with
            | Some m => show (cap 1 (groups m))
            | None => "z9hG4bK-" ++ random env
            end in
          let ackMessage :=
            "ACK sip:" ++ CallManager.toNumber call ++ "@"
            ++ show_null (CallManager.toAddress call) ++ ":"
            ++ show_num (CallManager.toPort call) ++ " SIP/2.0" ++ CRLF
            ++ "Via: SIP/2.0/UDP " ++ serverAddress cfg ++ ":" ++ num_to_string (sip_port cfg)
            ++ ";branch=" ++ branch ++ CRLF
            ++ "From: " ++ show (header parsed "From") ++ CRLF
            ++ "To: " ++ show (header parsed "To") ++ CRLF
            ++ "Call-ID: " ++ id ++ CRLF
            ++ "CSeq: " ++ show (header parsed "CSeq") ++ CRLF
            ++ (if truthy (header parsed "Contact")
                then "Contact: " ++ show (header parsed "Contact") ++ CRLF else "")
            ++ CRLF
            ++ body parsed in
          Some (st, [{| payload := ackMessage; dport := CallManager.toPort call;
                        daddress := CallManager.toAddress call |}])
      end
  | _, _ => Some (st, [])
  end.

(** [a || b] on strings that may be absent. *)
Definition or_else (a b : option string) : option string :=
  if truthy a then a else b.

(** Truthiness of a number that may be [null]. *)
Definition truthy_num (v : option Z) : bool :=
  match v with
  | Some z => negb (z =? 0)%Z
  | None => false
  end.

Definition is_sdp_response (parsed : SipMessage) : bool :=
  negb (body parsed =? "")
  && truthy (header parsed "Content-Type")
  && includes "application/sdp" (show (header parsed "Content-Type")).

(** The headers of the 200 OK relayed to the caller. *)
Definition responseHeaders (call : CallManager.Call) (parsed : SipMessage) (callId : string)
    : JsObj.t (option string) :=
  let hs :=
    [("Via", or_else (CallManager.originalVia call) (header parsed "Via"));
     ("From", or_else (CallManager.originalFrom call) (header parsed "From"));
     ("To", or_else (CallManager.originalTo call) (header parsed "To"));
     ("Call-ID", Some callId);
     ("CSeq", or_else (CallManager.originalCSeq call) (header parsed "CSeq"))] in
  let hs := JsObj.set "Contact" (Some "<sip:101@192.168.0.42:5060>") hs in
  if truthy (header parsed "Content-Type")
  then JsObj.set "Content-Type" (header parsed "Content-Type") hs
  else hs.

(** The branch of the [message] handler for a first line that starts with
    [SIP/2.0]. *)
Definition handleResponse (cfg : Config) (env : Env) (message : string) (rinfo : Rinfo)
    (st : State) : State * list Datagram :=
  let parsed := parseSipMessage message in
  let statusLine := firstLine parsed in
  let callId := header parsed "Call-ID" in
  match callId, CallManager.getCall callId (callManager st) with
  | Some id, Some call =>
      if includes "200 OK" statusLine && CallManager.terminating call
      then (with_calls (snd (CallManager.endCall (now env) id "NORMAL" (callManager st))) st, [])
      else if includes "200 OK" statusLine
      then
        let rp :=
          if is_sdp_response parsed
          then match rtpPortMatch (body parsed) with
               | Some toRtpPort =>
                   if truthy_num (CallManager.fromRtpPort call)
                   then RtpProxy.addStream id (CallManager.fromAddress call)
                          (match CallManager.fromRtpPort call with Some p => p | None => 0%Z end)
                          (address rinfo) toRtpPort (rtpProxy st)
                   else rtpProxy st
               | None => rtpProxy st
               end
          else rtpProxy st in
        let responseBody :=
          if is_sdp_response parsed then RtpProxy.modifySdp cfg (body parsed) else body parsed in
        let okResponse :=
          createSipResponse (Some "200") "OK" (responseHeaders call parsed id) responseBody in
        let '(_, cm) := CallManager.updateCallState id CallManager.ESTABLISHED
                          (CallManager.set_waitingForAck true) (callManager st) in
        (with_rtp rp (with_calls cm st),
         [send okResponse (CallManager.fromPort call) (CallManager.fromAddress call)])
      else if includes "404" statusLine || includes "486" statusLine || includes "487" statusLine
      then
        let parts := split_char " " statusLine in
        let errorResponse :=
          createSipResponse (nth_error parts 1) (join " " (skipn 2 parts))
            [("Via", header parsed "Via"); ("From", header parsed "From");
             ("To", header parsed "To"); ("Call-ID", Some id);
             ("CSeq", header parsed "CSeq")] "" in
        (st, [send errorResponse (CallManager.fromPort call) (CallManager.fromAddress call)])
      else (st, [])
  | _, _ => (st, [])
  end.

(** [sipServer.on('message', ...)]: dispatch on the first line.  [None] is an
    uncaught exception, after which the process exits. *)
Definition on_message (cfg : Config) (env : Env) (message : string) (rinfo : Rinfo)
    (st : State) : option (State * list Datagram) :=
  let firstLine := hd "" (split_crlf message) in
  if startsWith "REGISTER" firstLine then Some (handleRegister cfg env message rinfo st)
  else if startsWith "INVITE" firstLine then Some (handleInvite cfg env message rinfo st)
  else if startsWith "BYE" firstLine then Some (handleBye message rinfo st)
  else if startsWith "ACK" firstLine then handleAck cfg env message rinfo st
  else if startsWith "SIP/2.0" firstLine then Some (handleResponse cfg env message rinfo st)
  else Some (st, []).

(** A run of the server over a list of datagrams, each with its source and
    the environment at its arrival; the datagrams sent are collected. *)
Record Arrival : Type := { a_env : Env; a_message : string; a_rinfo : Rinfo }.

Fixpoint run (cfg : Config) (arrivals : list Arrival) (st : State)
    : option (State * list Datagram) :=
  match arrivals with
  | [] => Some (st, [])
  | a :: rest =>
      match on_message cfg (a_env a) (a_message a) (a_rinfo a) st with
      | None => None
      | Some (st1, out1) =>
          match run cfg rest st1 with
          | None => None
          | Some (st2, out2) => Some (st2, (out1 ++ out2)%list)
          end
      end
  end.

End SipServer.

(** ** Vocabulary of the properties *)

(** A sequence of [addStream] and [removeStream] calls on the relay. *)
Module StreamPairs.
Import RtpProxy.

(** The entry of the opposite direction. *)
Definition swap (s : Stream) : Stream :=
  {| fromAddress := toAddress s; fromPort := toPort s;
     toAddress := fromAddress s; toPort := fromPort s |}.

Inductive op : Type :=
| Add (callId fromAddress : string) (fromPort : Z) (toAddress : string) (toPort : Z)
| Remove (callId : string).

Definition op_id (o : op) : string :=
  match o with Add k _ _ _ _ => k | Remove k => k end.

Definition apply (o : op) (rp : t) : t :=
  match o with
  | Add k fa fp ta tp => addStream k fa fp ta tp rp
  | Remove k => removeStream k rp
  end.

Definition run (ops : list op) (rp : t) : t := fold_left (fun r o => apply o r) ops rp.

Definition added (ops : list op) : list string :=
  flat_map (fun o => match o with Add k _ _ _ _ => [k] | Remove _ => [] end) ops.

(** No call-id of the sequence is another one followed by [_reverse]. *)
Definition separate (ops : list op) : Prop :=
  forall a b, In a ops -> In b ops -> op_id a <> reverse_key (op_id b).

(** Every forward entry has its reverse entry. *)
Definition paired (ids : list string) (rp : t) : Prop :=
  forall k s, In k ids ->
    JsMap.get k (activeStreams rp) = Some s ->
    JsMap.get (reverse_key k) (activeStreams rp) = Some (swap s).

End StreamPairs.

(** A call between two registered extensions, datagram by datagram. *)
Module Scenario.
Import Js SipServer.

Definition line (s : string) : string := s ++ CRLF.

Definition sdp (addr rtp : string) : string :=
  line "v=0" ++ line ("o=- 1 1 IN IP4 " ++ addr) ++ line "s=call"
  ++ line ("c=IN IP4 " ++ addr) ++ line "t=0 0"
  ++ line ("m=audio " ++ rtp ++ " RTP/AVP 0").

Definition register (number addr port : string) : string :=
  line ("REGISTER sip:" ++ number ++ "@192.168.0.42 SIP/2.0")
  ++ line ("Via: SIP/2.0/UDP " ++ addr ++ ":" ++ port)
  ++ line ("From: <sip:" ++ number ++ "@192.168.0.42>")
  ++ line ("To: <sip:" ++ number ++ "@192.168.0.42>")
  ++ line ("Call-ID: reg-" ++ number)
  ++ line "CSeq: 1 REGISTER"
  ++ line ("Contact: <sip:" ++ number ++ "@" ++ addr ++ ":" ++ port ++ ">")
  ++ line "Expires: 3600"
  ++ CRLF.

(** [100] calls [callee] with an SDP offer. *)
Definition invite (callee : string) : string :=
  line ("INVITE sip:" ++ callee ++ "@192.168.0.42 SIP/2.0")
  ++ line "Via: SIP/2.0/UDP 10.0.0.5:5061;branch=z9hG4bK1"
  ++ line "From: <sip:100@192.168.0.42>;tag=1"
  ++ line ("To: <sip:" ++ callee ++ "@192.168.0.42>")
  ++ line "Call-ID: call-1"
  ++ line "CSeq: 1 INVITE"
  ++ line "Contact: <sip:100@10.0.0.5:5061>"
  ++ line "Content-Type: application/sdp"
  ++ CRLF
  ++ sdp "10.0.0.5" "40000".

(** The callee answers with an SDP answer. *)
Definition answer (callee : string) : string :=
  line "SIP/2.0 200 OK"
  ++ line "Via: SIP/2.0/UDP 192.168.0.42:5060"
  ++ line "From: <sip:100@192.168.0.42>;tag=1"
  ++ line ("To: <sip:" ++ callee ++ "@192.168.0.42>;tag=2")
  ++ line "Call-ID: call-1"
  ++ line "CSeq: 1 INVITE"
  ++ line ("Contact: <sip:" ++ callee ++ "@10.0.0.6:5062>")
  ++ line "Content-Type: application/sdp"
  ++ CRLF
  ++ sdp "10.0.0.6" "41000".

(** The callee hangs up. *)
Definition bye (callee : string) : string :=
  line "BYE sip:100@192.168.0.42 SIP/2.0"
  ++ line "Via: SIP/2.0/UDP 10.0.0.6:5062"
  ++ line ("From: <sip:" ++ callee ++ "@192.168.0.42>;tag=2")
  ++ line "To: <sip:100@192.168.0.42>;tag=1"
  ++ line "Call-ID: call-1"
  ++ line "CSeq: 1 BYE"
  ++ CRLF.

(** The 200 OK that answers a BYE. *)
Definition bye_ok : string :=
  line "SIP/2.0 200 OK"
  ++ line "Via: SIP/2.0/UDP 10.0.0.6:5062"
  ++ line "Call-ID: call-1"
  ++ line "CSeq: 1 BYE"
  ++ CRLF.

(** An ACK with and without a [Via] header. *)
Definition ack : string :=
  line "ACK sip:101@192.168.0.42:5060 SIP/2.0"
  ++ line "Via: SIP/2.0/UDP 10.0.0.5:5061;branch=z9hG4bK2"
  ++ line "Call-ID: call-1"
  ++ line "CSeq: 1 ACK"
  ++ CRLF.

Definition ack_without_via : string :=
  line "ACK sip:101@192.168.0.42:5060 SIP/2.0"
  ++ line "Call-ID: call-1"
  ++ line "CSeq: 1 ACK"
  ++ CRLF.

(** The dialog [call-1] as [createCall] and [setTarget] make it, and a
    server that holds it. *)
Definition dialed : CallManager.Call :=
  CallManager.set_state CallManager.RINGING
    (CallManager.set_target "10.0.0.6" 5062
       (fst (CallManager.createCall 20 "call-1" "100" "101" "10.0.0.5" 5061 ""
               CallManager.create))).

Definition dialing : State :=
  with_calls
    (snd (CallManager.setTarget "call-1" "10.0.0.6" 5062
            (snd (CallManager.createCall 20 "call-1" "100" "101" "10.0.0.5" 5061 ""
                    CallManager.create))))
    initial.

Definition caller : Rinfo := {| address := "10.0.0.5"; port := 5061 |}.
Definition callee_at : Rinfo := {| address := "10.0.0.6"; port := 5062 |}.

Definition at_time (t : Z) : Env := {| now := t; random := "k3x9q2m1z" |}.

Definition arrive (t : Z) (message : string) (rinfo : Rinfo) : Arrival :=
  {| a_env := at_time t; a_message := message; a_rinfo := rinfo |}.

(** Both parties register and the call is set up and answered. *)
Definition setup (callee : string) : list Arrival :=
  [arrive 0 (register "100" "10.0.0.5" "5061") caller;
   arrive 10 (register callee "10.0.0.6" "5062") callee_at;
   arrive 20 (invite callee) caller].

Definition answered (callee : string) : list Arrival :=
  (setup callee ++ [arrive 30 (answer callee) callee_at])%list.

(** A third extension, [102], and its INVITE to [101]. *)
Definition third : Rinfo := {| address := "10.0.0.7"; port := 5063 |}.

Definition invite_by_third : string :=
  line "INVITE sip:101@192.168.0.42 SIP/2.0"
  ++ line "Via: SIP/2.0/UDP 10.0.0.7:5063;branch=z9hG4bK3"
  ++ line "From: <sip:102@192.168.0.42>;tag=3"
  ++ line "To: <sip:101@192.168.0.42>"
  ++ line "Call-ID: call-2"
  ++ line "CSeq: 1 INVITE"
  ++ line "Contact: <sip:102@10.0.0.7:5063>"
  ++ line "Content-Type: application/sdp"
  ++ CRLF
  ++ sdp "10.0.0.7" "42000".

(** Three extensions register, [100] calls [101], [101] answers and then
    hangs up; the 200 OK of the other leg to the BYE has not arrived. *)
Definition hung_up : list Arrival :=
  [arrive 0 (register "100" "10.0.0.5" "5061") caller;
   arrive 10 (register "101" "10.0.0.6" "5062") callee_at;
   arrive 15 (register "102" "10.0.0.7" "5063") third;
   arrive 20 (invite "101") caller;
   arrive 30 (answer "101") callee_at;
   arrive 40 (bye "101") callee_at].

Definition state_after (arrivals : list Arrival) : State :=
  match run default_config arrivals initial with
  | Some (st, _) => st
  | None => initial
  end.

Definition sent_after (arrivals : list Arrival) : list Datagram :=
  match run default_config arrivals initial with
  | Some (_, out) => out
  | None => []
  end.

End Scenario.

(** The header section of a datagram and the lines in it that lack a colon. *)
Module Wire.
Import Js Codec.

(** The lines after the first one, up to the first empty line. *)
Fixpoint header_section (lines : list string) : list string :=
  match lines with
  | [] => []
  | l :: rest => if l =? "" then [] else l :: header_section rest
  end.

Definition has_colon (line : string) : bool :=
  match indexOf ":" line with Some _ => true | None => false end.

Definition colonless_header (message : string) : bool :=
  existsb (fun l => negb (has_colon l)) (header_section (tl (split_crlf message))).

(** The body has not started: no line after the first is empty. *)
Definition header_open (pre : string) : Prop :=
  Forall (fun l => l <> "") (tl (split_crlf pre)).

(** A header the codec writes and reads back unchanged: the name is
    trimmed, holds no colon, is no array index and is not [__proto__]; the
    value is trimmed; the line holds no line break. *)
Definition plain_header (kv : string * string) : Prop :=
  trim (fst kv) = fst kv
  /\ indexOf ":" (fst kv) = None
  /\ JsObj.array_index (fst kv) = None
  /\ fst kv <> "__proto__"
  /\ trim (snd kv) = snd kv
  /\ includes CRLF (fst kv ++ ": " ++ snd kv) = false.

(** A body the parser returns unchanged: trimmed and without empty line. *)
Definition plain_body (bd : string) : Prop :=
  trim bd = bd /\ Forall (fun l => l <> "") (split_crlf bd).

(** The header lines before the body change the headers only. *)
Fixpoint read_headers (lines : list string) (hs : JsObj.t string) : JsObj.t string :=
  match lines with
  | [] => hs
  | line :: rest =>
      match indexOf ":" line with
      | Some i =>
          read_headers rest
            (JsObj.set (trim (substring 0 i line)) (trim (substring_from (i + 1) line)) hs)
      | None => read_headers rest hs
      end
  end.

(** The line of a header, without its line break. *)
Definition header_text (kv : string * string) : string := fst kv ++ ": " ++ snd kv.

(** Every character of a text passes a test. *)
Fixpoint all_chars (p : ascii -> bool) (s : string) : bool :=
  match s with
  | "" => true
  | String c s' => p c && all_chars p s'
  end.

Definition defined (hs : list (string * string)) : JsObj.t (option string) :=
  map (fun kv => (fst kv, Some (snd kv))) hs.

End Wire.

(** Scanning a text: runs of characters and the lines of the SDP rewriter. *)
Module Scan.
Import Js.

(** The text after the longest run of characters that pass [p]. *)
Fixpoint skip (p : ascii -> bool) (s : string) : string :=
  match s with
  | String b x => if p b then skip p x else s
  | "" => ""
  end.

(** The longest run of characters that pass [p] at the start of a text. *)
Fixpoint span (p : ascii -> bool) (s : string) : string :=
  match s with
  | String b x => if p b then String b (span p x) else ""
  | "" => ""
  end.

Definition nn (c : ascii) : bool := negb (is_newline c).
Definition ns (c : ascii) : bool := negb (is_space c).

(** A greedy run before a continuation [k]: the longest run first, then
    shorter ones. *)
Fixpoint greedy {A : Type} (p : ascii -> bool) (k : string -> option A) (s : string)
    : option A :=
  match s with
  | String b x =>
      if p b
      then match greedy p k x with
           | Some r => Some r
           | None => k s
           end
      else k s
  | "" => k s
  end.

(** A literal followed by a non-empty run of a class, at the start of a
    text: the text after the run. *)
Definition lit_then (l : string) (p : ascii -> bool) (s : string) : option string :=
  if startsWith l s
  then match drop (String.length l) s with
       | String b x => if p b then Some (skip p x) else None
       | "" => None
       end
  else None.

(** A non-empty run without white space followed by one space: the text
    after the space. *)
Definition token (s : string) : option string :=
  match s with
  | String b x =>
      if ns b
      then match skip ns x with
           | String c r => if Ascii.eqb c " " then Some r else None
           | "" => None
           end
      else None
  | "" => None
  end.

(** The four patterns of the rewriter at the start of a text. *)
Definition c_match : string -> option string := lit_then "c=IN IP4 " nn.
Definition a_match : string -> option string := lit_then "IN IP4 " nn.
Definition m_match : string -> option string := lit_then "m=audio " is_digit.

Definition o_match (s : string) : option string :=
  if startsWith "o=" s
  then match token (drop 2 s) with
       | Some s1 =>
           match token s1 with
           | Some (String b x) => if ns b then lit_then " IN IP4 " nn (skip ns x) else None
           | _ => None
           end
       | None => None
       end
  else None.

(** The text before the first place where the address pattern matches. *)
Fixpoint before_T (s : string) : string :=
  match a_match s with
  | Some _ => ""
  | None =>
      match s with
      | String a s' => String a (before_T s')
      | "" => ""
      end
  end.

(** Some place of the text matches the address pattern. *)
Fixpoint has_T (s : string) : bool :=
  match a_match s with
  | Some _ => true
  | None =>
      match s with
      | String _ s' => has_T s'
      | "" => false
      end
  end.

(** The end of a line: the end of the text or a line break. *)
Definition eol (t : string) : bool :=
  match t with
  | "" => true
  | String d _ => is_newline d
  end.

(** What the origin pattern reads before the literal of the address: the
    marker and three runs without white space, each followed by a space. *)
Definition o_prefix (w : string) : Prop :=
  exists u s v,
    w = "o=" ++ u ++ " " ++ s ++ " " ++ v ++ " "
    /\ u <> "" /\ s <> "" /\ v <> ""
    /\ Wire.all_chars ns u = true /\ Wire.all_chars ns s = true
    /\ Wire.all_chars ns v = true.

End Scan.

(** The three passes of [modifySdp], for a server address [a] and the text
    [p] of the RTP port. *)
Module Pass.
Import Js Regex RtpProxy.

Definition inner (a : string) (m : string) : string :=
  replace_first addressPattern (fun _ => "IN IP4 " ++ a) m.

Definition connection (a : string) (s : string) : string :=
  replace_all connectionPattern (fun _ => "c=IN IP4 " ++ a) s.

Definition origin (a : string) (s : string) : string :=
  replace_all originPattern (inner a) s.

Definition audio (p : string) (s : string) : string :=
  replace_all audioPattern (fun _ => "m=audio " ++ p) s.

(** A character of the text of a port, and the text of a port: decimal
    digits, after a sign when the number is negative. *)
Definition port_char (c : ascii) : bool := is_digit c || Ascii.eqb c "-".

Definition port_text (p : string) : Prop :=
  exists ds, ds <> "" /\ Wire.all_chars is_digit ds = true /\ (p = ds \/ p = "-" ++ ds).

(** The audio pass on what follows a space: the pass itself or, when the
    space ended the literal of an audio line and digits follow, the port and
    the pass on what follows the digits. *)
Definition resumed (p r r' : string) : Prop :=
  r' = audio p r
  \/ exists d x, r = String d x /\ is_digit d = true
                 /\ r' = p ++ audio p (Scan.skip is_digit x).

(** A character of a server address: no white space, and no [$], which a
    replacement string would expand. *)
Definition host_char (c : ascii) : bool := Scan.ns c && negb (Ascii.eqb c "$").

(** A server address: a non-empty text of such characters. *)
Definition host (a : string) : Prop := a <> "" /\ Wire.all_chars host_char a = true.

End Pass.

(** * Properties *)


(** ** Maps *)

Section JsMapFacts.
Context {V : Type}.
Implicit Types (m : JsMap.t V) (k : string) (v : V).

Lemma get_set_same m k v : JsMap.get k (JsMap.set k v m) = Some v.
Proof.
  induction m as [|[k' v'] m IH]; simpl.
  - now rewrite String.eqb_refl.
  - destruct (k' =? k) eqn:E; simpl.
    + now rewrite String.eqb_refl.
    + now rewrite E.
Qed.

Lemma get_set_other m k k' v : k' <> k -> JsMap.get k' (JsMap.set k v m) = JsMap.get k' m.
Proof.
  intros Hne. induction m as [|[k0 v0] m IH]; simpl.
  - destruct (String.eqb_spec k k'); congruence.
  - destruct (String.eqb_spec k0 k) as [->|Hk]; simpl.
    + destruct (String.eqb_spec k k'); congruence.
    + now rewrite IH.
Qed.

Lemma get_delete_same m k : JsMap.get k (JsMap.delete k m) = None.
Proof.
  unfold JsMap.delete. induction m as [|[k' v'] m IH]; simpl; auto.
  destruct (k' =? k) eqn:E; simpl; auto. now rewrite E.
Qed.

Lemma get_delete_other m k k' : k' <> k -> JsMap.get k' (JsMap.delete k m) = JsMap.get k' m.
Proof.
  intros Hne. unfold JsMap.delete. induction m as [|[k0 v0] m IH]; simpl; auto.
  destruct (String.eqb_spec k0 k) as [->|Hk]; simpl.
  - destruct (String.eqb_spec k k'); congruence.
  - now rewrite IH.
Qed.

Lemma get_In m k v : JsMap.get k m = Some v -> In (k, v) m.
Proof.
  induction m as [|[k' v'] m IH]; simpl; [discriminate|].
  destruct (String.eqb_spec k' k) as [->|]; intros H.
  - left. congruence.
  - right. auto.
Qed.

End JsMapFacts.

(** ** Strings *)

Lemma append_nil_r (s : string) : s ++ "" = s.
Proof. induction s; simpl; congruence. Qed.

Lemma append_assoc (a b c : string) : (a ++ b) ++ c = a ++ b ++ c.
Proof. induction a; simpl; congruence. Qed.

Lemma length_append (a b : string) : String.length (a ++ b) = String.length a + String.length b.
Proof. induction a; simpl; auto. Qed.

Lemma append_cancel_r (a b c : string) : a ++ c = b ++ c -> a = b.
Proof.
  revert b. induction a as [|x a IH]; intros [|y b] H; simpl in *; auto.
  - apply (f_equal String.length) in H. simpl in H. rewrite length_append in H. lia.
  - apply (f_equal String.length) in H. simpl in H. rewrite length_append in H. lia.
  - injection H as -> H. f_equal. auto.
Qed.

Lemma append_neq_self (a c : string) : c <> "" -> a <> a ++ c.
Proof.
  intros Hc H. apply (f_equal String.length) in H. rewrite length_append in H.
  destruct c; [congruence|simpl in H; lia].
Qed.

(** ** RTP relay: the two entries of a call *)

Section StreamPairFacts.
Import RtpProxy StreamPairs.

Lemma reverse_key_inj (a b : string) : reverse_key a = reverse_key b -> a = b.
Proof. apply append_cancel_r. Qed.

Lemma reverse_key_neq (a : string) : a <> reverse_key a.
Proof. apply append_neq_self. discriminate. Qed.

Lemma addStream_forward rp k fa fp ta tp :
  JsMap.get k (activeStreams (addStream k fa fp ta tp rp))
  = Some {| fromAddress := fa; fromPort := fp; toAddress := ta; toPort := tp |}.
Proof.
  unfold addStream; simpl.
  rewrite get_set_other by apply reverse_key_neq.
  apply get_set_same.
Qed.

Lemma addStream_reverse rp k fa fp ta tp :
  JsMap.get (reverse_key k) (activeStreams (addStream k fa fp ta tp rp))
  = Some {| fromAddress := ta; fromPort := tp; toAddress := fa; toPort := fp |}.
Proof. unfold addStream; simpl. apply get_set_same. Qed.

Lemma addStream_other rp k fa fp ta tp j :
  j <> k -> j <> reverse_key k ->
  JsMap.get j (activeStreams (addStream k fa fp ta tp rp)) = JsMap.get j (activeStreams rp).
Proof.
  intros H1 H2. unfold addStream; simpl.
  now rewrite !get_set_other.
Qed.

Lemma delete_if_has {V} (m : JsMap.t V) k j :
  JsMap.get j (if JsMap.has k m then JsMap.delete k m else m)
  = if j =? k then None else JsMap.get j m.
Proof.
  unfold JsMap.has. destruct (String.eqb_spec j k) as [->|Hne].
  - destruct (JsMap.get k m) eqn:E; [apply get_delete_same|exact E].
  - destruct (JsMap.get k m); [now apply get_delete_other|reflexivity].
Qed.

Lemma removeStream_get rp k j :
  JsMap.get j (activeStreams (removeStream k rp))
  = if (j =? k) || (j =? reverse_key k) then None else JsMap.get j (activeStreams rp).
Proof.
  unfold removeStream; simpl. rewrite !delete_if_has.
  destruct (j =? reverse_key k), (j =? k); reflexivity.
Qed.

Lemma paired_apply ids o rp :
  (forall a, In a ids -> a <> reverse_key (op_id o)) ->
  (forall a, In a ids -> op_id o <> reverse_key a) ->
  paired ids rp -> paired ids (apply o rp).
Proof.
  intros Hsep1 Hsep2 Hp k s Hk.
  destruct o as [c fa fp ta tp|c]; unfold apply; cbn [op_id] in *.
  - destruct (String.eqb_spec k c) as [->|Hne].
    + rewrite addStream_forward, addStream_reverse. now intros [= <-].
    + rewrite !addStream_other; auto.
      * intros E. apply (Hsep2 k Hk). now symmetry.
      * intros E. apply Hne. now apply reverse_key_inj.
  - rewrite !removeStream_get.
    destruct (String.eqb_spec k c) as [->|Hne]; simpl; [discriminate|].
    destruct (String.eqb_spec k (reverse_key c)) as [E|_]; [discriminate|].
    destruct (String.eqb_spec (reverse_key k) c) as [E|_].
    { exfalso. apply (Hsep2 k Hk). now symmetry. }
    destruct (String.eqb_spec (reverse_key k) (reverse_key c)) as [E|_].
    { exfalso. apply Hne. now apply reverse_key_inj. }
    simpl. auto.
Qed.

Lemma paired_run ids ops rp :
  (forall a o, In a ids -> In o ops -> a <> reverse_key (op_id o)) ->
  (forall a o, In a ids -> In o ops -> op_id o <> reverse_key a) ->
  paired ids rp -> paired ids (run ops rp).
Proof.
  revert rp. induction ops as [|o ops IH]; intros rp H1 H2 Hp; simpl; auto.
  apply IH.
  - intros a o' Ha Ho. apply H1; simpl; auto.
  - intros a o' Ha Ho. apply H2; simpl; auto.
  - apply paired_apply; auto.
    + intros a Ha. apply H1; simpl; auto.
    + intros a Ha. apply H2; simpl; auto.
Qed.

Lemma added_ids ops k : In k (added ops) -> exists o, In o ops /\ op_id o = k.
Proof.
  unfold added. rewrite in_flat_map. intros [o [Ho Hk]].
  exists o. split; auto. destruct o; simpl in *; intuition.
Qed.

End StreamPairFacts.

(** C5, as stated, fails: the call-ids [a] and [a_reverse] share the key
    [a_reverse], so the second call overwrites the reverse entry of the first. *)
Lemma stream_pairing_counterexample :
  let ops := [StreamPairs.Add "a" "10.0.0.5" 40000 "10.0.0.6" 41000;
              StreamPairs.Add "a_reverse" "10.0.0.7" 42000 "10.0.0.8" 43000] in
  let rp := StreamPairs.run ops RtpProxy.create in
  exists s,
    In "a" (StreamPairs.added ops)
    /\ JsMap.get "a" (RtpProxy.activeStreams rp) = Some s
    /\ JsMap.get (RtpProxy.reverse_key "a") (RtpProxy.activeStreams rp)
       <> Some (StreamPairs.swap s).
Proof.
  exists {| RtpProxy.fromAddress := "10.0.0.5"; RtpProxy.fromPort := 40000;
            RtpProxy.toAddress := "10.0.0.6"; RtpProxy.toPort := 41000 |}.
  split; [simpl; auto|]. split; [reflexivity|].
  vm_compute. discriminate.
Qed.

(** C5, amended: [addStream] installs the entry of a call and, under the key
    with [_reverse] appended, the entry with the two ends exchanged;
    [removeStream] removes both; and after any sequence of the two operations
    in which no call-id is another call-id followed by [_reverse], every entry
    under the call-id of an [addStream] has its reverse entry. *)
Theorem stream_pairing :
  (forall rp k fa fp ta tp,
      let s := {| RtpProxy.fromAddress := fa; RtpProxy.fromPort := fp;
                  RtpProxy.toAddress := ta; RtpProxy.toPort := tp |} in
      let rp' := RtpProxy.addStream k fa fp ta tp rp in
      JsMap.get k (RtpProxy.activeStreams rp') = Some s
      /\ JsMap.get (RtpProxy.reverse_key k) (RtpProxy.activeStreams rp')
         = Some (StreamPairs.swap s))
  /\ (forall rp k,
      let rp' := RtpProxy.removeStream k rp in
      JsMap.get k (RtpProxy.activeStreams rp') = None
      /\ JsMap.get (RtpProxy.reverse_key k) (RtpProxy.activeStreams rp') = None)
  /\ (forall ops,
      StreamPairs.separate ops ->
      StreamPairs.paired (StreamPairs.added ops) (StreamPairs.run ops RtpProxy.create)).
Proof.
  split; [|split].
  - intros rp k fa fp ta tp s rp'. subst s rp'. split.
    + apply addStream_forward.
    + apply addStream_reverse.
  - intros rp k rp'. subst rp'. rewrite !removeStream_get.
    rewrite String.eqb_refl. simpl. now rewrite String.eqb_refl, orb_true_r.
  - intros ops Hsep. apply paired_run.
    + intros a o Ha Ho. apply added_ids in Ha as [o' [Ho' <-]]. now apply Hsep.
    + intros a o Ha Ho. apply added_ids in Ha as [o' [Ho' <-]]. now apply Hsep.
    + intros k s _ H. discriminate H.
Qed.

Lemma stream_pairing_witness :
  let ops := [StreamPairs.Add "a" "10.0.0.5" 40000 "10.0.0.6" 41000;
              StreamPairs.Add "b" "10.0.0.7" 42000 "10.0.0.8" 43000;
              StreamPairs.Remove "b"] in
  StreamPairs.separate ops
  /\ StreamPairs.paired (StreamPairs.added ops) (StreamPairs.run ops RtpProxy.create).
Proof.
  intros ops.
  assert (StreamPairs.separate ops) as Hsep.
  { intros a b Ha Hb. simpl in Ha, Hb.
    destruct Ha as [<-|[<-|[<-|[]]]], Hb as [<-|[<-|[<-|[]]]]; simpl; discriminate. }
  split; [exact Hsep|].
  exact (proj2 (proj2 stream_pairing) ops Hsep).
Defined.

(** ** Registrar: what a lookup returns *)

Section RegistrarFacts.
Import UserManager.

(** The sibling check: [isUserRegistered] answers [true] only for a binding
    that has not expired, and drops an expired one. *)
Lemma isUserRegistered_unexpired now number um :
  fst (isUserRegistered now number um) = true ->
  exists b, getUser number um = Some b /\ (now <= expiresAt b)%Z.
Proof.
  unfold isUserRegistered, getUser.
  destruct (JsMap.get number (registeredUsers um)) as [b|]; [|discriminate].
  destruct (now >? expiresAt b)%Z eqn:E; [discriminate|].
  intros _. exists b. split; auto. rewrite Z.gtb_ltb in E. apply Z.ltb_ge in E. exact E.
Qed.

Lemma isUserRegistered_drops_expired now number um b :
  getUser number um = Some b -> (expiresAt b < now)%Z ->
  getUser number (snd (isUserRegistered now number um)) = None.
Proof.
  unfold isUserRegistered, getUser. intros -> Hlt.
  replace (now >? expiresAt b)%Z with true by (symmetry; rewrite Z.gtb_ltb; apply Z.ltb_lt; lia).
  simpl. apply get_delete_same.
Qed.

End RegistrarFacts.

(** C2 on the code: extension 100 registers at time 0 for 60 seconds; one
    millisecond after the expiry, and before any clean-up, [getUser] still
    returns the binding, whose [expiresAt] lies in the past, while
    [isUserRegistered] answers [false]. *)
Theorem getUser_returns_expired_binding :
  let um := snd (UserManager.registerUser 0 "100" "sip:100@10.0.0.5:5061"
                   "10.0.0.5" 5061 60 UserManager.create) in
  let now := 60001%Z in
  exists b,
    UserManager.getUser "100" um = Some b
    /\ (UserManager.expiresAt b < now)%Z
    /\ fst (UserManager.isUserRegistered now "100" um) = false.
Proof.
  eexists. split; [reflexivity|]. split; [reflexivity|reflexivity].
Qed.

(** ** SIP engine: the relayed 200 OK, BYE and the busy check *)

Section EngineFacts.
Import Codec CallManager SipServer.

(** Whatever the dialog and the response, the relayed 200 OK carries the
    same literal [Contact]. *)
Lemma responseHeaders_contact call parsed id :
  JsObj.get "Contact" (responseHeaders call parsed id)
  = Some (Some "<sip:101@192.168.0.42:5060>").
Proof.
  unfold responseHeaders.
  destruct (truthy (header parsed "Content-Type")); reflexivity.
Qed.

(** The forwarded BYE goes to the callee's transport, whoever sent the BYE. *)
Lemma handleBye_forwards_to_callee message rinfo st id call :
  header (parseSipMessage message) "Call-ID" = Some id ->
  JsMap.get id (activeCalls (callManager st)) = Some call ->
  exists forwarded response,
    snd (handleBye message rinfo st) = [forwarded; response]
    /\ daddress forwarded = toAddress call
    /\ dport forwarded = toPort call.
Proof.
  intros Hid Hcall. unfold handleBye. rewrite Hid. simpl.
  rewrite Hcall. unfold modify. rewrite Hcall. simpl.
  eexists _, _. split; [reflexivity|]. split; reflexivity.
Qed.

(** [isNumberBusy] holds exactly when some active dialog mentions the number
    and is ringing or established. *)
Lemma isNumberBusy_iff number cm :
  isNumberBusy number cm = true <->
  exists k call,
    In (k, call) (activeCalls cm)
    /\ (fromNumber call = number \/ toNumber call = number)
    /\ (state call = RINGING \/ state call = ESTABLISHED).
Proof.
  unfold isNumberBusy, JsMap.values. rewrite existsb_exists. split.
  - intros [call [Hin H]]. apply in_map_iff in Hin as [[k c] [<- Hin]]. simpl in H.
    apply andb_true_iff in H as [Hm Hs]. unfold mentions in Hm.
    exists k, c. split; auto. split.
    + apply orb_true_iff in Hm as [Hm|Hm]; apply String.eqb_eq in Hm; auto.
    + destruct (state c); simpl in Hs; auto; discriminate.
  - intros [k [call [Hin [Hm Hs]]]]. exists call. split.
    + apply in_map_iff. now exists (k, call).
    + apply andb_true_iff. split.
      * unfold mentions. apply orb_true_iff.
        destruct Hm as [<-|<-]; rewrite String.eqb_refl; auto.
      * destruct Hs as [->| ->]; reflexivity.
Qed.

End EngineFacts.

(** C1 on the code: 100 calls 102 and 102 answers.  The 200 OK relayed to the
    caller belongs to the dialog whose [toNumber] is 102, and its [Contact] is
    [<sip:101@192.168.0.42:5060>], not [<sip:102@192.168.0.42:5060>]. *)
Theorem relayed_contact_ignores_callee :
  let st := Scenario.state_after (Scenario.answered "102") in
  let dialog := CallManager.getCall (Some "call-1") (SipServer.callManager st) in
  let relayed := nth_error (Scenario.sent_after (Scenario.answered "102")) 4 in
  let parsed := option_map (fun d => Codec.parseSipMessage (SipServer.payload d)) relayed in
  option_map CallManager.toNumber dialog = Some "102"
  /\ option_map CallManager.terminating dialog = Some false
  /\ option_map SipServer.daddress relayed = Some (Some "10.0.0.5")
  /\ option_map Codec.firstLine parsed = Some "SIP/2.0 200 OK"
  /\ option_map (fun m => SipServer.header m "Contact") parsed
     = Some (Some "<sip:101@192.168.0.42:5060>").
Proof.
  repeat split; vm_compute; reflexivity.
Qed.

(** C3 on the code: the call of 100 to 101 is established, and 101 (the
    callee, at 10.0.0.6:5062) sends BYE.  The BYE comes from the dialog's
    [to] transport, and the forwarded BYE is sent to that same transport
    instead of the caller's, 10.0.0.5:5061. *)
Theorem bye_from_callee_returns_to_callee :
  let st := Scenario.state_after (Scenario.answered "101") in
  let dialog := CallManager.getCall (Some "call-1") (SipServer.callManager st) in
  let sent := snd (SipServer.handleBye (Scenario.bye "101") Scenario.callee_at st) in
  option_map CallManager.toAddress dialog = Some (Some "10.0.0.6")
  /\ option_map CallManager.toPort dialog = Some (Some 5062%Z)
  /\ option_map CallManager.fromAddress dialog = Some "10.0.0.5"
  /\ option_map CallManager.fromPort dialog = Some 5061%Z
  /\ List.length sent = 2
  /\ option_map SipServer.daddress (nth_error sent 0) = Some (Some "10.0.0.6")
  /\ option_map SipServer.dport (nth_error sent 0) = Some (Some 5062%Z).
Proof.
  repeat split; vm_compute; reflexivity.
Qed.

(** ** SIP engine: an established dialog and its RTP ports *)

(** C4 on the code: after an INVITE and a 200 OK that both carry SDP the
    dialog is ESTABLISHED, its [fromRtpPort] is the port of the INVITE, and
    its [toRtpPort] is still [null]: the port of the 200 OK is never written
    to the dialog. *)
Lemma established_without_rtp_port :
  let st := Scenario.state_after (Scenario.answered "101") in
  let dialog := CallManager.getCall (Some "call-1") (SipServer.callManager st) in
  option_map CallManager.state dialog = Some CallManager.ESTABLISHED
  /\ option_map CallManager.toRtpPort dialog = Some None
  /\ option_map CallManager.fromRtpPort dialog = Some (Some 40000%Z).
Proof.
  repeat split; vm_compute; reflexivity.
Qed.

(** X30. The ports of an answered call are in the stream table: when the
    engine relays a 200 OK that carries an SDP body with an audio port (a
    number the code holds exactly), for a dialog that is not terminating and
    whose [fromRtpPort] is set, the dialog becomes ESTABLISHED, keeps its
    [fromRtpPort], and the relay holds both stream entries of the call: the
    caller's port from the dialog and the callee's port from the 200 OK. *)
Theorem established_installs_streams
    (cfg : Config) (env : SipServer.Env) (message : string) (rinfo : SipServer.Rinfo)
    (st : SipServer.State) (id : string) (call : CallManager.Call) (fromRtp toRtp : Z) :
  let parsed := Codec.parseSipMessage message in
  SipServer.header parsed "Call-ID" = Some id ->
  JsMap.get id (CallManager.activeCalls (SipServer.callManager st)) = Some call ->
  Js.includes "200 OK" (Codec.firstLine parsed) = true ->
  CallManager.terminating call = false ->
  SipServer.is_sdp_response parsed = true ->
  SipServer.rtpPortMatch (Codec.body parsed) = Some toRtp ->
  CallManager.fromRtpPort call = Some fromRtp ->
  fromRtp <> 0%Z ->
  (toRtp <= 2 ^ 53)%Z ->
  let st' := fst (SipServer.handleResponse cfg env message rinfo st) in
  (exists d,
      JsMap.get id (CallManager.activeCalls (SipServer.callManager st')) = Some d
      /\ CallManager.state d = CallManager.ESTABLISHED
      /\ CallManager.fromRtpPort d = Some fromRtp)
  /\ JsMap.get id (RtpProxy.activeStreams (SipServer.rtpProxy st'))
     = Some {| RtpProxy.fromAddress := CallManager.fromAddress call;
               RtpProxy.fromPort := fromRtp;
               RtpProxy.toAddress := SipServer.address rinfo;
               RtpProxy.toPort := toRtp |}
  /\ JsMap.get (RtpProxy.reverse_key id) (RtpProxy.activeStreams (SipServer.rtpProxy st'))
     = Some {| RtpProxy.fromAddress := SipServer.address rinfo;
               RtpProxy.fromPort := toRtp;
               RtpProxy.toAddress := CallManager.fromAddress call;
               RtpProxy.toPort := fromRtp |}.
Proof.
  intros parsed Hid Hcall H200 Hterm Hsdp Hport Hfrom Hnz Hexact st'.
  subst st'. unfold SipServer.handleResponse. fold parsed.
  rewrite Hid. cbn [CallManager.getCall]. rewrite Hcall, H200, Hterm, Hsdp, Hport, Hfrom.
  cbn [andb SipServer.truthy_num].
  replace (fromRtp =? 0)%Z with false by (symmetry; now apply Z.eqb_neq).
  cbn [negb]. unfold CallManager.updateCallState, CallManager.modify. rewrite Hcall.
  cbn [fst snd SipServer.with_rtp SipServer.with_calls SipServer.callManager
       SipServer.rtpProxy CallManager.with_calls CallManager.activeCalls].
  split; [|split].
  - eexists. split; [apply get_set_same|]. split; [reflexivity|exact Hfrom].
  - apply addStream_forward.
  - apply addStream_reverse.
Qed.

Lemma established_installs_streams_witness :
  let st := Scenario.state_after (Scenario.setup "101") in
  let st' := fst (SipServer.handleResponse default_config (Scenario.at_time 30)
                    (Scenario.answer "101") Scenario.callee_at st) in
  (exists d,
      JsMap.get "call-1" (CallManager.activeCalls (SipServer.callManager st')) = Some d
      /\ CallManager.state d = CallManager.ESTABLISHED
      /\ CallManager.fromRtpPort d = Some 40000%Z)
  /\ JsMap.get "call-1" (RtpProxy.activeStreams (SipServer.rtpProxy st'))
     = Some {| RtpProxy.fromAddress := "10.0.0.5"; RtpProxy.fromPort := 40000;
               RtpProxy.toAddress := "10.0.0.6"; RtpProxy.toPort := 41000 |}
  /\ JsMap.get (RtpProxy.reverse_key "call-1") (RtpProxy.activeStreams (SipServer.rtpProxy st'))
     = Some {| RtpProxy.fromAddress := "10.0.0.6"; RtpProxy.fromPort := 41000;
               RtpProxy.toAddress := "10.0.0.5"; RtpProxy.toPort := 40000 |}.
Proof.
  intros st.
  assert (JsMap.get "call-1" (CallManager.activeCalls (SipServer.callManager st)) <> None) as Hc
    by (vm_compute; discriminate).
  destruct (JsMap.get "call-1" (CallManager.activeCalls (SipServer.callManager st)))
    as [call|] eqn:Hcall; [clear Hc|congruence].
  assert (CallManager.fromAddress call = "10.0.0.5"
          /\ CallManager.terminating call = false
          /\ CallManager.fromRtpPort call = Some 40000%Z) as [Ha [Ht Hf]].
  { assert (Some call = JsMap.get "call-1" (CallManager.activeCalls (SipServer.callManager st)))
      as E by (symmetry; exact Hcall).
    vm_compute in E. injection E as ->. repeat split. }
  rewrite <- Ha.
  apply (established_installs_streams default_config (Scenario.at_time 30)
           (Scenario.answer "101") Scenario.callee_at st "call-1" call 40000 41000).
  - vm_compute; reflexivity.
  - exact Hcall.
  - vm_compute; reflexivity.
  - exact Ht.
  - vm_compute; reflexivity.
  - vm_compute; reflexivity.
  - exact Hf.
  - lia.
  - lia.
Defined.

(** ** SIP engine: INVITE to a busy callee *)

(** What [handleInvite] does with the [state] field: a valid INVITE between
    two registered extensions is answered with 486 Busy Here, and leaves the
    state as it was, when some active dialog mentions the callee's number
    and its [state] field is RINGING or ESTABLISHED; when there is no such
    dialog no datagram sent is a 486.  The [terminating] flag is not read. *)
Theorem invite_busy_callee
    (cfg : Config) (env : SipServer.Env) (message : string) (rinfo : SipServer.Rinfo)
    (st : SipServer.State) (toNumber fromNumber : string)
    (targetUser callingUser : UserManager.UserData) :
  let parsed := Codec.parseSipMessage message in
  let busy :=
    exists k call,
      In (k, call) (CallManager.activeCalls (SipServer.callManager st))
      /\ (CallManager.fromNumber call = toNumber \/ CallManager.toNumber call = toNumber)
      /\ (CallManager.state call = CallManager.RINGING
          \/ CallManager.state call = CallManager.ESTABLISHED) in
  SipValidator.valid (SipValidator.validateInviteRequest cfg parsed) = true ->
  Codec.extractNumber (show (SipServer.header parsed "To")) = Some toNumber ->
  Codec.extractNumber (show (SipServer.header parsed "From")) = Some fromNumber ->
  UserManager.getUser toNumber (SipServer.userManager st) = Some targetUser ->
  UserManager.getUser fromNumber (SipServer.userManager st) = Some callingUser ->
  (busy ->
     SipServer.handleInvite cfg env message rinfo st
     = (st, [SipServer.send
               (Codec.createSipResponse (Some "486") "Busy Here" (SipServer.echo parsed) "")
               (SipServer.port rinfo) (SipServer.address rinfo)]))
  /\ (~ busy ->
      CallManager.isNumberBusy toNumber (SipServer.callManager st) = false
      /\ Forall (fun d => Js.startsWith "SIP/2.0 486" (SipServer.payload d) = false)
                (snd (SipServer.handleInvite cfg env message rinfo st))).
Proof.
  intros parsed busy Hvalid Hto Hfrom Htarget Hcaller.
  unfold SipServer.handleInvite. fold parsed.
  rewrite Hvalid, Hto, Hfrom, Htarget, Hcaller. cbn [negb].
  split.
  - intros Hbusy. apply isNumberBusy_iff in Hbusy. now rewrite Hbusy.
  - intros Hfree.
    assert (CallManager.isNumberBusy toNumber (SipServer.callManager st) = false) as Hb.
    { destruct (CallManager.isNumberBusy toNumber (SipServer.callManager st)) eqn:E; auto.
      exfalso. apply Hfree. now apply isNumberBusy_iff. }
    split; [exact Hb|]. rewrite Hb.
    destruct (CallManager.createCall _ _ _ _ _ _ _ _) as [c0 cm0].
    destruct (CallManager.setTarget _ _ _ _) as [b1 cm1].
    destruct (CallManager.updateCallState _ _ _ _) as [b2 cm2].
    cbn [snd]. repeat constructor.
Qed.

Lemma invite_busy_callee_witness :
  let st := Scenario.state_after (Scenario.answered "101") in
  let message := Scenario.invite "101" in
  let parsed := Codec.parseSipMessage message in
  SipServer.handleInvite default_config (Scenario.at_time 40) message Scenario.caller st
  = (st, [SipServer.send
            (Codec.createSipResponse (Some "486") "Busy Here" (SipServer.echo parsed) "")
            5061 "10.0.0.5"]).
Proof.
  intros st message parsed.
  assert (exists u, UserManager.getUser "101" (SipServer.userManager st) = Some u) as [u Hu]
    by (eexists; vm_compute; reflexivity).
  assert (exists u, UserManager.getUser "100" (SipServer.userManager st) = Some u) as [v Hv]
    by (eexists; vm_compute; reflexivity).
  assert (exists call,
             JsMap.get "call-1" (CallManager.activeCalls (SipServer.callManager st)) = Some call
             /\ CallManager.toNumber call = "101"
             /\ CallManager.state call = CallManager.ESTABLISHED) as [call [Hc [Hn Hs]]]
    by (eexists; vm_compute; repeat split).
  apply (proj1 (invite_busy_callee default_config (Scenario.at_time 40) message
                  Scenario.caller st "101" "100" u v
                  ltac:(vm_compute; reflexivity) ltac:(vm_compute; reflexivity)
                  ltac:(vm_compute; reflexivity) Hu Hv)).
  exists "call-1", call. split; [now apply get_In|]. split; [now right|now right].
Defined.

(** C9 on the code: 100 calls 101, 101 answers and hangs up.  The only
    active dialog is then marked terminating by [handleBye], its [state]
    field still ESTABLISHED, and a valid INVITE from the registered 102 to
    the registered 101 is answered with one datagram, 486 Busy Here to 102,
    and creates no dialog.  The periodic [cleanup] does not free the number
    either. *)
Lemma invite_after_bye_is_refused :
  let st := Scenario.state_after Scenario.hung_up in
  let parsed := Codec.parseSipMessage Scenario.invite_by_third in
  let r := SipServer.handleInvite default_config (Scenario.at_time 50)
             Scenario.invite_by_third Scenario.third st in
  map (fun kv => (fst kv, CallManager.state (snd kv), CallManager.terminating (snd kv)))
      (CallManager.activeCalls (SipServer.callManager st))
  = [("call-1", CallManager.ESTABLISHED, true)]
  /\ SipValidator.valid (SipValidator.validateInviteRequest default_config parsed) = true
  /\ option_map UserManager.address (UserManager.getUser "102" (SipServer.userManager st))
     = Some "10.0.0.7"
  /\ option_map UserManager.address (UserManager.getUser "101" (SipServer.userManager st))
     = Some "10.0.0.6"
  /\ map (fun d => (Js.startsWith "SIP/2.0 486 Busy Here" (SipServer.payload d),
                    SipServer.dport d, SipServer.daddress d)) (snd r)
     = [(true, Some 5063%Z, Some "10.0.0.7")]
  /\ JsMap.keys (CallManager.activeCalls (SipServer.callManager (fst r))) = ["call-1"]
  /\ CallManager.isNumberBusy "101"
       (CallManager.cleanup default_config 100000000 (SipServer.callManager st)) = true.
Proof.
  repeat split; vm_compute; reflexivity.
Qed.

(** ** Message codec: lines *)

Section LineFacts.
Import Js.

Lemma split_crlf_nonempty s : split_crlf s <> [].
Proof.
  induction s as [|c s IH]; simpl; [discriminate|].
  destruct s as [|d s']; [destruct (split_crlf ""); discriminate|].
  destruct (Ascii.eqb c CR && Ascii.eqb d LF); [discriminate|].
  destruct (split_crlf (String d s')); discriminate.
Qed.

(** One step of [split_crlf] on a character that does not start a separator. *)
Lemma split_crlf_cons c s :
  (Ascii.eqb c CR && match s with String d _ => Ascii.eqb d LF | "" => false end) = false ->
  split_crlf (String c s)
  = String c (hd "" (split_crlf s)) :: tl (split_crlf s).
Proof.
  intros H. simpl. pose proof (split_crlf_nonempty s) as Hne.
  destruct s as [|d s'].
  - simpl. reflexivity.
  - rewrite H. destruct (split_crlf (String d s')); [congruence|reflexivity].
Qed.

Lemma split_crlf_sep s : split_crlf (CRLF ++ s) = "" :: split_crlf s.
Proof. reflexivity. Qed.

(** Splitting distributes over a separator. *)
Lemma split_crlf_app a b :
  split_crlf (a ++ CRLF ++ b) = (split_crlf a ++ split_crlf b)%list.
Proof.
  remember (String.length a) as n eqn:Hn. revert a Hn.
  induction n as [n IH] using lt_wf_ind. intros a Hn.
  destruct a as [|c a]; [reflexivity|].
  destruct (Ascii.eqb c CR && match a with String d _ => Ascii.eqb d LF | "" => false end) eqn:E.
  - destruct a as [|d a]; [now rewrite andb_false_r in E|].
    apply andb_true_iff in E as [Ec Ed].
    apply Ascii.eqb_eq in Ec, Ed. subst c d.
    change (String CR (String LF a)) with (CRLF ++ a).
    rewrite append_assoc, !split_crlf_sep. simpl app. f_equal.
    apply (IH (String.length a)); [simpl in Hn; lia|reflexivity].
  - rewrite (split_crlf_cons c a E).
    change (String c a ++ CRLF ++ b) with (String c (a ++ CRLF ++ b)).
    rewrite split_crlf_cons.
    + rewrite (IH (String.length a)) by (simpl in Hn; lia || reflexivity).
      pose proof (split_crlf_nonempty a) as Hne.
      destruct (split_crlf a); [congruence|reflexivity].
    + destruct a as [|d a]; simpl; [|exact E].
      destruct (Ascii.eqb c CR) eqn:Ec; auto.
Qed.

(** A text without separator is one line. *)
Lemma split_crlf_line s : includes CRLF s = false -> split_crlf s = [s].
Proof.
  induction s as [|c s IH]; [reflexivity|].
  intros H. simpl in H. apply orb_false_iff in H as [Hp Hi].
  rewrite split_crlf_cons.
  - rewrite IH by exact Hi. reflexivity.
  - destruct s as [|d s']; [apply andb_false_r|].
    destruct (Ascii.eqb_spec c CR) as [->|]; [|reflexivity].
    destruct (Ascii.eqb_spec d LF) as [->|]; [|reflexivity].
    simpl in Hp. discriminate.
Qed.

End LineFacts.

(** ** Message codec: header lines without a colon *)

Section ParseFacts.
Import Js Codec Wire.

Lemma parse_lines_headers lines rest hs bd :
  Forall (fun l => l <> "") lines ->
  parse_lines (lines ++ rest)%list hs bd false
  = parse_lines rest (read_headers lines hs) bd false.
Proof.
  intros H. revert hs. induction H as [|l lines Hl _ IH]; intros hs; [reflexivity|].
  simpl. destruct (String.eqb_spec l ""); [contradiction|].
  destruct (indexOf ":" l); apply IH.
Qed.

Lemma read_headers_skip lines bad rest hs :
  indexOf ":" bad = None ->
  read_headers (lines ++ bad :: rest)%list hs = read_headers (lines ++ rest)%list hs.
Proof.
  intros Hbad. revert hs. induction lines as [|l lines IH]; intros hs; simpl.
  - now rewrite Hbad.
  - destruct (indexOf ":" l); apply IH.
Qed.

End ParseFacts.

(** C8, as stated, fails: the second line of this datagram has no colon, and
    the parser returns a message in which the line is simply absent. *)
Lemma colonless_header_is_dropped :
  let message :=
    "REGISTER sip:192.168.0.42 SIP/2.0" ++ Js.CRLF ++ "this line has no colon" ++ Js.CRLF
    ++ "To: <sip:100@192.168.0.42>" ++ Js.CRLF ++ Js.CRLF in
  Wire.colonless_header message = true
  /\ Codec.parseSipMessage message
     = {| Codec.firstLine := "REGISTER sip:192.168.0.42 SIP/2.0";
          Codec.headers := [("To", "<sip:100@192.168.0.42>")];
          Codec.body := "" |}.
Proof.
  split; vm_compute; reflexivity.
Qed.

(** C8, amended: the parser has no failure; a header line that lacks a colon
    is skipped, so a datagram parses to the same message as the datagram
    without that line. *)
Theorem colonless_header_is_skipped (pre bad post : string) :
  Wire.header_open pre ->
  bad <> "" ->
  Js.includes Js.CRLF bad = false ->
  Js.indexOf ":" bad = None ->
  Codec.parseSipMessage (pre ++ Js.CRLF ++ bad ++ Js.CRLF ++ post)
  = Codec.parseSipMessage (pre ++ Js.CRLF ++ post).
Proof.
  intros Hopen Hne Hline Hbad. unfold Codec.parseSipMessage.
  rewrite !split_crlf_app, (split_crlf_line bad Hline).
  pose proof (split_crlf_nonempty pre) as Hpre. unfold Wire.header_open in Hopen.
  destruct (Js.split_crlf pre) as [|first lines]; [congruence|].
  cbn [app tl hd] in *.
  rewrite !parse_lines_headers by exact Hopen.
  cbn [Codec.parse_lines]. destruct (String.eqb_spec bad ""); [contradiction|].
  now rewrite Hbad.
Qed.

Lemma colonless_header_is_skipped_witness :
  Codec.parseSipMessage
    ("REGISTER sip:192.168.0.42 SIP/2.0" ++ Js.CRLF ++ "this line has no colon" ++ Js.CRLF
     ++ "To: <sip:100@192.168.0.42>" ++ Js.CRLF ++ Js.CRLF)
  = Codec.parseSipMessage
      ("REGISTER sip:192.168.0.42 SIP/2.0" ++ Js.CRLF
       ++ "To: <sip:100@192.168.0.42>" ++ Js.CRLF ++ Js.CRLF).
Proof.
  apply (colonless_header_is_skipped "REGISTER sip:192.168.0.42 SIP/2.0"
           "this line has no colon" ("To: <sip:100@192.168.0.42>" ++ Js.CRLF ++ Js.CRLF)).
  - constructor.
  - discriminate.
  - reflexivity.
  - reflexivity.
Defined.

(** ** Message codec: what survives a round trip *)

Section TrimFacts.
Import Js Wire.

Lemma length_trimEnd s : String.length (trimEnd s) <= String.length s.
Proof.
  induction s as [|c s IH]; simpl; auto.
  destruct (trimEnd s); [destruct (is_space c)|]; simpl in *; lia.
Qed.

Lemma length_trimStart s : String.length (trimStart s) <= String.length s.
Proof.
  induction s as [|c s IH]; simpl; auto.
  destruct (is_space c); simpl; lia.
Qed.

Lemma trimEnd_spaces w : all_chars is_space w = true -> trimEnd w = "".
Proof.
  induction w as [|c w IH]; simpl; auto.
  intros H. apply andb_true_iff in H as [Hc Hw]. now rewrite IH, Hc.
Qed.

Lemma trimEnd_app_spaces s w : all_chars is_space w = true -> trimEnd (s ++ w) = trimEnd s.
Proof.
  intros Hw. induction s as [|c s IH]; simpl.
  - now apply trimEnd_spaces.
  - now rewrite IH.
Qed.

(** A trimmed, non-empty text starts with a character that is no space. *)
Lemma trimmed_head s : trim s = s -> s <> "" ->
  exists c r, s = String c r /\ is_space c = false.
Proof.
  intros Ht Hne. destruct s as [|c r]; [congruence|].
  exists c, r. split; auto. destruct (is_space c) eqn:E; auto.
  exfalso. unfold trim in Ht. simpl in Ht. rewrite E in Ht.
  pose proof (length_trimEnd (trimStart r)). pose proof (length_trimStart r).
  rewrite Ht in H. simpl in H. lia.
Qed.

Lemma trim_app_spaces s w :
  trim s = s -> s <> "" -> all_chars is_space w = true -> trim (s ++ w) = s.
Proof.
  intros Ht Hne Hw. destruct (trimmed_head s Ht Hne) as [c [r [-> Hc]]].
  unfold trim in *. simpl in *. rewrite Hc in *.
  change (String c (r ++ w)) with (String c r ++ w).
  now rewrite trimEnd_app_spaces.
Qed.

Lemma trim_no_space s : all_chars (fun c => negb (is_space c)) s = true -> trim s = s.
Proof.
  intros H. unfold trim.
  assert (trimStart s = s) as ->.
  { destruct s as [|c r]; auto. simpl in *. apply andb_true_iff in H as [Hc _].
    now destruct (is_space c). }
  induction s as [|c r IH]; auto. simpl in *. apply andb_true_iff in H as [Hc Hr].
  rewrite IH by exact Hr. destruct r; [|reflexivity]. now destruct (is_space c).
Qed.

Lemma all_chars_app p a b : all_chars p (a ++ b) = all_chars p a && all_chars p b.
Proof. induction a as [|c a IH]; simpl; auto. now rewrite IH, andb_assoc. Qed.

Lemma all_chars_impl (p q : ascii -> bool) s :
  (forall c, p c = true -> q c = true) -> all_chars p s = true -> all_chars q s = true.
Proof.
  intros Hpq. induction s as [|c s IH]; simpl; auto.
  intros H. apply andb_true_iff in H as [Hc Hs]. now rewrite Hpq, IH.
Qed.

Lemma no_cr_no_crlf s :
  all_chars (fun c => negb (Ascii.eqb c CR)) s = true -> includes CRLF s = false.
Proof.
  induction s as [|c s IH]; [reflexivity|].
  cbn [all_chars includes]. intros H. apply andb_true_iff in H as [Hc Hs].
  rewrite IH by exact Hs. rewrite orb_false_r.
  apply negb_true_iff, Ascii.eqb_neq in Hc.
  unfold CRLF. cbn [startsWith].
  destruct (Ascii.eqb_spec CR c); [congruence|reflexivity].
Qed.

Lemma digits_of_uint d : all_chars is_digit (NilEmpty.string_of_uint d) = true.
Proof. induction d; simpl; auto. Qed.

Lemma digits_of_nat n : all_chars is_digit (num_to_string (Z.of_nat n)) = true.
Proof.
  unfold num_to_string. destruct (Z.of_nat n) eqn:E; try apply digits_of_uint. lia.
Qed.

Lemma digit_no_space c : is_digit c = true -> negb (is_space c) = true.
Proof.
  unfold is_digit, is_space. intros H. apply andb_true_iff in H as [H1 H2].
  apply Nat.leb_le in H1, H2. apply negb_true_iff.
  repeat rewrite orb_false_iff. repeat split.
  - apply andb_false_iff. right. apply Nat.leb_gt. lia.
  - apply Nat.eqb_neq. lia.
  - apply Nat.eqb_neq. lia.
Qed.

Lemma digit_no_cr c : is_digit c = true -> negb (Ascii.eqb c CR) = true.
Proof.
  intros H. apply negb_true_iff. apply Ascii.eqb_neq. intros ->. discriminate H.
Qed.

End TrimFacts.

Section RoundTripFacts.
Import Js Codec Wire.

Lemma take_app_length a b : take (String.length a) (a ++ b) = a.
Proof. induction a as [|c a IH]; simpl; [now destruct b|now rewrite IH]. Qed.

Lemma drop_app_length a b : drop (String.length a) (a ++ b) = b.
Proof. induction a as [|c a IH]; simpl; auto. Qed.

Lemma drop_app_succ a c b : drop (String.length a + 1) (a ++ String c b) = b.
Proof. induction a as [|d a IH]; simpl; auto. Qed.

Lemma indexOf_app c a b :
  indexOf c a = None -> indexOf c (a ++ String c b) = Some (String.length a).
Proof.
  induction a as [|d a IH]; simpl; intros H.
  - now rewrite Ascii.eqb_refl.
  - destruct (Ascii.eqb d c); [discriminate|].
    destruct (indexOf c a); [discriminate|]. now rewrite IH.
Qed.

Lemma concat_cons x l : String.concat "" (x :: l) = x ++ String.concat "" l.
Proof. destruct l; simpl; [now rewrite append_nil_r|reflexivity]. Qed.

Lemma concat_app l1 l2 :
  String.concat "" (l1 ++ l2)%list = String.concat "" l1 ++ String.concat "" l2.
Proof.
  induction l1 as [|x l1 IH]; [reflexivity|].
  change ((x :: l1) ++ l2)%list with (x :: (l1 ++ l2))%list.
  now rewrite !concat_cons, IH, append_assoc.
Qed.

(** The lines of a run of serialized headers followed by more text. *)
Lemma split_header_lines hs rest :
  Forall plain_header hs ->
  split_crlf (String.concat "" (map header_line (defined hs)) ++ CRLF ++ rest)
  = (map header_text hs ++ "" :: split_crlf rest)%list.
Proof.
  intros H. induction H as [|kv hs Hkv _ IH]; [reflexivity|].
  cbn [defined map]. fold (defined hs). rewrite concat_cons.
  unfold header_line at 1. cbn [fst snd show].
  destruct Hkv as (_ & _ & _ & _ & _ & Hline). unfold header_text at 1.
  rewrite !append_assoc.
  replace (fst kv ++ ": " ++ snd kv ++ CRLF
           ++ String.concat "" (map header_line (defined hs)) ++ CRLF ++ rest)
    with ((fst kv ++ ": " ++ snd kv) ++ CRLF
          ++ String.concat "" (map header_line (defined hs)) ++ CRLF ++ rest)
    by now rewrite !append_assoc.
  rewrite split_crlf_app, (split_crlf_line _ Hline), IH. reflexivity.
Qed.

Lemma set_fresh {V} k (v : V) o :
  k <> "__proto__" -> JsObj.array_index k = None -> ~ In k (map fst o) ->
  JsObj.set k v o = (o ++ [(k, v)])%list.
Proof.
  intros Hp Hi Hfresh. unfold JsObj.set.
  destruct (String.eqb_spec k "__proto__"); [contradiction|]. rewrite Hi.
  induction o as [|[k' v'] o IH]; [reflexivity|]. simpl in *.
  destruct (String.eqb_spec k' k); [tauto|]. rewrite IH; tauto.
Qed.

Lemma header_text_nonempty kv : header_text kv <> "".
Proof.
  unfold header_text. intros H. apply (f_equal String.length) in H.
  rewrite length_append in H. simpl in H. lia.
Qed.

(** Reading back the lines of plain headers with distinct names appends them. *)
Lemma read_plain_headers hs acc :
  Forall plain_header hs ->
  NoDup (map fst (acc ++ hs)%list) ->
  read_headers (map header_text hs) acc = (acc ++ hs)%list.
Proof.
  intros H. revert acc. induction H as [|[k v] hs Hkv _ IH]; intros acc Hnd.
  - now rewrite app_nil_r.
  - destruct Hkv as (Hk & Hcolon & Hidx & Hproto & Hv & _). cbn [fst snd] in *.
    cbn [map read_headers].
    change (header_text (k, v)) with (k ++ String ":" (" " ++ v)).
    rewrite (indexOf_app ":" k _ Hcolon).
    unfold substring, substring_from. rewrite Nat.sub_0_r. cbn [drop].
    rewrite take_app_length, Hk, drop_app_succ.
    change (trim (" " ++ v)) with (trim v). rewrite Hv.
    rewrite set_fresh; auto.
    + rewrite IH; [now rewrite <- app_assoc|].
      rewrite <- app_assoc. exact Hnd.
    + rewrite map_app in Hnd. apply NoDup_remove_2 in Hnd.
      intros Hin. apply Hnd. apply in_or_app. now left.
Qed.

(** In the body every non-empty line is appended with its separator. *)
Lemma parse_body_lines lines hs bd :
  Forall (fun l => l <> "") lines ->
  parse_lines lines hs bd true
  = (hs, bd ++ String.concat "" (map (fun l => l ++ CRLF) lines)).
Proof.
  intros H. revert bd. induction H as [|l lines Hl _ IH]; intros bd.
  - simpl. now rewrite append_nil_r.
  - cbn [parse_lines]. destruct (String.eqb_spec l ""); [contradiction|].
    rewrite IH. cbn [map]. now rewrite concat_cons, !append_assoc.
Qed.

Lemma unsplit_crlf s :
  String.concat "" (map (fun l => l ++ CRLF) (split_crlf s)) = s ++ CRLF.
Proof.
  remember (String.length s) as n eqn:Hn. revert s Hn.
  induction n as [n IH] using lt_wf_ind. intros s Hn.
  destruct s as [|c s]; [reflexivity|].
  destruct (Ascii.eqb c CR && match s with String d _ => Ascii.eqb d LF | "" => false end) eqn:E.
  - destruct s as [|d s]; [now rewrite andb_false_r in E|].
    apply andb_true_iff in E as [Ec Ed]. apply Ascii.eqb_eq in Ec, Ed. subst c d.
    change (String CR (String LF s)) with (CRLF ++ s).
    rewrite split_crlf_sep. cbn [map]. rewrite concat_cons.
    rewrite (IH (String.length s)); [|simpl in Hn; lia|reflexivity].
    reflexivity.
  - rewrite (split_crlf_cons c s E).
    pose proof (IH (String.length s) ltac:(simpl in Hn; lia) s eq_refl) as Hs.
    pose proof (split_crlf_nonempty s) as Hne.
    destruct (split_crlf s) as [|l ls]; [congruence|].
    cbn [hd tl map] in *. rewrite concat_cons in *.
    change ((String c l ++ CRLF) ++ String.concat "" (map (fun l0 => l0 ++ CRLF) ls))
      with (String c ((l ++ CRLF) ++ String.concat "" (map (fun l0 => l0 ++ CRLF) ls))).
    now rewrite Hs.
Qed.

End RoundTripFacts.

(** C7, as stated, fails: with a body the parsed headers hold a
    [Content-Length] the header map did not, and the empty line inside the
    body is gone. *)
Lemma round_trip_changes_message :
  let hs := [("Call-ID", "abc")] in
  let bd := "v=0" ++ Js.CRLF ++ Js.CRLF ++ "s=call" in
  let m := Codec.parseSipMessage
             (Codec.createSipResponse (Some "200") "OK" (Wire.defined hs) bd) in
  Codec.firstLine m = "SIP/2.0 200 OK"
  /\ Codec.headers m = [("Call-ID", "abc"); ("Content-Length", "13")]
  /\ Codec.headers m <> hs
  /\ Codec.body m = "v=0" ++ Js.CRLF ++ "s=call"
  /\ Codec.body m <> bd.
Proof.
  repeat split; try (vm_compute; reflexivity); vm_compute; discriminate.
Qed.

(** C7, amended: for a status line without line break, plain headers with
    distinct names and a body that is empty or plain, parsing the serialized
    response returns the same first line and body, and the same headers
    followed, when there is a body, by the [Content-Length] the serializer
    adds. *)
Theorem codec_round_trip (code text : string) (hs : list (string * string)) (bd : string) :
  Js.includes Js.CRLF ("SIP/2.0 " ++ code ++ " " ++ text) = false ->
  Forall Wire.plain_header hs ->
  NoDup (map fst hs) ->
  bd = "" \/ (Wire.plain_body bd /\ ~ In "Content-Length" (map fst hs)) ->
  Codec.parseSipMessage (Codec.createSipResponse (Some code) text (Wire.defined hs) bd)
  = {| Codec.firstLine := "SIP/2.0 " ++ code ++ " " ++ text;
       Codec.headers :=
         (hs ++ if bd =? "" then []
                else [("Content-Length", Js.num_to_string (Z.of_nat (String.length bd)))])%list;
       Codec.body := bd |}.
Proof.
  intros Hstatus Hplain Hnd Hbody.
  set (extra := if bd =? "" then []
                else [("Content-Length", Js.num_to_string (Z.of_nat (String.length bd)))]).
  assert (Codec.createSipResponse (Some code) text (Wire.defined hs) bd
          = ("SIP/2.0 " ++ code ++ " " ++ text) ++ Js.CRLF
            ++ String.concat "" (map Codec.header_line (Wire.defined (hs ++ extra)%list))
            ++ Js.CRLF ++ bd) as ->.
  { unfold Codec.createSipResponse, JsObj.entries, Wire.defined. cbn [show].
    rewrite map_app, map_app, concat_app. subst extra.
    destruct (bd =? ""); unfold Codec.header_line; cbn [map fst snd show String.concat];
      rewrite ?append_nil_r, !append_assoc; reflexivity. }
  assert (Forall Wire.plain_header (hs ++ extra)%list) as Hplain'.
  { apply Forall_app. split; [exact Hplain|]. subst extra.
    destruct (bd =? ""); constructor; [|constructor].
    pose proof (digits_of_nat (String.length bd)) as Hd.
    unfold Wire.plain_header. cbn [fst snd]. repeat split; try reflexivity; try discriminate.
    - apply trim_no_space. eapply all_chars_impl; [apply digit_no_space|exact Hd].
    - apply no_cr_no_crlf. unfold Wire.header_text.
      change ("Content-Length" ++ ": " ++ ?x) with ("Content-Length: " ++ x).
      rewrite all_chars_app. apply andb_true_iff. split; [reflexivity|].
      eapply all_chars_impl; [apply digit_no_cr|exact Hd]. }
  assert (NoDup (map fst (hs ++ extra)%list)) as Hnd'.
  { subst extra. destruct (String.eqb_spec bd "") as [->|Hne]; [now rewrite app_nil_r|].
    destruct Hbody as [->|[_ Hcl]]; [congruence|].
    rewrite map_app. apply NoDup_app; [exact Hnd|repeat constructor; intros []|].
    intros k Hk [<-|[]]. contradiction. }
  unfold Codec.parseSipMessage.
  rewrite split_crlf_app, (split_crlf_line _ Hstatus), (split_header_lines _ _ Hplain').
  cbn [app hd tl].
  rewrite parse_lines_headers
    by (apply Forall_forall; intros l Hl; apply in_map_iff in Hl as [kv [<- _]];
        apply header_text_nonempty).
  rewrite (read_plain_headers _ [] Hplain' Hnd'). cbn [app Codec.parse_lines String.eqb].
  destruct Hbody as [->|[[Htrim Hlines] _]].
  - reflexivity.
  - rewrite (parse_body_lines _ _ _ Hlines), unsplit_crlf. cbn [String.append].
    destruct (String.eqb_spec bd "") as [->|Hne]; [reflexivity|].
    now rewrite (trim_app_spaces bd Js.CRLF Htrim Hne eq_refl).
Qed.

Lemma codec_round_trip_witness :
  let hs := [("Via", "SIP/2.0/UDP 10.0.0.5:5061"); ("Call-ID", "abc")] in
  let bd := "v=0" ++ Js.CRLF ++ "s=call" in
  Codec.parseSipMessage (Codec.createSipResponse (Some "200") "OK" (Wire.defined hs) bd)
  = {| Codec.firstLine := "SIP/2.0 200 OK";
       Codec.headers := (hs ++ [("Content-Length", "11")])%list;
       Codec.body := bd |}.
Proof.
  intros hs bd.
  apply (codec_round_trip "200" "OK" hs bd).
  - reflexivity.
  - repeat constructor; discriminate.
  - repeat constructor; simpl; intuition discriminate.
  - right. split; [split; [reflexivity|repeat constructor; discriminate]|].
    simpl. intuition discriminate.
Defined.

(** ** Validator: the port of a SIP URI *)

(** C10 on the code: the URI [sip:100@192.168.0.42;tag=a:99] has a host, one
    parameter and no port.  The pattern takes everything up to the colon for
    the domain and the digits after it for the port, so the result carries
    the port [99] and not [5060]. *)
Theorem parameter_colon_read_as_port :
  SipValidator.validateSipUri default_config (Some "sip:100@192.168.0.42;tag=a:99")
  = SipValidator.UriValid "100" "192.168.0.42;tag=a" "99".
Proof. vm_compute. reflexivity. Qed.

(** ** Regular expressions: what the matcher does on the patterns in use *)

Section MatcherFacts.
Import Js Regex Scan.
Context {A : Type}.
Implicit Types (k : @cont A) (c : caps) (s : string).

Lemma rmatch_Lit l s c k :
  rmatch (Lit l) s c k = if startsWith l s then k (drop (String.length l) s) c else None.
Proof.
  revert s. induction l as [|a l IH]; intros s; [reflexivity|].
  cbn [Lit rmatch startsWith String.length drop]. destruct s as [|b s]; [reflexivity|].
  rewrite (Ascii.eqb_sym b a). destruct (Ascii.eqb a b); [apply IH|reflexivity].
Qed.

Lemma star_loop_cls p k n s c :
  String.length s <= n ->
  star_loop (rmatch (Cls p)) k n s c = greedy p (fun t => k t c) s.
Proof.
  revert s. induction n as [|n IH]; intros s Hn.
  - destruct s; [reflexivity|simpl in Hn; lia].
  - cbn [star_loop rmatch]. destruct s as [|b x]; [reflexivity|].
    cbn [greedy]. destruct (p b); [|reflexivity].
    replace (String.length x <? String.length (String b x))%nat with true
      by (symmetry; apply Nat.ltb_lt; simpl; lia).
    rewrite IH by (simpl in Hn; lia). reflexivity.
Qed.

Lemma rmatch_Plus_cls p s c k :
  rmatch (Plus (Cls p)) s c k
  = match s with
    | String b x => if p b then greedy p (fun t => k t c) x else None
    | "" => None
    end.
Proof.
  unfold Plus. cbn [rmatch]. destruct s as [|b x]; [reflexivity|].
  destruct (p b); [|reflexivity]. now apply star_loop_cls.
Qed.

Lemma rmatch_Star_cls p s c k :
  rmatch (Star (Cls p)) s c k = greedy p (fun t => k t c) s.
Proof. cbn [rmatch]. now apply star_loop_cls. Qed.

(** A continuation that fails on every character of the class commits the
    run to its longest form. *)
Lemma greedy_commit p (k : string -> option A) s :
  (forall b t, p b = true -> k (String b t) = None) ->
  greedy p k s = k (skip p s).
Proof.
  intros Hk. induction s as [|b x IH]; [reflexivity|].
  cbn [greedy skip]. destruct (p b) eqn:E; [|reflexivity].
  rewrite IH. destruct (k (skip p x)); [reflexivity|]. now apply Hk.
Qed.

Lemma greedy_some p (k : string -> option A) s :
  (forall t, k t <> None) -> greedy p k s = k (skip p s).
Proof.
  intros Hk. induction s as [|b x IH]; [reflexivity|].
  cbn [greedy skip]. destruct (p b) eqn:E; [|reflexivity].
  rewrite IH. destruct (k (skip p x)) eqn:E2; [reflexivity|]. now apply Hk in E2.
Qed.

End MatcherFacts.

Section ScanFacts.
Import Js Wire Scan.

Lemma span_skip p s : span p s ++ skip p s = s.
Proof. induction s as [|b x IH]; simpl; auto. destruct (p b); simpl; congruence. Qed.

Lemma length_skip p s : String.length (skip p s) <= String.length s.
Proof. induction s as [|b x IH]; simpl; auto. destruct (p b); simpl; lia. Qed.

Lemma all_chars_span p s : all_chars p (span p s) = true.
Proof. induction s as [|b x IH]; simpl; auto. destruct (p b) eqn:E; simpl; auto. now rewrite E. Qed.

Lemma skip_head p s : match skip p s with String b _ => p b = false | "" => True end.
Proof. induction s as [|b x IH]; simpl; auto. destruct (p b) eqn:E; auto. Qed.

Lemma skip_app_all p a s : all_chars p a = true -> skip p (a ++ s) = skip p s.
Proof.
  induction a as [|b a IH]; simpl; auto. intros H. apply andb_true_iff in H as [Hb Ha].
  now rewrite Hb, IH.
Qed.

Lemma span_app_all p a s : all_chars p a = true -> span p (a ++ s) = a ++ span p s.
Proof.
  induction a as [|b a IH]; simpl; auto. intros H. apply andb_true_iff in H as [Hb Ha].
  now rewrite Hb, IH.
Qed.

Lemma skip_stop p s : match s with String b _ => p b = false | "" => True end -> skip p s = s.
Proof. destruct s as [|b x]; simpl; auto. now intros ->. Qed.

Lemma span_stop p s : match s with String b _ => p b = false | "" => True end -> span p s = "".
Proof. destruct s as [|b x]; simpl; auto. now intros ->. Qed.

Lemma eol_skip_nn s : eol (skip nn s) = true.
Proof.
  pose proof (skip_head nn s) as H. destruct (skip nn s); [reflexivity|].
  unfold nn in H. apply negb_false_iff in H. exact H.
Qed.

Lemma eol_stop t : eol t = true -> match t with String b _ => nn b = false | "" => True end.
Proof. destruct t; simpl; auto. unfold nn. now intros ->. Qed.

End ScanFacts.

(** ** SDP rewriter: the patterns at the start of a text *)

Section PatternFacts.
Import Js Regex Wire Scan RtpProxy.

Lemma startsWith_app l s : startsWith l s = true -> s = l ++ drop (String.length l) s.
Proof.
  revert s. induction l as [|a l IH]; intros s H; [reflexivity|].
  destruct s as [|b s]; [discriminate|]. simpl in H. apply andb_true_iff in H as [Hab Hl].
  apply Ascii.eqb_eq in Hab. subst b. simpl. f_equal. now apply IH.
Qed.

Lemma startsWith_app_same l s : startsWith l (l ++ s) = true.
Proof. induction l as [|a l IH]; simpl; auto. now rewrite Ascii.eqb_refl. Qed.

Lemma lit_then_inv l p s r :
  lit_then l p s = Some r ->
  exists b x, s = l ++ String b x /\ p b = true /\ r = skip p x.
Proof.
  unfold lit_then. destruct (startsWith l s) eqn:E; [|discriminate].
  apply startsWith_app in E. destruct (drop (String.length l) s) as [|b x]; [discriminate|].
  destruct (p b) eqn:Hb; [|discriminate]. intros [= <-]. now exists b, x.
Qed.

Lemma lit_then_app l p b x :
  p b = true -> lit_then l p (l ++ String b x) = Some (skip p x).
Proof.
  intros Hb. unfold lit_then. now rewrite startsWith_app_same, drop_app_length, Hb.
Qed.

Lemma exec_lit_then l p s :
  exec (Lit l >> Plus (Cls p))%re s = option_map (fun r => (r, [])) (lit_then l p s).
Proof.
  unfold exec, lit_then. cbn [rmatch]. rewrite rmatch_Lit.
  destruct (startsWith l s); [|reflexivity]. rewrite rmatch_Plus_cls.
  destruct (drop (String.length l) s) as [|b x]; [reflexivity|].
  destruct (p b); [|reflexivity]. now rewrite greedy_some by discriminate.
Qed.

Lemma exec_connection s :
  exec connectionPattern s = option_map (fun r => (r, [])) (c_match s).
Proof. apply exec_lit_then. Qed.

Lemma exec_address s :
  exec addressPattern s = option_map (fun r => (r, [])) (a_match s).
Proof. apply exec_lit_then. Qed.

Lemma exec_audio s :
  exec audioPattern s = option_map (fun r => (r, [])) (m_match s).
Proof. apply exec_lit_then. Qed.

Lemma ns_not_space b : ns b = true -> Ascii.eqb b " " = false.
Proof.
  unfold ns. intros H. apply negb_true_iff in H.
  destruct (Ascii.eqb_spec b " ") as [->|]; [discriminate H|reflexivity].
Qed.

(** A run without white space before a space. *)
Lemma rmatch_token {A} (r : regex) s c (k : @cont A) :
  rmatch (Plus non_space >> Chr " " >> r)%re s c k
  = match token s with
    | Some t => rmatch r t c k
    | None => None
    end.
Proof.
  cbn [rmatch]. unfold non_space. rewrite rmatch_Plus_cls. unfold token.
  destruct s as [|b x]; [reflexivity|]. fold ns. change (negb (is_space b)) with (ns b).
  destruct (ns b); [|reflexivity].
  rewrite greedy_commit.
  - cbn [rmatch]. destruct (skip _ x) as [|d t]; [reflexivity|].
    now destruct (Ascii.eqb d " ").
  - intros d t Hd. cbn [rmatch]. now rewrite (ns_not_space d Hd).
Qed.

Lemma exec_origin s :
  exec originPattern s = option_map (fun r => (r, [])) (o_match s).
Proof.
  unfold exec, originPattern, o_match. cbn [rmatch]. rewrite rmatch_Lit.
  destruct (startsWith "o=" s); [|reflexivity]. cbn [String.length].
  change (fun s' c' => rmatch (Plus non_space) s' c' ?k)
    with (fun s' c' => rmatch (Plus non_space) s' c' k).
  pose proof (rmatch_token (Plus non_space >> Chr " " >> Plus non_space >> Lit " IN IP4 "
                            >> Plus non_newline)%re (drop 2 s) []
                (fun s' c => Some (s', c))) as H1.
  cbn [rmatch] in H1. rewrite H1. clear H1.
  destruct (token (drop 2 s)) as [s1|]; [|reflexivity].
  pose proof (rmatch_token (Plus non_space >> Lit " IN IP4 " >> Plus non_newline)%re s1 []
                (fun s' c => Some (s', c))) as H2.
  cbn [rmatch] in H2. rewrite H2. clear H2.
  destruct (token s1) as [s2|]; [|reflexivity].
  unfold non_space at 1. rewrite rmatch_Plus_cls.
  destruct s2 as [|b x]; [reflexivity|]. change (negb (is_space b)) with (ns b).
  destruct (ns b); [|reflexivity].
  rewrite greedy_commit.
  - pose proof (exec_lit_then " IN IP4 " nn (skip (fun c => negb (is_space c)) x)) as H3.
    unfold exec in H3. cbn [rmatch] in H3. exact H3.
  - intros d t Hd. rewrite rmatch_Lit. cbn [startsWith].
    rewrite Ascii.eqb_sym, (ns_not_space d Hd). reflexivity.
Qed.

End PatternFacts.

(** ** SDP rewriter: one step of a pass *)

Section ReplaceFacts.
Import Js Regex Wire Scan RtpProxy Pass.

Lemma replace_from_skip r f w rest :
  replace_from r f (String.length w) (w ++ rest) = replace_from r f 0 rest.
Proof. induction w as [|a w IH]; [reflexivity|]. simpl. exact IH. Qed.

Lemma matched_app m rest : matched (m ++ rest) rest = m.
Proof.
  unfold matched. rewrite length_append.
  replace (String.length m + String.length rest - String.length rest) with (String.length m) by lia.
  apply take_app_length.
Qed.

Lemma replace_all_match r f m rest c :
  exec r (m ++ rest) = Some (rest, c) -> m <> "" ->
  replace_all r f (m ++ rest) = f m ++ replace_all r f rest.
Proof.
  intros He Hm. unfold replace_all. destruct m as [|a m]; [congruence|].
  cbn [String.append replace_from]. cbn [String.append] in He. rewrite He.
  change (String a (m ++ rest)) with (String a m ++ rest). rewrite matched_app.
  cbn [String.length]. now rewrite replace_from_skip.
Qed.

Lemma replace_all_nomatch r f a s :
  exec r (String a s) = None ->
  replace_all r f (String a s) = String a (replace_all r f s).
Proof. intros He. unfold replace_all. cbn [replace_from]. now rewrite He. Qed.

Lemma replace_all_nil r f : exec r "" = None -> replace_all r f "" = "".
Proof. intros He. unfold replace_all. cbn [replace_from]. now rewrite He. Qed.

(** A pass whose pattern is a literal and a run. *)
Lemma lit_pass_match l p f b x :
  p b = true ->
  replace_all (Lit l >> Plus (Cls p))%re f (l ++ String b x)
  = f (l ++ String b (span p x)) ++ replace_all (Lit l >> Plus (Cls p))%re f (skip p x).
Proof.
  intros Hb.
  rewrite <- (span_skip p x) at 1.
  replace (l ++ String b (span p x ++ skip p x))
    with ((l ++ String b (span p x)) ++ skip p x)
    by (rewrite append_assoc; reflexivity).
  apply replace_all_match with (c := []).
  - rewrite exec_lit_then. rewrite append_assoc. cbn [String.append].
    rewrite span_skip. now rewrite lit_then_app.
  - intros H. apply (f_equal String.length) in H. rewrite length_append in H.
    simpl in H. lia.
Qed.

Lemma lit_pass_nomatch l p f a s :
  lit_then l p (String a s) = None ->
  replace_all (Lit l >> Plus (Cls p))%re f (String a s)
  = String a (replace_all (Lit l >> Plus (Cls p))%re f s).
Proof. intros H. apply replace_all_nomatch. now rewrite exec_lit_then, H. Qed.

Lemma lit_pass_nil l p f : replace_all (Lit l >> Plus (Cls p))%re f "" = "".
Proof.
  apply replace_all_nil. rewrite exec_lit_then. unfold lit_then.
  destruct l; reflexivity.
Qed.

Lemma connection_match a b x :
  nn b = true ->
  connection a ("c=IN IP4 " ++ String b x) = "c=IN IP4 " ++ a ++ connection a (skip nn x).
Proof.
  intros Hb. unfold connection, connectionPattern, non_newline.
  rewrite (lit_pass_match "c=IN IP4 " nn _ b x Hb). now rewrite append_assoc.
Qed.

Lemma connection_nomatch a c s :
  c_match (String c s) = None -> connection a (String c s) = String c (connection a s).
Proof. apply lit_pass_nomatch. Qed.

Lemma connection_nil a : connection a "" = "".
Proof. apply lit_pass_nil. Qed.

Lemma audio_match p d x :
  is_digit d = true ->
  audio p ("m=audio " ++ String d x) = "m=audio " ++ p ++ audio p (skip is_digit x).
Proof.
  intros Hd. unfold audio, audioPattern, digit.
  rewrite (lit_pass_match "m=audio " is_digit _ d x Hd). now rewrite append_assoc.
Qed.

Lemma audio_nomatch p c s :
  m_match (String c s) = None -> audio p (String c s) = String c (audio p s).
Proof. apply lit_pass_nomatch. Qed.

Lemma audio_nil p : audio p "" = "".
Proof. apply lit_pass_nil. Qed.

End ReplaceFacts.

(** ** SDP rewriter: lines and the address pattern *)

Section AlignFacts.
Import Js Regex Wire Scan RtpProxy Pass.

(** Two ways to cut one text. *)
Lemma append_eq_append (a b c d : string) :
  a ++ b = c ++ d ->
  exists e, (a = c ++ e /\ d = e ++ b) \/ (c = a ++ e /\ b = e ++ d).
Proof.
  revert c. induction a as [|x a IH]; intros c H.
  - exists c. right. simpl in *. auto.
  - destruct c as [|y c].
    + exists (String x a). left. simpl in *. auto.
    + simpl in H. injection H as -> H. destruct (IH c H) as [e [[-> ->]|[-> ->]]].
      * exists e. left. auto.
      * exists e. right. auto.
Qed.

(** A line and what follows it are determined by their concatenation. *)
Lemma line_split_unique l1 t1 l2 t2 :
  all_chars nn l1 = true -> all_chars nn l2 = true ->
  eol t1 = true -> eol t2 = true ->
  l1 ++ t1 = l2 ++ t2 -> l1 = l2 /\ t1 = t2.
Proof.
  revert l2. induction l1 as [|x l1 IH]; intros l2 H1 H2 E1 E2 H.
  - destruct l2 as [|y l2]; [auto|]. simpl in H. subst t1. simpl in *.
    apply andb_true_iff in H2 as [Hy _]. unfold nn in Hy. rewrite E1 in Hy. discriminate.
  - destruct l2 as [|y l2].
    + simpl in H. subst t2. simpl in *.
      apply andb_true_iff in H1 as [Hx _]. unfold nn in Hx. rewrite E2 in Hx. discriminate.
    + simpl in *. injection H as -> H.
      apply andb_true_iff in H1 as [_ H1]. apply andb_true_iff in H2 as [_ H2].
      destruct (IH l2 H1 H2 E1 E2 H) as [-> ->]. auto.
Qed.

Lemma ns_nn c : ns c = true -> nn c = true.
Proof.
  unfold ns, nn, is_space, is_newline, CR, LF. intros H.
  apply negb_true_iff in H. apply negb_true_iff.
  apply orb_false_iff in H as [H _]. apply orb_false_iff in H as [H _].
  destruct (Ascii.eqb_spec c "013") as [->|]; [discriminate H|].
  destruct (Ascii.eqb_spec c "010") as [->|]; [discriminate H|]. reflexivity.
Qed.

Lemma all_ns_nn s : all_chars ns s = true -> all_chars nn s = true.
Proof. apply all_chars_impl, ns_nn. Qed.

Lemma eol_app l t : all_chars nn l = true -> eol (l ++ t) = true -> l = "".
Proof.
  destruct l as [|c l]; [reflexivity|]. simpl. intros H E.
  apply andb_true_iff in H as [Hc _]. unfold nn in Hc. rewrite E in Hc. discriminate.
Qed.

(** The address pattern cannot start inside its own literal when what
    follows the literal holds no space. *)
Lemma address_literal_once e a z :
  all_chars ns a = true ->
  "IN IP4 " ++ a = e ++ "IN IP4 " ++ z -> e = "".
Proof.
  intros Ha H.
  destruct e as [|c1 e]; [reflexivity|exfalso]. simpl in H. injection H as <- H.
  destruct e as [|c2 e]; simpl in H; [discriminate|injection H as <- H].
  destruct e as [|c3 e]; simpl in H; [discriminate|injection H as <- H].
  destruct e as [|c4 e]; simpl in H; [discriminate|injection H as <- H].
  destruct e as [|c5 e]; simpl in H; [discriminate|injection H as <- H].
  destruct e as [|c6 e]; simpl in H; [discriminate|injection H as <- H].
  destruct e as [|c7 e]; simpl in H; [discriminate|injection H as <- H].
  subst a. rewrite all_chars_app in Ha. apply andb_true_iff in Ha as [_ Ha].
  discriminate Ha.
Qed.

End AlignFacts.

(** ** SDP rewriter: what a pattern sees of a text *)

Section WindowFacts.
Import Js Regex Wire Scan RtpProxy Pass.

Lemma append_cancel_l (a b c : string) : a ++ b = a ++ c -> b = c.
Proof. induction a as [|x a IH]; simpl; intros H; [exact H|]. injection H as H. auto. Qed.

Lemma skip_all p s : all_chars p s = true -> skip p s = "".
Proof.
  induction s as [|b x IH]; [reflexivity|]. simpl. intros H.
  apply andb_true_iff in H as [Hb Hx]. rewrite Hb. auto.
Qed.

Lemma span_all p s : all_chars p s = true -> span p s = s.
Proof.
  induction s as [|b x IH]; [reflexivity|]. simpl. intros H.
  apply andb_true_iff in H as [Hb Hx]. rewrite Hb. f_equal. auto.
Qed.

Lemma skip_app_stop p x z :
  match z with String b _ => p b = false | "" => True end ->
  skip p (x ++ z) = skip p x ++ z.
Proof.
  intros Hz. induction x as [|b x IH]; simpl.
  - now apply skip_stop.
  - destruct (p b); [exact IH|reflexivity].
Qed.

Lemma span_app_stop p x z :
  match z with String b _ => p b = false | "" => True end ->
  span p (x ++ z) = span p x.
Proof.
  intros Hz. induction x as [|b x IH]; simpl.
  - now apply span_stop.
  - destruct (p b); [now rewrite IH|reflexivity].
Qed.

Lemma take_app_le n a b : n <= String.length a -> take n (a ++ b) = take n a.
Proof.
  revert a. induction n as [|n IH]; intros a H; [reflexivity|].
  destruct a as [|c a]; simpl in *; [lia|]. f_equal. apply IH. lia.
Qed.

Lemma take_take n m s : n <= m -> take n (take m s) = take n s.
Proof.
  revert m s. induction n as [|n IH]; intros m s H; [reflexivity|].
  destruct m as [|m]; [lia|]. destruct s as [|c s]; [reflexivity|].
  simpl. f_equal. apply IH. lia.
Qed.

Lemma take_drop n s : take n s ++ drop n s = s.
Proof.
  revert s. induction n as [|n IH]; intros s; [reflexivity|].
  destruct s as [|c s]; [reflexivity|]. simpl. now rewrite IH.
Qed.

Lemma lit_then_cons a l p c s :
  lit_then (String a l) p (String c s) = if Ascii.eqb a c then lit_then l p s else None.
Proof.
  unfold lit_then. cbn [startsWith String.length drop].
  destruct (Ascii.eqb a c); reflexivity.
Qed.

Lemma lit_then_cons_nil a l p : lit_then (String a l) p "" = None.
Proof. reflexivity. Qed.

(** Whether a literal and a run start a text depends on the literal's
    length and one more character. *)
Lemma lit_then_window l p s s' :
  take (String.length l + 1) s = take (String.length l + 1) s' ->
  lit_then l p s = None -> lit_then l p s' = None.
Proof.
  revert s s'. induction l as [|a l IH]; intros s s' H.
  - unfold lit_then. cbn [startsWith String.length drop].
    destruct s as [|b x], s' as [|b' x']; simpl in H; try discriminate; auto.
    injection H as <-. destruct (p b); [discriminate|auto].
  - destruct s as [|c s], s' as [|c' s']; simpl in H; try discriminate; auto.
    injection H as <- H. rewrite !lit_then_cons.
    destruct (Ascii.eqb a c); [|auto]. now apply IH.
Qed.

(** A literal that does not start a text does not start a longer one when
    the added text begins outside the literal and the class. *)
Lemma lit_then_app_none l p w z :
  l <> "" ->
  match z with
  | String c _ => p c = false /\ all_chars (fun x => negb (Ascii.eqb x c)) l = true
  | "" => True
  end ->
  lit_then l p w = None -> lit_then l p (w ++ z) = None.
Proof.
  revert w. induction l as [|a l IH]; intros w Hl Hz H; [congruence|].
  destruct w as [|c w].
  - simpl. destruct z as [|d z]; [reflexivity|]. rewrite lit_then_cons.
    destruct Hz as [_ Hz]. simpl in Hz. apply andb_true_iff in Hz as [Hz _].
    apply negb_true_iff in Hz. now rewrite Hz.
  - change (String c w ++ z) with (String c (w ++ z)). rewrite lit_then_cons in *.
    destruct (Ascii.eqb a c); [|reflexivity].
    destruct l as [|a' l].
    + clear IH. unfold lit_then in *. cbn [startsWith String.length drop] in *.
      destruct w as [|b x]; simpl.
      * destruct z as [|d z]; [reflexivity|]. destruct Hz as [Hz _]. now rewrite Hz.
      * destruct (p b); [discriminate|reflexivity].
    + apply IH; [discriminate| |exact H].
      destruct z as [|d z]; [exact I|]. destruct Hz as [Hp Hz]. split; [exact Hp|].
      simpl in Hz. apply andb_true_iff in Hz as [_ Hz]. exact Hz.
Qed.

(** A pass leaves alone a text none of whose places starts a match. *)
Lemma replace_all_pass r f w z :
  (forall c w1 w2, w = w1 ++ String c w2 -> exec r (String c w2 ++ z) = None) ->
  replace_all r f (w ++ z) = w ++ replace_all r f z.
Proof.
  induction w as [|c w IH]; intros H; [reflexivity|].
  change (String c w ++ z) with (String c (w ++ z)).
  rewrite replace_all_nomatch by (apply (H c "" w); reflexivity).
  simpl. f_equal. apply IH. intros d w1 w2 ->. apply (H d (String c w1) w2). reflexivity.
Qed.

(** Each pattern of the rewriter starts with one character. *)
Lemma lit_then_head a l p c s :
  Ascii.eqb a c = false -> lit_then (String a l) p (String c s) = None.
Proof. intros H. now rewrite lit_then_cons, H. Qed.

Lemma o_match_head c s : Ascii.eqb "o" c = false -> o_match (String c s) = None.
Proof. intros H. unfold o_match. cbn [startsWith]. now rewrite H. Qed.

Lemma pass_free (r : regex) (mt : string -> option string) f (h : ascii) w z :
  (forall s, exec r s = option_map (fun t => (t, [])) (mt s)) ->
  (forall c s, Ascii.eqb h c = false -> mt (String c s) = None) ->
  all_chars (fun c => negb (Ascii.eqb h c)) w = true ->
  replace_all r f (w ++ z) = w ++ replace_all r f z.
Proof.
  intros He Hh Hw. apply replace_all_pass. intros c w1 w2 ->.
  rewrite all_chars_app in Hw. apply andb_true_iff in Hw as [_ Hw]. simpl in Hw.
  apply andb_true_iff in Hw as [Hc _]. apply negb_true_iff in Hc.
  change (String c w2 ++ z) with (String c (w2 ++ z)). now rewrite He, Hh.
Qed.

Lemma connection_free a w z :
  all_chars (fun c => negb (Ascii.eqb "c" c)) w = true ->
  connection a (w ++ z) = w ++ connection a z.
Proof.
  apply (pass_free _ c_match); [apply exec_connection|].
  intros c s H. now apply lit_then_head.
Qed.

Lemma origin_free a w z :
  all_chars (fun c => negb (Ascii.eqb "o" c)) w = true ->
  origin a (w ++ z) = w ++ origin a z.
Proof. apply (pass_free _ o_match); [apply exec_origin|apply o_match_head]. Qed.

Lemma audio_free p w z :
  all_chars (fun c => negb (Ascii.eqb "m" c)) w = true ->
  audio p (w ++ z) = w ++ audio p z.
Proof.
  apply (pass_free _ m_match); [apply exec_audio|].
  intros c s H. now apply lit_then_head.
Qed.

End WindowFacts.

(** ** SDP rewriter: the first address of a line *)

Section AddressFacts.
Import Js Regex Wire Scan RtpProxy Pass.

Lemma has_T_step s :
  has_T s = match a_match s with
            | Some _ => true
            | None => match s with String _ s' => has_T s' | "" => false end
            end.
Proof. destruct s; reflexivity. Qed.

Lemma before_T_step s :
  before_T s = match a_match s with
               | Some _ => ""
               | None => match s with String c s' => String c (before_T s') | "" => "" end
               end.
Proof. destruct s; reflexivity. Qed.

Lemma has_T_cons c s : has_T (String c s) = false ->
  a_match (String c s) = None /\ has_T s = false.
Proof. rewrite has_T_step. destruct (a_match (String c s)); [discriminate|auto]. Qed.

Lemma has_T_suffix w s : has_T (w ++ s) = false -> has_T s = false.
Proof.
  induction w as [|c w IH]; [auto|]. simpl. intros H. apply has_T_cons in H as [_ H]. auto.
Qed.

Lemma a_match_window s s' :
  take 8 s = take 8 s' -> a_match s = None -> a_match s' = None.
Proof. exact (lit_then_window "IN IP4 " nn s s'). Qed.

Lemma a_match_longer s z :
  8 <= String.length s -> a_match s = None -> a_match (s ++ z) = None.
Proof. intros H. apply a_match_window. now rewrite take_app_le. Qed.

Lemma a_match_shorter s z :
  8 <= String.length s -> a_match (s ++ z) = None -> a_match s = None.
Proof. intros H. apply a_match_window. now rewrite take_app_le. Qed.

(** The address pattern first matches at the literal when nothing before
    the literal, and the literal, matches. *)
Lemma before_T_first w b x :
  has_T (w ++ "IN IP4 ") = false -> nn b = true ->
  before_T (w ++ "IN IP4 " ++ String b x) = w.
Proof.
  intros Hw Hb. induction w as [|c w IH].
  - change ("" ++ "IN IP4 " ++ String b x) with ("IN IP4 " ++ String b x).
    rewrite before_T_step. unfold a_match. now rewrite lit_then_app.
  - change (String c w ++ "IN IP4 ") with (String c (w ++ "IN IP4 ")) in Hw.
    apply has_T_cons in Hw as [Ha Hw].
    change (String c w ++ "IN IP4 " ++ String b x)
      with (String c (w ++ "IN IP4 " ++ String b x)).
    rewrite before_T_step.
    replace (String c (w ++ "IN IP4 " ++ String b x))
      with (String c (w ++ "IN IP4 ") ++ String b x)
      by (simpl; now rewrite append_assoc).
    rewrite a_match_longer; [|simpl; rewrite length_append; simpl; lia|exact Ha].
    f_equal. auto.
Qed.

Lemma has_T_intro w b x : nn b = true -> has_T (w ++ "IN IP4 " ++ String b x) = true.
Proof.
  intros Hb. induction w as [|c w IH].
  - change ("" ++ "IN IP4 " ++ String b x) with ("IN IP4 " ++ String b x).
    rewrite has_T_step. unfold a_match. now rewrite lit_then_app.
  - change (String c w ++ "IN IP4 " ++ String b x)
      with (String c (w ++ "IN IP4 " ++ String b x)).
    rewrite has_T_step. destruct (a_match _); auto.
Qed.

Lemma has_T_split m :
  has_T m = true ->
  exists b x, m = before_T m ++ "IN IP4 " ++ String b x /\ nn b = true.
Proof.
  induction m as [|c m IH]; [discriminate|].
  rewrite has_T_step, before_T_step.
  destruct (a_match (String c m)) as [r|] eqn:E.
  - intros _. apply lit_then_inv in E as (b & x & E & Hb & _). exists b, x. auto.
  - intros H. destruct (IH H) as (b & x & E' & Hb). exists b, x. split; [|exact Hb].
    change (String c m = String c (before_T m ++ "IN IP4 " ++ String b x)).
    f_equal. exact E'.
Qed.

Lemma first_before m : has_T m = true -> has_T (before_T m ++ "IN IP4 ") = false.
Proof.
  induction m as [|c m IH]; [discriminate|].
  rewrite has_T_step, before_T_step.
  destruct (a_match (String c m)) as [r|] eqn:E; [reflexivity|].
  intros H. specialize (IH H). destruct (has_T_split m H) as (b & x & Em & Hb).
  change (String c (before_T m) ++ "IN IP4 ") with (String c (before_T m ++ "IN IP4 ")).
  rewrite has_T_step, IH.
  rewrite (a_match_shorter _ (String b x)); [reflexivity| |].
  - simpl. rewrite length_append. simpl. lia.
  - replace (String c (before_T m ++ "IN IP4 ") ++ String b x) with (String c m);
      [exact E|].
    change (String c m = String c ((before_T m ++ "IN IP4 ") ++ String b x)).
    f_equal. rewrite append_assoc. exact Em.
Qed.

Lemma before_T_prefix m : exists z, m = before_T m ++ z.
Proof.
  induction m as [|c m IH]; [now exists ""|].
  rewrite before_T_step. destruct (a_match _).
  - now eexists.
  - destruct IH as [z Hz]. exists z. simpl. now rewrite <- Hz.
Qed.

Lemma before_T_nn m : all_chars nn m = true -> all_chars nn (before_T m) = true.
Proof.
  intros H. destruct (before_T_prefix m) as [z Hz]. rewrite Hz in H.
  rewrite all_chars_app in H. now apply andb_true_iff in H as [H _].
Qed.

(** A literal followed by a host holds the pattern once. *)
Lemma has_T_host a t :
  all_chars ns a = true -> eol t = true ->
  forall c w1 w2, "IN IP4 " ++ a = w1 ++ String c w2 -> w1 <> "" ->
  a_match (String c w2 ++ t) = None.
Proof.
  intros Ha Ht c w1 w2 E Hw.
  destruct (a_match (String c w2 ++ t)) as [r|] eqn:M; [exfalso|reflexivity].
  apply lit_then_inv in M as (b & x & M & Hb & _).
  assert (P : exists e, String c w2 = ("IN IP4 " ++ String b "") ++ e).
  { assert (Hl : all_chars nn ("IN IP4 " ++ String b "") = true) by (simpl; now rewrite Hb).
    assert (Hc : all_chars nn (String c w2) = true).
    { apply all_ns_nn in Ha. assert (Hall : all_chars nn ("IN IP4 " ++ a) = true)
        by (rewrite all_chars_app; now rewrite Ha).
      rewrite E in Hall. rewrite all_chars_app in Hall.
      now apply andb_true_iff in Hall as [_ Hall]. }
    replace ("IN IP4 " ++ String b x) with (("IN IP4 " ++ String b "") ++ x) in M
      by reflexivity.
    destruct (append_eq_append _ _ _ _ M) as [e [[E1 E2]|[E1 E2]]].
    - now exists e.
    - destruct e as [|d e].
      + exists "". rewrite append_nil_r in E1. now rewrite E1, append_nil_r.
      + exfalso. rewrite E1 in Hl. rewrite all_chars_app in Hl.
        apply andb_true_iff in Hl as [_ Hl]. simpl in Hl.
        apply andb_true_iff in Hl as [Hd _]. rewrite E2 in Ht. simpl in Ht.
        unfold nn in Hd. now rewrite Ht in Hd. }
  destruct P as [e P]. rewrite P in E.
  assert (w1 = "").
  { apply (address_literal_once w1 a (String b e) Ha). rewrite E. reflexivity. }
  contradiction.
Qed.

End AddressFacts.

(** ** SDP rewriter: the connection pass *)

Section ConnectionFacts.
Import Js Regex Wire Scan RtpProxy Pass.

Lemma string_length_ind (P : string -> Prop) :
  (forall s, (forall s', String.length s' < String.length s -> P s') -> P s) ->
  forall s, P s.
Proof.
  intros H s. remember (String.length s) as n eqn:Hn. revert s Hn.
  induction n as [n IH] using lt_wf_ind. intros s ->. apply H.
  intros s' Hs. exact (IH _ Hs s' eq_refl).
Qed.

Lemma take_cons n c s : take (S n) (String c s) = String c (take n s).
Proof. reflexivity. Qed.

Lemma newline_cases d : is_newline d = true -> d = CR \/ d = LF.
Proof.
  unfold is_newline. intros H. apply orb_true_iff in H as [H|H];
    apply Ascii.eqb_eq in H; auto.
Qed.

Lemma newline_other h d : nn h = true -> is_newline d = true -> Ascii.eqb h d = false.
Proof.
  intros Hh Hd. destruct (Ascii.eqb_spec h d) as [->|]; [|reflexivity].
  unfold nn in Hh. now rewrite Hd in Hh.
Qed.

(** A line is a prefix of every text that starts as the line does and
    breaks later. *)
Lemma line_prefix l z u t :
  all_chars nn l = true -> eol t = true -> l ++ z = u ++ t -> exists e, u = l ++ e.
Proof.
  intros Hl Ht H. destruct (append_eq_append _ _ _ _ H) as [e [[E1 E2]|[E1 E2]]].
  - destruct e as [|d e].
    + exists "". now rewrite E1, !append_nil_r.
    + exfalso. rewrite E1, all_chars_app in Hl. apply andb_true_iff in Hl as [_ Hl].
      simpl in Hl. apply andb_true_iff in Hl as [Hd _]. rewrite E2 in Ht. simpl in Ht.
      unfold nn in Hd. now rewrite Ht in Hd.
  - now exists e.
Qed.

Lemma space_in_token u e l : all_chars ns u = true -> u = l ++ String " " e -> False.
Proof.
  intros Hu E. rewrite E, all_chars_app in Hu. apply andb_true_iff in Hu as [_ Hu].
  discriminate Hu.
Qed.

Lemma c_match_eol t : eol t = true -> c_match t = None.
Proof.
  destruct t as [|d t]; [reflexivity|]. simpl. intros H.
  apply lit_then_head. now apply newline_other.
Qed.

Lemma connection_eol_step a t :
  eol t = true ->
  connection a t = match t with "" => "" | String d t' => String d (connection a t') end.
Proof.
  intros H. destruct t as [|d t]; [apply connection_nil|].
  apply connection_nomatch. now apply c_match_eol.
Qed.

Lemma connection_eol a t : eol t = true -> eol (connection a t) = true.
Proof. intros H. rewrite connection_eol_step by exact H. destruct t; auto. Qed.

Lemma connection_window a s n : n <= 9 -> take n (connection a s) = take n s.
Proof.
  revert n. induction s as [|c s IH]; intros n Hn; [now rewrite connection_nil|].
  destruct (c_match (String c s)) as [r|] eqn:E.
  - apply lit_then_inv in E as (b & x & E & Hb & _). rewrite E, connection_match by exact Hb.
    rewrite !take_app_le by (simpl; lia). reflexivity.
  - rewrite connection_nomatch by exact E. destruct n as [|n]; [reflexivity|].
    simpl. f_equal. apply IH. lia.
Qed.

Lemma c_match_token u t c w1 w2 :
  all_chars ns u = true -> eol t = true -> u = w1 ++ String c w2 ->
  c_match (String c w2 ++ t) = None.
Proof.
  intros Hu Ht E. destruct (c_match (String c w2 ++ t)) as [r|] eqn:M; [exfalso|reflexivity].
  apply lit_then_inv in M as (b & x & M & _ & _). symmetry in M.
  change ("c=IN IP4 " ++ String b x) with ("c=IN " ++ "IP4 " ++ String b x) in M.
  destruct (line_prefix "c=IN " _ _ _ eq_refl Ht M) as [e He].
  rewrite He in E. apply (space_in_token u e (w1 ++ "c=IN") Hu).
  rewrite E, append_assoc. reflexivity.
Qed.

Lemma connection_token a u t :
  all_chars ns u = true -> eol t = true -> connection a (u ++ t) = u ++ connection a t.
Proof.
  intros Hu Ht. apply replace_all_pass. intros c w1 w2 E.
  rewrite exec_connection, (c_match_token u t c w1 w2 Hu Ht E). reflexivity.
Qed.

Lemma c_match_app_eol w t :
  eol t = true -> c_match w = None -> c_match (w ++ t) = None.
Proof.
  intros Ht. apply lit_then_app_none; [discriminate|].
  destruct t as [|d t]; [exact I|]. simpl in Ht. split; [unfold nn; now rewrite Ht|].
  destruct (newline_cases d Ht) as [->| ->]; reflexivity.
Qed.

(** The connection pass works line by line. *)
Lemma connection_app_eol a w t :
  eol t = true -> connection a (w ++ t) = connection a w ++ connection a t.
Proof.
  intros Ht. induction w as [w IH] using string_length_ind.
  destruct w as [|c w]; [now rewrite connection_nil|].
  destruct (c_match (String c w)) as [r|] eqn:E.
  - apply lit_then_inv in E as (b & x & E & Hb & _). rewrite E, append_assoc.
    change (String b x ++ t) with (String b (x ++ t)).
    rewrite !connection_match by exact Hb.
    rewrite skip_app_stop by now apply eol_stop.
    rewrite IH, !append_assoc; [reflexivity|].
    rewrite E, length_append. simpl. pose proof (length_skip nn x). lia.
  - change (String c w ++ t) with (String c (w ++ t)).
    rewrite connection_nomatch by (apply (c_match_app_eol (String c w)); assumption).
    rewrite connection_nomatch by exact E. simpl. f_equal. apply IH. simpl. lia.
Qed.

Lemma connection_nn a w :
  all_chars nn a = true -> all_chars nn w = true -> all_chars nn (connection a w) = true.
Proof.
  intros Ha. induction w as [|c w IH]; intros Hw; [now rewrite connection_nil|].
  destruct (c_match (String c w)) as [r|] eqn:E.
  - apply lit_then_inv in E as (b & x & E & Hb & _). rewrite E in *.
    rewrite connection_match by exact Hb.
    rewrite all_chars_app in Hw. apply andb_true_iff in Hw as [_ Hw]. simpl in Hw.
    apply andb_true_iff in Hw as [_ Hw]. rewrite (skip_all nn x Hw), connection_nil.
    rewrite !all_chars_app, Ha. reflexivity.
  - rewrite connection_nomatch by exact E. simpl in *.
    apply andb_true_iff in Hw as [Hc Hw]. now rewrite Hc, IH.
Qed.

(** A replaced connection line. *)
Lemma connection_line a t :
  a <> "" -> all_chars nn a = true -> eol t = true ->
  connection a ("c=IN IP4 " ++ a ++ t) = "c=IN IP4 " ++ a ++ connection a t.
Proof.
  intros Hne Ha Ht. destruct a as [|a0 a]; [congruence|]. simpl in Ha.
  apply andb_true_iff in Ha as [H0 Ha].
  change (String a0 a ++ t) with (String a0 (a ++ t)).
  rewrite connection_match by exact H0.
  rewrite skip_app_all by exact Ha. rewrite skip_stop by now apply eol_stop.
  reflexivity.
Qed.

(** The connection pass changes nothing the second time. *)
Lemma connection_idem a s :
  a <> "" -> all_chars nn a = true ->
  connection a (connection a s) = connection a s.
Proof.
  intros Hne Ha. induction s as [s IH] using string_length_ind.
  destruct s as [|c s]; [now rewrite !connection_nil|].
  destruct (c_match (String c s)) as [r|] eqn:E.
  - apply lit_then_inv in E as (b & x & E & Hb & _). rewrite E.
    rewrite connection_match by exact Hb.
    rewrite connection_line by (auto; apply connection_eol, eol_skip_nn).
    rewrite IH; [reflexivity|]. rewrite E, length_append. simpl.
    pose proof (length_skip nn x). lia.
  - rewrite connection_nomatch by exact E.
    rewrite connection_nomatch.
    + f_equal. apply IH. simpl. lia.
    + revert E. apply (lit_then_window "c=IN IP4 " nn).
      change (String.length "c=IN IP4 " + 1) with (S 9). rewrite !take_cons. f_equal.
      symmetry. now apply connection_window.
Qed.

(** A line that ends with the first address of the line, the server's, is
    left as it is. *)
Lemma connection_settled a w t :
  a <> "" -> all_chars ns a = true -> eol t = true ->
  has_T (w ++ "IN IP4 ") = false ->
  connection a (w ++ "IN IP4 " ++ a ++ t) = w ++ "IN IP4 " ++ a ++ connection a t.
Proof.
  intros Hne Ha Ht. induction w as [|c w IH]; intros Hw.
  - change ("" ++ "IN IP4 " ++ a ++ t) with ("IN IP4 " ++ a ++ t).
    rewrite connection_free by reflexivity. now rewrite connection_token.
  - change (String c w ++ "IN IP4 ") with (String c (w ++ "IN IP4 ")) in Hw.
    apply has_T_cons in Hw as [Hc Hw].
    change (String c w ++ "IN IP4 " ++ a ++ t) with (String c (w ++ "IN IP4 " ++ a ++ t)).
    destruct (c_match (String c (w ++ "IN IP4 " ++ a ++ t))) as [r|] eqn:E.
    + apply lit_then_inv in E as (b & x & E & Hb & _).
      destruct w as [|c2 w]; [discriminate E|].
      injection E as -> -> E.
      destruct w as [|c3 w].
      * change (connection a ("c=IN IP4 " ++ a ++ t) = "c=IN IP4 " ++ a ++ connection a t).
        apply connection_line; auto using all_ns_nn.
      * exfalso.
        change (has_T (String "=" (String c3 w ++ "IN IP4 ")) = false) in Hw.
        apply has_T_cons in Hw as [_ Hw].
        change (has_T (String c3 (w ++ "IN IP4 ")) = false) in Hw.
        apply has_T_cons in Hw as [M _].
        change (a_match (String c3 w ++ "IN IP4 ") = None) in M.
        apply (a_match_longer _ (a ++ t)) in M;
          [|simpl; rewrite length_append; simpl; lia].
        assert (M' : a_match ("IN IP4 " ++ String b x) = None)
          by (rewrite append_assoc in M;
              change (a_match ("IN IP4 " ++ String b x)) with
                (a_match (String "I" (String "N" (String " " (String "I" (String "P"
                   (String "4" (String " " (String b x)))))))));
              rewrite <- E; exact M).
        unfold a_match in M'. rewrite lit_then_app in M' by exact Hb. discriminate.
    + rewrite connection_nomatch by exact E. simpl. f_equal. auto.
Qed.

End ConnectionFacts.

(** ** SDP rewriter: the origin pass *)

Section OriginFacts.
Import Js Regex Wire Scan RtpProxy Pass.

Lemma token_inv z r :
  token z = Some r -> exists u, z = u ++ String " " r /\ u <> "" /\ all_chars ns u = true.
Proof.
  destruct z as [|b x]; [discriminate|]. cbn [token].
  destruct (ns b) eqn:Hb; [|discriminate].
  pose proof (span_skip ns x) as Hx. pose proof (all_chars_span ns x) as Ha.
  destruct (skip ns x) as [|c t]; [discriminate|].
  destruct (Ascii.eqb_spec c " ") as [->|]; [|discriminate].
  intros [= <-]. exists (String b (span ns x)). repeat split.
  - change (String b x = String b (span ns x ++ String " " t)). now rewrite Hx.
  - discriminate.
  - simpl. now rewrite Hb, Ha.
Qed.

Lemma token_intro u r :
  u <> "" -> all_chars ns u = true -> token (u ++ String " " r) = Some r.
Proof.
  destruct u as [|b u]; [congruence|]. intros _ H. simpl in H.
  apply andb_true_iff in H as [Hb Hu].
  change (String b u ++ String " " r) with (String b (u ++ String " " r)).
  cbn [token]. rewrite Hb, (skip_app_all ns u _ Hu). reflexivity.
Qed.

(** The origin pattern at the start of a text. *)
Lemma o_match_inv s r :
  o_match s = Some r ->
  exists w b x, o_prefix w /\ nn b = true /\ s = w ++ "IN IP4 " ++ String b x
                /\ r = skip nn x.
Proof.
  unfold o_match. destruct (startsWith "o=" s) eqn:Hs; [|discriminate].
  apply startsWith_app in Hs. change (String.length "o=") with 2 in Hs.
  destruct (token (drop 2 s)) as [s1|] eqn:T1; [|discriminate].
  destruct (token s1) as [[|b x]|] eqn:T2; try discriminate.
  destruct (ns b) eqn:Hb; [|discriminate]. intros M.
  apply token_inv in T1 as (u & E1 & Hu & Hau).
  apply token_inv in T2 as (s2 & E2 & Hs2 & Has).
  apply lit_then_inv in M as (b' & x' & M & Hb' & Hr).
  exists ("o=" ++ u ++ " " ++ s2 ++ " " ++ String b (span ns x) ++ " "), b', x'.
  split; [|split; [exact Hb'|split; [|exact Hr]]].
  - exists u, s2, (String b (span ns x)). repeat split; auto; try discriminate.
    simpl. now rewrite Hb, all_chars_span.
  - rewrite Hs, E1, E2. rewrite !append_assoc. cbn [append]. do 6 f_equal.
    rewrite <- (span_skip ns x) at 1. now rewrite M.
Qed.

Lemma o_match_intro w b x :
  o_prefix w -> nn b = true -> o_match (w ++ "IN IP4 " ++ String b x) = Some (skip nn x).
Proof.
  intros (u & s & v & -> & Hu & Hs & Hv & Hau & Has & Hav) Hb.
  unfold o_match. rewrite !append_assoc. rewrite startsWith_app_same.
  change (drop 2 ("o=" ++ ?z)) with z.
  change (" " ++ ?z) with (String " " z).
  rewrite token_intro by assumption.
  change (" " ++ ?z) with (String " " z).
  rewrite token_intro by assumption.
  destruct v as [|v0 v]; [congruence|]. simpl in Hav.
  apply andb_true_iff in Hav as [Hv0 Hav].
  change (String v0 v ++ ?z) with (String v0 (v ++ z)). cbv iota. rewrite Hv0.
  rewrite skip_app_all by exact Hav. rewrite skip_stop by reflexivity.
  change (" " ++ "IN IP4 " ++ String b x) with (" IN IP4 " ++ String b x).
  now rewrite lit_then_app.
Qed.

Lemma o_match_nil : o_match "" = None.
Proof. reflexivity. Qed.

Lemma origin_nil a : origin a "" = "".
Proof. apply replace_all_nil. now rewrite exec_origin. Qed.

Lemma origin_nomatch a c s :
  o_match (String c s) = None -> origin a (String c s) = String c (origin a s).
Proof. intros H. apply replace_all_nomatch. now rewrite exec_origin, H. Qed.

(** The replacement inside a matched origin line. *)
Lemma inner_step a s :
  inner a s = match a_match s with
              | Some r => "IN IP4 " ++ a ++ r
              | None => match s with
                        | String c s' => String c (inner a s')
                        | "" => ""
                        end
              end.
Proof.
  unfold inner, replace_first. destruct s as [|c s]; cbn [search]; rewrite exec_address.
  - reflexivity.
  - destruct (a_match (String c s)) as [r|]; [reflexivity|]. cbn [option_map].
    destruct (search addressPattern s) as [f|]; reflexivity.
Qed.

Lemma inner_line a m :
  all_chars nn m = true -> has_T m = true ->
  inner a m = before_T m ++ "IN IP4 " ++ a.
Proof.
  induction m as [|c m IH]; [discriminate|]. intros Hm.
  rewrite has_T_step, before_T_step, inner_step.
  destruct (a_match (String c m)) as [r|] eqn:E.
  - intros _. apply lit_then_inv in E as (b & x & E & Hb & ->).
    rewrite E, all_chars_app in Hm. apply andb_true_iff in Hm as [_ Hm]. simpl in Hm.
    apply andb_true_iff in Hm as [_ Hm]. rewrite (skip_all nn x Hm).
    now rewrite append_nil_r.
  - intros H. simpl in Hm. apply andb_true_iff in Hm as [_ Hm].
    rewrite IH by assumption. reflexivity.
Qed.

Lemma o_prefix_nn w : o_prefix w -> all_chars nn w = true.
Proof.
  intros (u & s & v & -> & _ & _ & _ & Hu & Hs & Hv).
  apply all_ns_nn in Hu, Hs, Hv. rewrite !all_chars_app, Hu, Hs, Hv. reflexivity.
Qed.

Lemma lit_then_none_o s : a_match (String "o" s) = None.
Proof. now apply lit_then_head. Qed.

Lemma lit_then_none_eq s : a_match (String "=" s) = None.
Proof. now apply lit_then_head. Qed.

(** One step of the origin pass at a match: the line is cut after the
    literal of its first address. *)
Lemma origin_match a s r :
  o_match s = Some r ->
  exists m, s = m ++ r /\ all_chars nn m = true /\ has_T m = true /\ eol r = true
            /\ String.length r < String.length s
            /\ 2 <= String.length (before_T m)
            /\ origin a s = before_T m ++ "IN IP4 " ++ a ++ origin a r.
Proof.
  intros M. pose proof M as M0.
  apply o_match_inv in M as (w & b & x & Hw & Hb & -> & ->).
  set (m := w ++ "IN IP4 " ++ String b (span nn x)).
  assert (E : w ++ "IN IP4 " ++ String b x = m ++ skip nn x).
  { unfold m. rewrite !append_assoc. do 2 f_equal.
    change (String b x = String b (span nn x ++ skip nn x)). now rewrite span_skip. }
  assert (Hm : all_chars nn m = true).
  { unfold m. rewrite !all_chars_app, (o_prefix_nn w Hw). simpl.
    now rewrite Hb, all_chars_span. }
  assert (HT : has_T m = true) by (unfold m; now apply has_T_intro).
  exists m. repeat split; auto.
  - apply eol_skip_nn.
  - rewrite !length_append. simpl. pose proof (length_skip nn x). lia.
  - unfold m. destruct Hw as (u & s & v & -> & _). rewrite !append_assoc.
    change ("o=" ++ ?z) with (String "o" (String "=" z)).
    rewrite before_T_step, lit_then_none_o. rewrite before_T_step, lit_then_none_eq.
    simpl. lia.
  - rewrite E in *. unfold origin.
    rewrite (replace_all_match _ _ m (skip nn x) []).
    + rewrite inner_line by assumption. now rewrite !append_assoc.
    + now rewrite exec_origin, M0.
    + unfold m. destruct Hw as (u & s & v & -> & _). discriminate.
Qed.

Lemma o_match_eol t : eol t = true -> o_match t = None.
Proof.
  destruct t as [|d t]; [reflexivity|]. simpl. intros H.
  apply o_match_head. now apply newline_other.
Qed.

Lemma origin_eol_step a t :
  eol t = true ->
  origin a t = match t with "" => "" | String d t' => String d (origin a t') end.
Proof.
  intros H. destruct t as [|d t]; [apply origin_nil|].
  apply origin_nomatch. now apply o_match_eol.
Qed.

Lemma origin_eol a t : eol t = true -> eol (origin a t) = true.
Proof. intros H. rewrite origin_eol_step by exact H. destruct t; auto. Qed.

End OriginFacts.

(** ** SDP rewriter: the origin pass on its own result *)

Section OriginAgain.
Import Js Regex Wire Scan RtpProxy Pass.

Lemma origin_window a s n : n <= 9 -> take n (origin a s) = take n s.
Proof.
  revert n. induction s as [|c s IH]; intros n Hn; [now rewrite origin_nil|].
  destruct (o_match (String c s)) as [r|] eqn:E.
  - destruct (origin_match a _ _ E) as (m & Es & Hm & HT & Hr & _ & H2 & Eo).
    destruct (has_T_split m HT) as (b & x & Em & Hb).
    assert (Em' : m ++ r = (before_T m ++ "IN IP4 ") ++ String b x ++ r)
      by (rewrite Em at 1; now rewrite !append_assoc).
    rewrite Eo, Es, Em'. rewrite <- (append_assoc (before_T m) "IN IP4 ").
    rewrite !(take_app_le n (before_T m ++ "IN IP4 "))
      by (rewrite length_append; simpl; lia).
    reflexivity.
  - rewrite origin_nomatch by exact E. destruct n as [|n]; [reflexivity|].
    simpl. f_equal. apply IH. lia.
Qed.

Lemma o_match_token u t c w1 w2 :
  all_chars ns u = true -> eol t = true -> u = w1 ++ String c w2 ->
  o_match (String c w2 ++ t) = None.
Proof.
  intros Hu Ht E. destruct (o_match (String c w2 ++ t)) as [r|] eqn:M; [exfalso|reflexivity].
  apply o_match_inv in M as (w & b & x & (u' & s' & v' & -> & _ & _ & _ & Hu' & _) & _ & M & _).
  symmetry in M. rewrite !append_assoc in M.
  replace ("o=" ++ u' ++ " " ++ s' ++ " " ++ v' ++ " " ++ "IN IP4 " ++ String b x)
    with (("o=" ++ u' ++ " ") ++ s' ++ " " ++ v' ++ " " ++ "IN IP4 " ++ String b x) in M
    by now rewrite !append_assoc.
  assert (Hl : all_chars nn ("o=" ++ u' ++ " ") = true).
  { rewrite !all_chars_app, (all_ns_nn _ Hu'). reflexivity. }
  destruct (line_prefix _ _ _ _ Hl Ht M) as [e He].
  rewrite He in E. apply (space_in_token u e (w1 ++ "o=" ++ u') Hu).
  rewrite E, !append_assoc. reflexivity.
Qed.

Lemma origin_token a u t :
  all_chars ns u = true -> eol t = true -> origin a (u ++ t) = u ++ origin a t.
Proof.
  intros Hu Ht. apply replace_all_pass. intros c w1 w2 E.
  rewrite exec_origin, (o_match_token u t c w1 w2 Hu Ht E). reflexivity.
Qed.

(** A line that ends with the first address of the line, the server's, is
    left as it is. *)
Lemma origin_settled a w t :
  a <> "" -> all_chars ns a = true -> eol t = true ->
  all_chars nn w = true -> has_T (w ++ "IN IP4 ") = false ->
  origin a (w ++ "IN IP4 " ++ a ++ t) = w ++ "IN IP4 " ++ a ++ origin a t.
Proof.
  intros Hne Ha Ht. induction w as [|c w IH]; intros Hn Hw.
  - change ("" ++ "IN IP4 " ++ a ++ t) with ("IN IP4 " ++ a ++ t).
    rewrite origin_free by reflexivity. now rewrite origin_token.
  - destruct (o_match (String c w ++ "IN IP4 " ++ a ++ t)) as [r|] eqn:E.
    + destruct (origin_match a _ _ E) as (m & Es & Hm & HT & Hr & _ & _ & Eo).
      rewrite Eo.
      assert (Hl : all_chars nn (String c w ++ "IN IP4 " ++ a) = true).
      { rewrite !all_chars_app, Hn, (all_ns_nn _ Ha). reflexivity. }
      replace (String c w ++ "IN IP4 " ++ a ++ t)
        with ((String c w ++ "IN IP4 " ++ a) ++ t) in Es by now rewrite !append_assoc.
      destruct (line_split_unique _ _ _ _ Hl Hm Ht Hr Es) as [<- <-].
      destruct a as [|a0 a]; [congruence|]. simpl in Ha.
      apply andb_true_iff in Ha as [H0 _].
      rewrite before_T_first by (auto using ns_nn). reflexivity.
    + change (String c w ++ "IN IP4 " ++ a ++ t)
        with (String c (w ++ "IN IP4 " ++ a ++ t)) in *.
      rewrite origin_nomatch by exact E.
      change (String c w ++ "IN IP4 ") with (String c (w ++ "IN IP4 ")) in Hw.
      apply has_T_cons in Hw as [_ Hw]. simpl in Hn.
      apply andb_true_iff in Hn as [_ Hn]. rewrite IH by assumption. reflexivity.
Qed.

(** The literal of the address read one or more characters later. *)
Lemma shifted_literal e z z' b x :
  e <> "" -> "IN IP4 " ++ String b x = e ++ "IN IP4 " ++ z ->
  exists x', e ++ "IN IP4 " ++ z' = "IN IP4 " ++ String b x'.
Proof.
  intros He H. exists (drop 8 (e ++ "IN IP4 " ++ z')).
  assert (L : 8 <= String.length (e ++ "IN IP4 "))
    by (destruct e; [congruence|rewrite length_append; simpl; lia]).
  rewrite <- (take_drop 8 (e ++ "IN IP4 " ++ z')) at 1.
  change ("IN IP4 " ++ String b (drop 8 (e ++ "IN IP4 " ++ z')))
    with (("IN IP4 " ++ String b "") ++ drop 8 (e ++ "IN IP4 " ++ z')).
  f_equal. rewrite <- append_assoc, take_app_le by exact L.
  rewrite <- (take_app_le 8 _ z) by exact L. rewrite append_assoc, <- H. reflexivity.
Qed.

(** An address of the first line after the pass was an address before it. *)
Lemma origin_address_back a s l b x :
  all_chars ns a = true -> all_chars nn l = true -> nn b = true ->
  origin a s = l ++ "IN IP4 " ++ String b x ->
  exists b1 x1, nn b1 = true /\ s = l ++ "IN IP4 " ++ String b1 x1.
Proof.
  intros Ha. revert l. induction s as [|c s IH]; intros l Hl Hb H.
  - rewrite origin_nil in H. destruct l; discriminate.
  - destruct (o_match (String c s)) as [r|] eqn:E.
    + destruct (origin_match a _ _ E) as (m & Es & Hm & HT & Hr & _ & _ & Eo).
      destruct (has_T_split m HT) as (b0 & x0 & Em & Hb0).
      rewrite Eo in H. rewrite Es. rewrite Em. clear IH.
      destruct (append_eq_append _ _ _ _ H) as [e [[E1 E2]|[E1 E2]]].
      * destruct e as [|e0 e].
        -- rewrite append_nil_r in E1. rewrite E1. exists b0, (x0 ++ r).
           split; [exact Hb0|]. now rewrite !append_assoc.
        -- destruct (shifted_literal (String e0 e) _ (String b0 x0 ++ r) b x
                       ltac:(discriminate) E2) as [x' Hx'].
           exists b, x'. split; [exact Hb|]. rewrite E1, !append_assoc.
           f_equal. rewrite <- Hx'. reflexivity.
      * destruct e as [|e0 e].
        -- rewrite append_nil_r in E1. rewrite <- E1. exists b0, (x0 ++ r).
           split; [exact Hb0|]. now rewrite !append_assoc.
        -- exfalso. rewrite E1, all_chars_app in Hl. apply andb_true_iff in Hl as [_ He].
           assert (Hp : all_chars nn ((String e0 e ++ "IN IP4 ") ++ String b "") = true).
           { rewrite !all_chars_app, He. simpl. now rewrite Hb. }
           assert (E3 : ((String e0 e ++ "IN IP4 ") ++ String b "") ++ x
                        = ("IN IP4 " ++ a) ++ origin a r).
           { rewrite !append_assoc. rewrite E2. reflexivity. }
           destruct (line_prefix _ _ _ _ Hp (origin_eol a r Hr) E3) as [e2 He2].
           rewrite !append_assoc in He2.
           pose proof (address_literal_once _ _ _ Ha He2). discriminate.
    + rewrite origin_nomatch in H by exact E. destruct l as [|c' l].
      * exists b, (drop 8 (String c s)). split; [exact Hb|].
        change ("" ++ "IN IP4 " ++ String b x) with ("IN IP4 " ++ String b x) in H.
        rewrite <- (take_drop 8 (String c s)) at 1.
        change ("" ++ "IN IP4 " ++ String b (drop 8 (String c s)))
          with (("IN IP4 " ++ String b "") ++ drop 8 (String c s)).
        f_equal. rewrite take_cons, <- (origin_window a s 7) by lia.
        rewrite <- take_cons, H. reflexivity.
      * change (String c' l ++ "IN IP4 " ++ String b x)
          with (String c' (l ++ "IN IP4 " ++ String b x)) in H.
        injection H as <- H. simpl in Hl. apply andb_true_iff in Hl as [_ Hl].
        destruct (IH l Hl Hb H) as (b1 & x1 & Hb1 & ->). exists b1, x1. auto.
Qed.

(** The pass starts no origin line. *)
Lemma o_match_origin_back a c s :
  all_chars ns a = true ->
  o_match (String c s) = None -> o_match (String c (origin a s)) = None.
Proof.
  intros Ha N. destruct (o_match (String c (origin a s))) as [r|] eqn:E; [exfalso|reflexivity].
  apply o_match_inv in E as (w & b & x & Hw & Hb & E & _).
  pose proof (o_prefix_nn w Hw) as Hn.
  destruct w as [|c' l]; [destruct Hw as (? & ? & ? & ? & _); discriminate|].
  change (String c' l ++ "IN IP4 " ++ String b x)
    with (String c' (l ++ "IN IP4 " ++ String b x)) in E.
  injection E as <- E. simpl in Hn. apply andb_true_iff in Hn as [_ Hn].
  destruct (origin_address_back a s l b x Ha Hn Hb E) as (b1 & x1 & Hb1 & ->).
  change (String c (l ++ "IN IP4 " ++ String b1 x1))
    with (String c l ++ "IN IP4 " ++ String b1 x1) in N.
  rewrite o_match_intro in N by assumption. discriminate.
Qed.

(** The origin pass changes nothing the second time. *)
Lemma origin_idem a s :
  a <> "" -> all_chars ns a = true -> origin a (origin a s) = origin a s.
Proof.
  intros Hne Ha. induction s as [s IH] using string_length_ind.
  destruct s as [|c s]; [now rewrite !origin_nil|].
  destruct (o_match (String c s)) as [r|] eqn:E.
  - destruct (origin_match a _ _ E) as (m & Es & Hm & HT & Hr & Hlen & _ & Eo).
    rewrite Eo. rewrite origin_settled; auto using origin_eol, before_T_nn, first_before.
    now rewrite IH.
  - rewrite origin_nomatch by exact E.
    rewrite origin_nomatch by now apply o_match_origin_back.
    f_equal. apply IH. simpl. lia.
Qed.

(** A text the connection pass leaves alone is left alone after the
    origin pass too. *)
Lemma connection_after_origin a y :
  a <> "" -> all_chars ns a = true ->
  connection a y = y -> connection a (origin a y) = origin a y.
Proof.
  intros Hne Ha. pose proof (all_ns_nn _ Ha) as Han.
  induction y as [y IH] using string_length_ind. intros Hy.
  destruct y as [|c y]; [now rewrite origin_nil, connection_nil|].
  destruct (o_match (String c y)) as [r|] eqn:E.
  - destruct (origin_match a _ _ E) as (m & Es & Hm & HT & Hr & Hlen & _ & Eo).
    rewrite Eo.
    rewrite connection_settled; auto using origin_eol, first_before.
    rewrite IH; [reflexivity|exact Hlen|].
    rewrite Es, connection_app_eol in Hy by exact Hr.
    apply line_split_unique in Hy; auto using connection_nn, connection_eol.
    now destruct Hy.
  - rewrite origin_nomatch by exact E.
    destruct (c_match (String c y)) as [r|] eqn:C.
    + apply lit_then_inv in C as (b & x & C & Hb & ->).
      rewrite C in Hy. rewrite connection_match in Hy by exact Hb.
      apply append_cancel_l in Hy.
      assert (Hy' : a ++ connection a (skip nn x) = String b (span nn x) ++ skip nn x).
      { rewrite Hy. change (String b x = String b (span nn x ++ skip nn x)).
        now rewrite span_skip. }
      apply line_split_unique in Hy';
        [|auto|simpl; now rewrite Hb, all_chars_span
         |apply connection_eol, eol_skip_nn|apply eol_skip_nn].
      destruct Hy' as [Ea Er].
      assert (Ey : String c y = "c=" ++ "IN IP4 " ++ a ++ skip nn x).
      { rewrite C, <- Hy, Er. reflexivity. }
      rewrite <- origin_nomatch by exact E. rewrite Ey.
      rewrite origin_settled; auto using eol_skip_nn.
      rewrite connection_settled; auto using origin_eol, eol_skip_nn.
      rewrite IH; [reflexivity| |exact Er].
      rewrite C, length_append. simpl. pose proof (length_skip nn x). lia.
    + rewrite connection_nomatch in Hy by exact C. injection Hy as Hy.
      rewrite connection_nomatch.
      * f_equal. apply IH; [simpl; lia|exact Hy].
      * revert C. apply (lit_then_window "c=IN IP4 " nn).
        change (String.length "c=IN IP4 " + 1) with (S 9). rewrite !take_cons. f_equal.
        symmetry. now apply origin_window.
Qed.

End OriginAgain.

(** ** SDP rewriter: the audio pass *)

Section AudioFacts.
Import Js Regex Wire Scan RtpProxy Pass.

Lemma digit_port_char c : is_digit c = true -> port_char c = true.
Proof. unfold port_char. now intros ->. Qed.

Lemma port_text_chars p : port_text p -> all_chars port_char p = true.
Proof.
  intros (ds & _ & Hd & [-> | ->]).
  - now apply (all_chars_impl is_digit), Hd; apply digit_port_char.
  - simpl. now apply (all_chars_impl is_digit), Hd; apply digit_port_char.
Qed.

Lemma port_text_nonempty p : port_text p -> p <> "".
Proof. intros (ds & Hne & _ & [-> | ->]); [exact Hne|discriminate]. Qed.

Lemma port_char_cases c : port_char c = true -> is_digit c = true \/ c = "-"%char.
Proof.
  unfold port_char. intros H. apply orb_true_iff in H as [H|H]; [now left|].
  right. now apply Ascii.eqb_eq.
Qed.

Lemma digit_not (h : ascii) c :
  is_digit h = false -> is_digit c = true -> negb (Ascii.eqb h c) = true.
Proof.
  intros Hh Hc. destruct (Ascii.eqb_spec h c) as [->|]; [congruence|reflexivity].
Qed.

Lemma port_char_not (h : ascii) c :
  port_char h = false -> port_char c = true -> negb (Ascii.eqb h c) = true.
Proof.
  intros Hh Hc. destruct (Ascii.eqb_spec h c) as [->|]; [congruence|reflexivity].
Qed.

Lemma port_chars_free (h : ascii) q :
  port_char h = false -> all_chars port_char q = true ->
  all_chars (fun c => negb (Ascii.eqb h c)) q = true.
Proof. intros Hh. apply all_chars_impl. intros c. now apply port_char_not. Qed.

Lemma port_chars_ns q : all_chars port_char q = true -> all_chars ns q = true.
Proof.
  apply all_chars_impl. intros c H. destruct (port_char_cases c H) as [Hd| ->].
  - now apply digit_no_space.
  - reflexivity.
Qed.

Lemma m_match_eol t : eol t = true -> m_match t = None.
Proof.
  destruct t as [|d t]; [reflexivity|]. simpl. intros H.
  apply lit_then_head. now apply newline_other.
Qed.

Lemma audio_eol_step p t :
  eol t = true ->
  audio p t = match t with "" => "" | String d t' => String d (audio p t') end.
Proof.
  intros H. destruct t as [|d t]; [apply audio_nil|].
  apply audio_nomatch. now apply m_match_eol.
Qed.

Lemma audio_eol p t : eol t = true -> eol (audio p t) = true.
Proof. intros H. rewrite audio_eol_step by exact H. destruct t; auto. Qed.

Lemma audio_window p s n : n <= 8 -> take n (audio p s) = take n s.
Proof.
  revert n. induction s as [|c s IH]; intros n Hn; [now rewrite audio_nil|].
  destruct (m_match (String c s)) as [r|] eqn:E.
  - apply lit_then_inv in E as (b & x & E & Hb & _). rewrite E, audio_match by exact Hb.
    rewrite !take_app_le by (simpl; lia). reflexivity.
  - rewrite audio_nomatch by exact E. destruct n as [|n]; [reflexivity|].
    simpl. f_equal. apply IH. lia.
Qed.

Lemma audio_head p s :
  match s with String b _ => is_digit b = false | "" => True end ->
  match audio p s with String b _ => is_digit b = false | "" => True end.
Proof.
  intros H. pose proof (audio_window p s 1 ltac:(lia)) as W.
  destruct s as [|b s].
  - now rewrite audio_nil.
  - destruct (audio p (String b s)) as [|b' s']; [exact I|].
    simpl in W. injection W as ->. exact H.
Qed.

Lemma m_match_token u t c w1 w2 :
  all_chars ns u = true -> eol t = true -> u = w1 ++ String c w2 ->
  m_match (String c w2 ++ t) = None.
Proof.
  intros Hu Ht E. destruct (m_match (String c w2 ++ t)) as [r|] eqn:M; [exfalso|reflexivity].
  apply lit_then_inv in M as (b & x & M & _ & _). symmetry in M.
  change ("m=audio " ++ String b x) with ("m=audio " ++ String b x) in M.
  destruct (line_prefix "m=audio " _ _ _ eq_refl Ht M) as [e He].
  rewrite He in E. apply (space_in_token u e (w1 ++ "m=audio") Hu).
  rewrite E, append_assoc. reflexivity.
Qed.

Lemma audio_token p u t :
  all_chars ns u = true -> eol t = true -> audio p (u ++ t) = u ++ audio p t.
Proof.
  intros Hu Ht. apply replace_all_pass. intros c w1 w2 E.
  rewrite exec_audio, (m_match_token u t c w1 w2 Hu Ht E). reflexivity.
Qed.

(** The audio pass works on both sides of a character that is neither a
    digit nor a character of its literal. *)
Lemma audio_app_break p w z :
  match z with
  | String c _ =>
      is_digit c = false /\ all_chars (fun x => negb (Ascii.eqb x c)) "m=audio " = true
  | "" => True
  end ->
  audio p (w ++ z) = audio p w ++ audio p z.
Proof.
  intros Hz. induction w as [w IH] using string_length_ind.
  destruct w as [|c w]; [now rewrite audio_nil|].
  destruct (m_match (String c w)) as [r|] eqn:E.
  - apply lit_then_inv in E as (b & x & E & Hb & _). rewrite E, append_assoc.
    change (String b x ++ z) with (String b (x ++ z)).
    rewrite !audio_match by exact Hb.
    rewrite skip_app_stop by (destruct z; [exact I|apply Hz]).
    rewrite IH, !append_assoc; [reflexivity|].
    rewrite E, length_append. simpl. pose proof (length_skip is_digit x). lia.
  - change (String c w ++ z) with (String c (w ++ z)).
    rewrite audio_nomatch
      by (apply (lit_then_app_none "m=audio " is_digit (String c w));
          [discriminate|exact Hz|exact E]).
    rewrite audio_nomatch by exact E. simpl. f_equal. apply IH. simpl. lia.
Qed.

Lemma audio_app_eol p w t : eol t = true -> audio p (w ++ t) = audio p w ++ audio p t.
Proof.
  intros Ht. apply audio_app_break. destruct t as [|d t]; [exact I|]. simpl in Ht.
  destruct (newline_cases d Ht) as [-> | ->]; split; reflexivity.
Qed.

Lemma audio_app_address p w z :
  audio p (w ++ "IN IP4 " ++ z) = audio p w ++ "IN IP4 " ++ audio p z.
Proof.
  rewrite audio_app_break by (split; reflexivity).
  now rewrite (audio_free p "IN IP4 ") by reflexivity.
Qed.

(** The pass after its own replacement. *)
Lemma audio_out p z :
  port_text p ->
  match z with String b _ => is_digit b = false | "" => True end ->
  audio p ("m=audio " ++ p ++ z) = "m=audio " ++ p ++ audio p z.
Proof.
  intros (ds & Hne & Hd & [-> | ->]) Hz.
  - destruct ds as [|d0 ds]; [congruence|]. simpl in Hd.
    apply andb_true_iff in Hd as [H0 Hd].
    change (String d0 ds ++ z) with (String d0 (ds ++ z)).
    rewrite audio_match by exact H0.
    rewrite skip_app_all by exact Hd. rewrite skip_stop by exact Hz. reflexivity.
  - change ("m=audio " ++ ("-" ++ ds) ++ z) with (String "m" ("=audio -" ++ ds ++ z)).
    rewrite audio_nomatch by reflexivity.
    rewrite <- append_assoc, audio_free.
    + now rewrite append_assoc.
    + rewrite all_chars_app. apply andb_true_iff. split; [reflexivity|].
      revert Hd. apply all_chars_impl. intros c. now apply digit_not.
Qed.

(** The audio pass changes nothing the second time. *)
Lemma audio_idem p s : port_text p -> audio p (audio p s) = audio p s.
Proof.
  intros Hp. induction s as [s IH] using string_length_ind.
  destruct s as [|c s]; [now rewrite !audio_nil|].
  destruct (m_match (String c s)) as [r|] eqn:E.
  - apply lit_then_inv in E as (b & x & E & Hb & _). rewrite E.
    rewrite audio_match by exact Hb.
    rewrite audio_out by (auto; apply audio_head, skip_head).
    rewrite IH; [reflexivity|]. rewrite E, length_append. simpl.
    pose proof (length_skip is_digit x). lia.
  - rewrite audio_nomatch by exact E.
    rewrite audio_nomatch.
    + f_equal. apply IH. simpl. lia.
    + revert E. apply (lit_then_window "m=audio " is_digit).
      change (String.length "m=audio " + 1) with (S 8). rewrite !take_cons. f_equal.
      symmetry. now apply audio_window.
Qed.

Lemma audio_nn p w :
  all_chars nn p = true -> all_chars nn w = true -> all_chars nn (audio p w) = true.
Proof.
  intros Hp. induction w as [w IH] using string_length_ind. intros Hw.
  destruct w as [|c w]; [now rewrite audio_nil|].
  destruct (m_match (String c w)) as [r|] eqn:E.
  - apply lit_then_inv in E as (b & x & E & Hb & _). rewrite E in *.
    rewrite audio_match by exact Hb.
    rewrite all_chars_app in Hw. apply andb_true_iff in Hw as [_ Hw]. simpl in Hw.
    apply andb_true_iff in Hw as [_ Hw].
    rewrite <- (span_skip is_digit x), all_chars_app in Hw.
    apply andb_true_iff in Hw as [_ Hw].
    rewrite !all_chars_app, Hp, IH; [reflexivity| |exact Hw].
    rewrite length_append. simpl. pose proof (length_skip is_digit x). lia.
  - rewrite audio_nomatch by exact E. simpl in *.
    apply andb_true_iff in Hw as [Hc Hw]. rewrite Hc, IH; auto.
Qed.

End AudioFacts.

(** ** SDP rewriter: the audio pass after the other two *)

Section AudioAfter.
Import Js Regex Wire Scan RtpProxy Pass.

Lemma startsWith_window l s s' :
  take (String.length l) s = take (String.length l) s' -> startsWith l s = startsWith l s'.
Proof.
  revert s s'. induction l as [|a l IH]; intros s s' H; [reflexivity|].
  destruct s as [|c s], s' as [|c' s']; simpl in H; try discriminate; [reflexivity|].
  injection H as <- H. cbn [startsWith]. now rewrite (IH s s').
Qed.

Lemma lit_then_eol l t : eol t = true -> lit_then l nn (l ++ t) = None.
Proof.
  intros Ht. unfold lit_then. rewrite startsWith_app_same, drop_app_length.
  destruct t as [|b t]; [reflexivity|]. simpl in Ht. unfold nn. now rewrite Ht.
Qed.

Lemma lit_then_eol_inv l z : lit_then l nn (l ++ z) = None -> eol z = true.
Proof.
  unfold lit_then. rewrite startsWith_app_same, drop_app_length.
  destruct z as [|b z]; [reflexivity|]. simpl. unfold nn.
  destruct (is_newline b); [reflexivity|discriminate].
Qed.

(** The audio pass starts no connection line. *)
Lemma c_match_audio p c y :
  c_match (String c y) = None -> c_match (String c (audio p y)) = None.
Proof.
  unfold c_match. change "c=IN IP4 " with (String "c" "=IN IP4 "). rewrite !lit_then_cons.
  destruct (Ascii.eqb "c" c); [|reflexivity]. intros H.
  destruct (startsWith "=IN IP4 " y) eqn:S.
  - apply startsWith_app in S. change (String.length "=IN IP4 ") with 8 in S.
    rewrite S in *. apply lit_then_eol_inv in H.
    rewrite audio_free by reflexivity. apply lit_then_eol. now apply audio_eol.
  - unfold lit_then.
    rewrite (startsWith_window "=IN IP4 " (audio p y) y), S; [reflexivity|].
    now apply audio_window.
Qed.

Lemma connection_over_audio a q z :
  all_chars port_char q = true ->
  connection a ("m=audio " ++ q ++ z) = "m=audio " ++ q ++ connection a z.
Proof.
  intros Hq. rewrite <- append_assoc, connection_free; [now rewrite append_assoc|].
  rewrite all_chars_app. apply andb_true_iff. split; [reflexivity|].
  now apply port_chars_free.
Qed.

Lemma origin_over_audio a q z :
  all_chars port_char q = true ->
  origin a ("m=audio " ++ q ++ z) = "m=audio " ++ q ++ origin a z.
Proof.
  intros Hq.
  change ("m=audio " ++ q ++ z) with ("m=audi" ++ String "o" ((" " ++ q) ++ z)).
  rewrite origin_free by reflexivity.
  rewrite origin_nomatch by reflexivity.
  rewrite origin_free; [reflexivity|].
  rewrite all_chars_app. apply andb_true_iff. split; [reflexivity|].
  now apply port_chars_free.
Qed.

Lemma digits_port_chars ds : all_chars is_digit ds = true -> all_chars port_char ds = true.
Proof. apply all_chars_impl, digit_port_char. Qed.

(** A text the connection pass leaves alone is left alone after the audio
    pass too. *)
Lemma connection_after_audio a p y :
  a <> "" -> all_chars ns a = true -> port_text p ->
  connection a y = y -> connection a (audio p y) = audio p y.
Proof.
  intros Hne Ha Hp. pose proof (all_ns_nn _ Ha) as Han.
  pose proof (port_text_chars p Hp) as Hpc.
  induction y as [y IH] using string_length_ind. intros Hy.
  destruct y as [|c y]; [now rewrite audio_nil, connection_nil|].
  destruct (c_match (String c y)) as [r|] eqn:C.
  - apply lit_then_inv in C as (b & x & C & Hb & ->).
    rewrite C in Hy. rewrite connection_match in Hy by exact Hb.
    apply append_cancel_l in Hy.
    assert (Hy' : a ++ connection a (skip nn x) = String b (span nn x) ++ skip nn x).
    { rewrite Hy. change (String b x = String b (span nn x ++ skip nn x)).
      now rewrite span_skip. }
    apply line_split_unique in Hy';
      [|auto|simpl; now rewrite Hb, all_chars_span
       |apply connection_eol, eol_skip_nn|apply eol_skip_nn].
    destruct Hy' as [Ea Er].
    assert (Ey : String c y = "c=IN IP4 " ++ a ++ skip nn x)
      by (rewrite C, <- Hy, Er; reflexivity).
    rewrite Ey. rewrite audio_free by reflexivity.
    rewrite audio_token by (auto using eol_skip_nn).
    rewrite connection_line by (auto using audio_eol, eol_skip_nn).
    rewrite IH; [reflexivity| |exact Er].
    rewrite C, length_append. simpl. pose proof (length_skip nn x). lia.
  - destruct (m_match (String c y)) as [r|] eqn:M.
    + apply lit_then_inv in M as (d & x & M & Hd & ->).
      assert (Ey : String c y = "m=audio " ++ String d (span is_digit x) ++ skip is_digit x).
      { rewrite M. change (String d (span is_digit x) ++ skip is_digit x)
          with (String d (span is_digit x ++ skip is_digit x)). now rewrite span_skip. }
      assert (Hds : all_chars port_char (String d (span is_digit x)) = true).
      { apply digits_port_chars. simpl. now rewrite Hd, all_chars_span. }
      rewrite Ey in Hy. rewrite connection_over_audio in Hy by exact Hds.
      do 2 apply append_cancel_l in Hy.
      rewrite M, audio_match by exact Hd.
      rewrite connection_over_audio by exact Hpc.
      rewrite IH; [reflexivity| |exact Hy].
      rewrite M, length_append. simpl. pose proof (length_skip is_digit x). lia.
    + rewrite connection_nomatch in Hy by exact C. injection Hy as Hy.
      rewrite audio_nomatch by exact M.
      rewrite connection_nomatch by now apply c_match_audio.
      f_equal. apply IH; [simpl; lia|exact Hy].
Qed.

Lemma has_T_free w z :
  all_chars (fun c => negb (Ascii.eqb "I" c)) w = true -> has_T (w ++ z) = has_T z.
Proof.
  induction w as [|c w IH]; [reflexivity|]. cbn [all_chars]. intros H.
  apply andb_true_iff in H as [Hc Hw]. apply negb_true_iff in Hc.
  change (has_T (String c (w ++ z)) = has_T z).
  rewrite has_T_step. unfold a_match. rewrite lit_then_head by exact Hc. auto.
Qed.

(** The audio pass makes no address. *)
Lemma has_T_audio p s : port_text p -> has_T s = false -> has_T (audio p s) = false.
Proof.
  intros Hp. pose proof (port_text_chars p Hp) as Hpc.
  induction s as [s IH] using string_length_ind. intros Hs.
  destruct s as [|c s]; [now rewrite audio_nil|].
  destruct (m_match (String c s)) as [r|] eqn:M.
  - apply lit_then_inv in M as (d & x & M & Hd & _).
    rewrite M, audio_match by exact Hd.
    rewrite <- append_assoc, has_T_free.
    + apply IH.
      * rewrite M, length_append. simpl. pose proof (length_skip is_digit x). lia.
      * rewrite M in Hs. rewrite <- (span_skip is_digit x) in Hs.
        replace ("m=audio " ++ String d (span is_digit x ++ skip is_digit x))
          with (("m=audio " ++ String d (span is_digit x)) ++ skip is_digit x) in Hs
          by now rewrite append_assoc.
        exact (has_T_suffix _ _ Hs).
    + rewrite all_chars_app. apply andb_true_iff. split; [reflexivity|].
      now apply port_chars_free.
  - rewrite audio_nomatch by exact M. apply has_T_cons in Hs as [Ha Hs].
    rewrite has_T_step, IH; [|simpl; lia|exact Hs].
    replace (a_match (String c (audio p s))) with (@None string); [reflexivity|].
    symmetry. revert Ha. apply a_match_window. rewrite !take_cons. f_equal.
    symmetry. apply audio_window. lia.
Qed.

(** The audio pass over a run without white space. *)
Lemma audio_token_split p z :
  (skip ns z = "" /\ audio p z = z)
  \/ exists w t r', skip ns z = String w t /\ resumed p t r'
                    /\ audio p z = span ns z ++ String w r'.
Proof.
  induction z as [|c z IH]; [left; now rewrite audio_nil|].
  destruct (ns c) eqn:Hc.
  - destruct (m_match (String c z)) as [r|] eqn:M.
    + apply lit_then_inv in M as (d & x & M & Hd & _). right.
      exists " "%char, (String d x), (p ++ audio p (skip is_digit x)).
      rewrite M, audio_match by exact Hd. repeat split.
      right. exists d, x. auto.
    + rewrite audio_nomatch by exact M. cbn [skip span]. rewrite Hc.
      destruct IH as [[H1 H2]|(w & t & r' & H1 & H2 & H3)].
      * left. now rewrite H2.
      * right. exists w, t, r'. repeat split; auto. now rewrite H3.
  - right. exists c, z, (audio p z). cbn [skip span]. rewrite Hc. repeat split.
    + now left.
    + apply audio_nomatch. apply lit_then_head.
      destruct (Ascii.eqb_spec "m" c) as [<-|]; [discriminate Hc|reflexivity].
Qed.

Lemma ns_split_unique u1 w1 r1 u2 w2 r2 :
  all_chars ns u1 = true -> all_chars ns u2 = true -> ns w1 = false -> ns w2 = false ->
  u1 ++ String w1 r1 = u2 ++ String w2 r2 -> u1 = u2 /\ w1 = w2 /\ r1 = r2.
Proof.
  revert u2. induction u1 as [|c u1 IH]; intros u2 H1 H2 W1 W2 H.
  - destruct u2 as [|c' u2].
    + injection H as -> ->. auto.
    + simpl in *. injection H as -> _. apply andb_true_iff in H2 as [H2 _]. congruence.
  - destruct u2 as [|c' u2].
    + simpl in *. injection H as -> _. apply andb_true_iff in H1 as [H1 _]. congruence.
    + simpl in *. injection H as -> H.
      apply andb_true_iff in H1 as [_ H1]. apply andb_true_iff in H2 as [_ H2].
      destruct (IH u2 H1 H2 W1 W2 H) as (-> & -> & ->). auto.
Qed.

Lemma skip_nil_all p s : skip p s = "" -> all_chars p s = true.
Proof.
  intros H. pose proof (span_skip p s) as E. rewrite H, append_nil_r in E.
  rewrite <- E. apply all_chars_span.
Qed.

(** A run and a space in the passed text were a run and a space before. *)
Lemma resumed_token p z z' u' r' :
  port_text p -> resumed p z z' -> z' = u' ++ String " " r' -> all_chars ns u' = true ->
  exists u r, z = u ++ String " " r /\ all_chars ns u = true /\ (u' <> "" -> u <> "")
              /\ resumed p r r'.
Proof.
  intros Hp [->|(d & x & -> & Hd & ->)] E Hu'.
  - destruct (audio_token_split p z) as [[H1 H2]|(w & t & r0 & H1 & H2 & H3)].
    + exfalso. rewrite H2 in E. apply skip_nil_all in H1.
      exact (space_in_token z r' u' H1 E).
    + rewrite H3 in E. pose proof (skip_head ns z) as Hw. rewrite H1 in Hw.
      apply ns_split_unique in E; auto using all_chars_span.
      destruct E as (Eu & -> & ->). exists u', t. repeat split; auto.
      rewrite <- (span_skip ns z), H1, Eu. reflexivity.
  - set (z2 := skip is_digit x) in *.
    assert (Hds : all_chars ns (String d (span is_digit x)) = true).
    { apply port_chars_ns, digits_port_chars. simpl. now rewrite Hd, all_chars_span. }
    pose proof (port_chars_ns p (port_text_chars p Hp)) as Hpn.
    destruct (audio_token_split p z2) as [[H1 H2]|(w & t & r0 & H1 & H2 & H3)].
    + exfalso. rewrite H2 in E. apply skip_nil_all in H1.
      apply (space_in_token (p ++ z2) r' u'); [|exact E].
      now rewrite all_chars_app, Hpn, H1.
    + rewrite H3, <- append_assoc in E. pose proof (skip_head ns z2) as Hw.
      rewrite H1 in Hw.
      apply ns_split_unique in E; auto;
        [|now rewrite all_chars_app, Hpn, all_chars_span].
      destruct E as (Eu & -> & ->).
      exists (String d (span is_digit x) ++ span ns z2), t. repeat split; auto.
      * rewrite append_assoc, <- H1, span_skip. unfold z2.
        change (String d x = String d (span is_digit x ++ skip is_digit x)).
        now rewrite span_skip.
      * rewrite all_chars_app, Hds, all_chars_span. reflexivity.
      * discriminate.
Qed.

Lemma resumed_address p z z' b x :
  port_text p -> resumed p z z' -> z' = "IN IP4 " ++ String b x ->
  exists x1, z = "IN IP4 " ++ String b x1.
Proof.
  intros Hp [->|(d & y & -> & Hd & ->)] E.
  - exists (drop 8 z). rewrite <- (take_drop 8 z) at 1.
    change ("IN IP4 " ++ String b (drop 8 z)) with (("IN IP4 " ++ String b "") ++ drop 8 z).
    f_equal. rewrite <- (audio_window p z 8), E by lia. reflexivity.
  - exfalso. pose proof (port_text_chars p Hp) as Hc.
    destruct p as [|p0 p]; [exact (port_text_nonempty _ Hp eq_refl)|].
    simpl in E, Hc. injection E as -> _. discriminate Hc.
Qed.

(** The audio pass starts no origin line. *)
Lemma o_match_audio_back p c s :
  port_text p ->
  o_match (String c s) = None -> o_match (String c (audio p s)) = None.
Proof.
  intros Hp N.
  destruct (o_match (String c (audio p s))) as [r|] eqn:E; [exfalso|reflexivity].
  apply o_match_inv in E
    as (w & b & x & (u' & s' & v' & -> & Hu & Hs & Hv & Hau & Has & Hav) & Hb & E & _).
  rewrite !append_assoc in E.
  change ("o=" ++ ?z) with (String "o" (String "=" z)) in E.
  injection E as -> E.
  pose proof (audio_window p s 1 ltac:(lia)) as W. rewrite E in W.
  destruct s as [|e s]; [discriminate W|]. simpl in W. injection W as <-.
  rewrite audio_nomatch in E by reflexivity. injection E as E.
  change (" " ++ ?z) with (String " " z) in E.
  destruct (resumed_token p s _ u' _ Hp (or_introl eq_refl) E Hau)
    as (u & r1 & -> & Hu1 & Hu2 & R1).
  destruct (resumed_token p r1 _ s' _ Hp R1 eq_refl Has)
    as (s2 & r2 & -> & Hs1 & Hs2 & R2).
  destruct (resumed_token p r2 _ v' _ Hp R2 eq_refl Hav)
    as (v & r3 & -> & Hv1 & Hv2 & R3).
  destruct (resumed_address p r3 _ b x Hp R3 eq_refl) as (x1 & ->).
  assert (O : o_prefix ("o=" ++ u ++ " " ++ s2 ++ " " ++ v ++ " ")).
  { exists u, s2, v. repeat split; auto. }
  pose proof (o_match_intro _ b x1 O Hb) as M.
  enough (X : Some (skip nn x1) = None) by discriminate.
  rewrite <- N, <- M. f_equal. now rewrite !append_assoc.
Qed.

(** A text the origin pass leaves alone is left alone after the audio
    pass too. *)
Lemma origin_after_audio a p y :
  a <> "" -> all_chars ns a = true -> port_text p ->
  origin a y = y -> origin a (audio p y) = audio p y.
Proof.
  intros Hne Ha Hp. pose proof (all_ns_nn _ Ha) as Han.
  pose proof (port_text_chars p Hp) as Hpc.
  pose proof (all_ns_nn _ (port_chars_ns p Hpc)) as Hpn.
  induction y as [y IH] using string_length_ind. intros Hy.
  destruct y as [|c y]; [now rewrite audio_nil, origin_nil|].
  destruct (o_match (String c y)) as [r|] eqn:E.
  - destruct (origin_match a _ _ E) as (m & Es & Hm & HT & Hr & Hlen & _ & Eo).
    rewrite Eo in Hy. rewrite Es in Hy.
    replace (before_T m ++ "IN IP4 " ++ a ++ origin a r)
      with ((before_T m ++ "IN IP4 " ++ a) ++ origin a r) in Hy
      by now rewrite !append_assoc.
    apply line_split_unique in Hy; auto using origin_eol;
      [|rewrite !all_chars_app, before_T_nn, Han by exact Hm; reflexivity].
    destruct Hy as [Em Er].
    rewrite Es, <- Em, !append_assoc.
    rewrite audio_app_address, audio_token by assumption.
    rewrite origin_settled; auto using audio_eol, audio_nn, before_T_nn.
    + rewrite IH; auto.
    + replace (audio p (before_T m) ++ "IN IP4 ") with (audio p (before_T m ++ "IN IP4 ")).
      * apply has_T_audio; auto using first_before.
      * rewrite <- (append_nil_r "IN IP4 ") at 1.
        rewrite audio_app_address, audio_nil. now rewrite append_nil_r.
  - rewrite origin_nomatch in Hy by exact E. injection Hy as Hy.
    destruct (m_match (String c y)) as [r|] eqn:M.
    + apply lit_then_inv in M as (d & x & M & Hd & ->).
      assert (Ey : String c y = "m=audio " ++ String d (span is_digit x) ++ skip is_digit x).
      { rewrite M. change (String d (span is_digit x) ++ skip is_digit x)
          with (String d (span is_digit x ++ skip is_digit x)). now rewrite span_skip. }
      assert (Hds : all_chars port_char (String d (span is_digit x)) = true).
      { apply digits_port_chars. simpl. now rewrite Hd, all_chars_span. }
      assert (Hy' : origin a (String c y) = String c y)
        by (rewrite origin_nomatch by exact E; now rewrite Hy).
      rewrite Ey in Hy'. rewrite origin_over_audio in Hy' by exact Hds.
      do 2 apply append_cancel_l in Hy'.
      rewrite M, audio_match by exact Hd.
      rewrite origin_over_audio by exact Hpc.
      rewrite IH; [reflexivity| |exact Hy'].
      rewrite M, length_append. simpl. pose proof (length_skip is_digit x). lia.
    + rewrite audio_nomatch by exact M.
      rewrite origin_nomatch by now apply o_match_audio_back.
      f_equal. apply IH; [simpl; lia|exact Hy].
Qed.

End AudioAfter.

(** ** SDP rewriter: the three passes together *)

Section Rewriter.
Import Js Regex Wire Scan RtpProxy Pass.

Lemma string_of_uint_nonempty d : d <> Decimal.Nil -> NilEmpty.string_of_uint d <> "".
Proof. destruct d; simpl; congruence. Qed.

Lemma port_text_pos q : port_text (NilEmpty.string_of_uint (Pos.to_uint q)).
Proof.
  exists (NilEmpty.string_of_uint (Pos.to_uint q)). split; [|split].
  - apply string_of_uint_nonempty, DecimalPos.Unsigned.to_uint_nonnil.
  - apply digits_of_uint.
  - now left.
Qed.

(** The text of every port number is the text of a port. *)
Lemma port_text_num z : port_text (num_to_string z).
Proof.
  destruct z as [|q|q].
  - exists "0". repeat split; [discriminate|now left].
  - apply port_text_pos.
  - destruct (port_text_pos q) as (ds & Hne & Hd & [E|E]).
    + exists ds. repeat split; auto. right. unfold num_to_string. now rewrite E.
    + exfalso. pose proof (digits_of_uint (Pos.to_uint q)) as H. rewrite E in H.
      discriminate H.
Qed.

Lemma host_token a : host a -> a <> "" /\ all_chars ns a = true.
Proof.
  intros [Hne Hc]. split; [exact Hne|]. revert Hc. apply all_chars_impl.
  intros c H. unfold host_char in H. now apply andb_true_iff in H as [H _].
Qed.

Lemma modifySdp_passes cfg sdp :
  modifySdp cfg sdp
  = audio (num_to_string (rtp_port cfg))
      (origin (serverAddress cfg) (connection (serverAddress cfg) sdp)).
Proof. reflexivity. Qed.

(** The result of the three passes is left alone by each of them. *)
Lemma passes_settled a p s :
  a <> "" -> all_chars ns a = true -> port_text p ->
  let y := audio p (origin a (connection a s)) in
  connection a y = y /\ origin a y = y /\ audio p y = y.
Proof.
  intros Hne Ha Hp y. unfold y. repeat split.
  - apply connection_after_audio; auto. apply connection_after_origin; auto.
    apply connection_idem; auto using all_ns_nn.
  - apply origin_after_audio; auto. apply origin_idem; auto.
  - apply audio_idem; auto.
Qed.

(** C6. The SDP rewriter is idempotent and depends on the configuration
    through the server's media endpoint only: for a server address that is
    an address token (non-empty, without white space and without [$]) and
    every port number, rewriting a rewritten SDP body changes nothing, and
    two configurations with the same server address and RTP port rewrite
    every body alike. *)
Theorem modifySdp_idempotent (cfg cfg' : Config) (sdp : string) :
  host (serverAddress cfg) ->
  serverAddress cfg' = serverAddress cfg ->
  rtp_port cfg' = rtp_port cfg ->
  modifySdp cfg (modifySdp cfg sdp) = modifySdp cfg sdp
  /\ modifySdp cfg' sdp = modifySdp cfg sdp.
Proof.
  intros Hh Ea Ep. split.
  - destruct (host_token _ Hh) as [Hne Ha].
    rewrite (modifySdp_passes cfg sdp).
    destruct (passes_settled (serverAddress cfg) (num_to_string (rtp_port cfg)) sdp
                Hne Ha (port_text_num _)) as (H1 & H2 & H3).
    rewrite modifySdp_passes, H1, H2, H3. reflexivity.
  - rewrite !modifySdp_passes, Ea, Ep. reflexivity.
Qed.

Lemma modifySdp_idempotent_witness :
  host (serverAddress default_config)
  /\ modifySdp default_config
       (modifySdp default_config
          ("v=0" ++ CRLF ++ "o=alice 1 1 IN IP4 10.0.0.5" ++ CRLF ++ "c=IN IP4 10.0.0.5"
           ++ CRLF ++ "m=audio 4000 RTP/AVP 0" ++ CRLF))
     = modifySdp default_config
         ("v=0" ++ CRLF ++ "o=alice 1 1 IN IP4 10.0.0.5" ++ CRLF ++ "c=IN IP4 10.0.0.5"
          ++ CRLF ++ "m=audio 4000 RTP/AVP 0" ++ CRLF).
Proof.
  split.
  - split; [discriminate|reflexivity].
  - apply (modifySdp_idempotent default_config default_config);
      [split; [discriminate|reflexivity]|reflexivity|reflexivity].
Defined.

End Rewriter.

(** ** RTP relay: routing of packets *)

Section RelayFacts.
Import RtpProxy.

Lemma get_none_filter {V} (m : JsMap.t V) k :
  JsMap.get k m = None -> JsMap.delete k m = m.
Proof.
  induction m as [|[k' v] m IH]; [reflexivity|]. simpl.
  destruct (k' =? k); [discriminate|]. intros H. simpl. f_equal. auto.
Qed.

Lemma delete_set_same {V} (m : JsMap.t V) k v :
  JsMap.get k m = None -> JsMap.delete k (JsMap.set k v m) = m.
Proof.
  induction m as [|[k' v'] m IH]; simpl.
  - now rewrite String.eqb_refl.
  - destruct (k' =? k) eqn:E; [discriminate|]. intros H. simpl. rewrite E. simpl.
    f_equal. auto.
Qed.

Lemma delete_set_other {V} (m : JsMap.t V) k j v :
  j <> k -> JsMap.delete k (JsMap.set j v m) = JsMap.set j v (JsMap.delete k m).
Proof.
  intros Hne. apply String.eqb_neq in Hne.
  induction m as [|[k' v'] m IH]; simpl.
  - now rewrite Hne.
  - destruct (k' =? j) eqn:E; simpl.
    + apply String.eqb_eq in E. subst k'. rewrite Hne. simpl. now rewrite String.eqb_refl.
    + destruct (k' =? k) eqn:E2; simpl; [exact IH|]. rewrite E. f_equal. exact IH.
Qed.

Lemma has_false_get {V} (m : JsMap.t V) k : JsMap.has k m = false -> JsMap.get k m = None.
Proof. unfold JsMap.has. destruct (JsMap.get k m); [discriminate|reflexivity]. Qed.

Lemma has_set_same {V} (m : JsMap.t V) k v : JsMap.has k (JsMap.set k v m) = true.
Proof. unfold JsMap.has. now rewrite get_set_same. Qed.

Lemma In_set {V} (m : JsMap.t V) k v k' v' :
  In (k', v') (JsMap.set k v m) -> (k', v') = (k, v) \/ In (k', v') m.
Proof.
  induction m as [|[j w] m IH]; simpl.
  - intros [H|[]]; auto.
  - destruct (j =? k); simpl; intros [H|H]; auto. destruct (IH H); auto.
Qed.

Lemma set_In {V} (m : JsMap.t V) k v : In (k, v) (JsMap.set k v m).
Proof.
  induction m as [|[j w] m IH]; simpl; [auto|].
  destruct (j =? k); simpl; auto.
Qed.

(** The destination one stream gives to a packet. *)
Lemma route_cons a p k s rest :
  route a p ((k, s) :: rest)
  = match route a p [(k, s)] with Some d => Some d | None => route a p rest end.
Proof.
  simpl. destruct ((a =? fromAddress s) && (p =? fromPort s)%Z); [reflexivity|].
  destruct ((a =? toAddress s) && (p =? toPort s)%Z); reflexivity.
Qed.

Lemma route_none_each a p m k s :
  route a p m = None -> In (k, s) m -> route a p [(k, s)] = None.
Proof.
  induction m as [|[j w] m IH]; [intros _ []|]. rewrite route_cons.
  destruct (route a p [(j, w)]) eqn:E; [discriminate|].
  intros H [[= <- <-]|Hin]; auto.
Qed.

Lemma route_agree a p d m :
  (forall k s, In (k, s) m -> route a p [(k, s)] = None \/ route a p [(k, s)] = Some d) ->
  (exists k s, In (k, s) m /\ route a p [(k, s)] = Some d) ->
  route a p m = Some d.
Proof.
  induction m as [|[j w] m IH]; intros Hall (k & s & Hin & Hs); [destruct Hin|].
  rewrite route_cons. destruct (Hall j w (or_introl eq_refl)) as [E|E]; rewrite E; [|reflexivity].
  apply IH.
  - intros k' s' H. apply Hall. now right.
  - destruct Hin as [[= -> ->]|Hin]; [congruence|]. now exists k, s.
Qed.

Lemma route_one_sound a p k s d :
  route a p [(k, s)] = Some d ->
  (fromAddress s = a /\ fromPort s = p /\ d = (toAddress s, toPort s))
  \/ (toAddress s = a /\ toPort s = p /\ d = (fromAddress s, fromPort s)).
Proof.
  simpl. destruct ((a =? fromAddress s) && (p =? fromPort s)%Z) eqn:E1.
  - apply andb_true_iff in E1 as [Ea Ep]. apply String.eqb_eq in Ea. apply Z.eqb_eq in Ep.
    intros [= <-]. left. auto.
  - destruct ((a =? toAddress s) && (p =? toPort s)%Z) eqn:E2; [|discriminate].
    apply andb_true_iff in E2 as [Ea Ep]. apply String.eqb_eq in Ea. apply Z.eqb_eq in Ep.
    intros [= <-]. right. auto.
Qed.

Lemma route_one_none a p k s :
  route a p [(k, s)] = None <->
  ~ (fromAddress s = a /\ fromPort s = p) /\ ~ (toAddress s = a /\ toPort s = p).
Proof.
  simpl. split.
  - destruct ((a =? fromAddress s) && (p =? fromPort s)%Z) eqn:E1; [discriminate|].
    destruct ((a =? toAddress s) && (p =? toPort s)%Z) eqn:E2; [discriminate|]. intros _.
    split; intros [<- <-]; rewrite String.eqb_refl, Z.eqb_refl in *; discriminate.
  - intros [H1 H2].
    destruct ((a =? fromAddress s) && (p =? fromPort s)%Z) eqn:E1.
    { apply andb_true_iff in E1 as [Ea Ep]. apply String.eqb_eq in Ea.
      apply Z.eqb_eq in Ep. exfalso. apply H1. auto. }
    destruct ((a =? toAddress s) && (p =? toPort s)%Z) eqn:E2; [|reflexivity].
    apply andb_true_iff in E2 as [Ea Ep]. apply String.eqb_eq in Ea.
    apply Z.eqb_eq in Ep. exfalso. apply H2. auto.
Qed.

(** X1. Removing the streams of a call undoes adding them: when neither
    the call-id nor its reverse key is in the table, [removeStream] after
    [addStream] gives the table back, entry for entry. *)
Theorem removeStream_addStream_restores rp id fa fp ta tp :
  JsMap.has id (activeStreams rp) = false ->
  JsMap.has (reverse_key id) (activeStreams rp) = false ->
  removeStream id (addStream id fa fp ta tp rp) = rp.
Proof.
  intros H1 H2. apply has_false_get in H1, H2. destruct rp as [m]. simpl in *.
  unfold removeStream, addStream. cbn [activeStreams]. f_equal.
  assert (Hid : JsMap.has id
            (JsMap.set (reverse_key id)
               {| fromAddress := ta; fromPort := tp; toAddress := fa; toPort := fp |}
               (JsMap.set id
                  {| fromAddress := fa; fromPort := fp; toAddress := ta; toPort := tp |} m))
          = true).
  { unfold JsMap.has. rewrite get_set_other by apply reverse_key_neq.
    now rewrite get_set_same. }
  rewrite Hid.
  rewrite delete_set_other
    by (intros E; symmetry in E; revert E; apply reverse_key_neq).
  rewrite delete_set_same by exact H1.
  rewrite has_set_same. now apply delete_set_same.
Qed.

Lemma removeStream_addStream_restores_witness :
  JsMap.has "call-1" (activeStreams create) = false
  /\ JsMap.has (reverse_key "call-1") (activeStreams create) = false
  /\ removeStream "call-1" (addStream "call-1" "10.0.0.5" 4000 "10.0.0.6" 5000 create)
     = create.
Proof.
  split; [reflexivity|split; [reflexivity|]].
  apply removeStream_addStream_restores; reflexivity.
Defined.

(** X2. The relay forwards a packet only between the two ends of one
    stream: the destination [handleRtpPacket] chooses is the other end of a
    stream of the table one of whose ends is the source. *)
Theorem handleRtpPacket_sound rp a p a' p' :
  handleRtpPacket a p rp = Some (a', p') ->
  exists k s,
    In (k, s) (activeStreams rp)
    /\ ((fromAddress s = a /\ fromPort s = p /\ toAddress s = a' /\ toPort s = p')
        \/ (toAddress s = a /\ toPort s = p /\ fromAddress s = a' /\ fromPort s = p')).
Proof.
  unfold handleRtpPacket. induction (activeStreams rp) as [|[k s] m IH]; [discriminate|].
  rewrite route_cons. destruct (route a p [(k, s)]) as [d|] eqn:E.
  - intros [= ->]. exists k, s. split; [now left|].
    destruct (route_one_sound _ _ _ _ _ E) as [(H1 & H2 & [= <- <-])|(H1 & H2 & [= <- <-])];
      auto.
  - intros H. destruct (IH H) as (k' & s' & Hin & Hs). exists k', s'. split; [now right|auto].
Qed.

Lemma handleRtpPacket_sound_witness :
  handleRtpPacket "10.0.0.6" 5000
    (addStream "call-1" "10.0.0.5" 4000 "10.0.0.6" 5000 create) = Some ("10.0.0.5", 4000%Z)
  /\ exists k s,
       In (k, s) (activeStreams (addStream "call-1" "10.0.0.5" 4000 "10.0.0.6" 5000 create))
       /\ ((fromAddress s = "10.0.0.6" /\ fromPort s = 5000%Z
            /\ toAddress s = "10.0.0.5" /\ toPort s = 4000%Z)
           \/ (toAddress s = "10.0.0.6" /\ toPort s = 5000%Z
               /\ fromAddress s = "10.0.0.5" /\ fromPort s = 4000%Z)).
Proof.
  split; [reflexivity|]. apply handleRtpPacket_sound. reflexivity.
Defined.

(** X3. A packet is dropped exactly when its source is an end of no stream
    of the table. *)
Theorem handleRtpPacket_drops_unknown_source rp a p :
  handleRtpPacket a p rp = None <->
  forall k s, In (k, s) (activeStreams rp) ->
    ~ (fromAddress s = a /\ fromPort s = p) /\ ~ (toAddress s = a /\ toPort s = p).
Proof.
  unfold handleRtpPacket. split.
  - intros H k s Hin. apply (route_one_none a p k s). now apply (route_none_each a p _ k s H).
  - induction (activeStreams rp) as [|[k s] m IH]; [reflexivity|]. intros H.
    rewrite route_cons.
    rewrite (proj2 (route_one_none a p k s) (H k s (or_introl eq_refl))).
    apply IH. intros k' s' Hin. apply (H k' s'). now right.
Qed.

(** X4. After [addStream], media flows both ways: when no stream of the
    table has the caller's or the callee's media endpoint as an end, a
    packet from the caller's endpoint goes to the callee's and a packet from
    the callee's endpoint goes to the caller's. *)
Theorem addStream_relays_both_ways rp id fa fp ta tp :
  handleRtpPacket fa fp rp = None ->
  handleRtpPacket ta tp rp = None ->
  handleRtpPacket fa fp (addStream id fa fp ta tp rp) = Some (ta, tp)
  /\ handleRtpPacket ta tp (addStream id fa fp ta tp rp) = Some (fa, fp).
Proof.
  unfold handleRtpPacket, addStream. cbn [activeStreams]. intros H1 H2.
  set (sf := {| fromAddress := fa; fromPort := fp; toAddress := ta; toPort := tp |}).
  set (sr := {| fromAddress := ta; fromPort := tp; toAddress := fa; toPort := fp |}).
  assert (F1 : forall k, route fa fp [(k, sf)] = Some (ta, tp))
    by (intros k; simpl; now rewrite String.eqb_refl, Z.eqb_refl).
  assert (F2 : forall k, route ta tp [(k, sr)] = Some (fa, fp))
    by (intros k; simpl; now rewrite String.eqb_refl, Z.eqb_refl).
  assert (G1 : forall k, route fa fp [(k, sr)] = Some (ta, tp)).
  { intros k. simpl. destruct ((fa =? ta) && (fp =? tp)%Z) eqn:E.
    - apply andb_true_iff in E as [Ea Ep]. apply String.eqb_eq in Ea.
      apply Z.eqb_eq in Ep. now subst.
    - now rewrite String.eqb_refl, Z.eqb_refl. }
  assert (G2 : forall k, route ta tp [(k, sf)] = Some (fa, fp)).
  { intros k. simpl. destruct ((ta =? fa) && (tp =? fp)%Z) eqn:E.
    - apply andb_true_iff in E as [Ea Ep]. apply String.eqb_eq in Ea.
      apply Z.eqb_eq in Ep. now subst.
    - now rewrite String.eqb_refl, Z.eqb_refl. }
  split; apply route_agree.
  - intros k s Hin. apply In_set in Hin as [[= -> ->]|Hin]; [right; apply G1|].
    apply In_set in Hin as [[= -> ->]|Hin]; [right; apply F1|].
    left. now apply (route_none_each _ _ _ _ _ H1).
  - exists (reverse_key id), sr. split; [apply set_In|apply G1].
  - intros k s Hin. apply In_set in Hin as [[= -> ->]|Hin]; [right; apply F2|].
    apply In_set in Hin as [[= -> ->]|Hin]; [right; apply G2|].
    left. now apply (route_none_each _ _ _ _ _ H2).
  - exists (reverse_key id), sr. split; [apply set_In|apply F2].
Qed.

Lemma addStream_relays_both_ways_witness :
  handleRtpPacket "10.0.0.5" 4000 create = None
  /\ handleRtpPacket "10.0.0.6" 5000 create = None
  /\ handleRtpPacket "10.0.0.5" 4000
       (addStream "call-1" "10.0.0.5" 4000 "10.0.0.6" 5000 create) = Some ("10.0.0.6", 5000%Z)
  /\ handleRtpPacket "10.0.0.6" 5000
       (addStream "call-1" "10.0.0.5" 4000 "10.0.0.6" 5000 create) = Some ("10.0.0.5", 4000%Z).
Proof.
  split; [reflexivity|split; [reflexivity|]].
  apply addStream_relays_both_ways; reflexivity.
Defined.

End RelayFacts.

(** ** Registrar: bindings, expiry and history *)

Section RegistrarFacts.
Import UserManager.

(** Deleting a list of keys. *)
Lemma get_fold_delete {V} (ks : list string) (m : JsMap.t V) k :
  JsMap.get k (fold_left (fun m n => JsMap.delete n m) ks m)
  = if existsb (String.eqb k) ks then None else JsMap.get k m.
Proof.
  revert m. induction ks as [|j ks IH]; intros m; [reflexivity|]. simpl. rewrite IH.
  destruct (String.eqb_spec k j) as [->|Hne]; simpl.
  - rewrite get_delete_same. now destruct (existsb _ ks).
  - rewrite get_delete_other by exact Hne. reflexivity.
Qed.

Lemma NoDup_keys_In {V} (m : JsMap.t V) k v :
  NoDup (JsMap.keys m) -> In (k, v) m -> JsMap.get k m = Some v.
Proof.
  induction m as [|[j w] m IH]; [intros _ []|]. simpl. intros Hnd [H|H].
  - injection H as -> ->. now rewrite String.eqb_refl.
  - inversion Hnd as [|? ? Hnin Hnd']; subst.
    destruct (String.eqb_spec j k) as [->|_].
    + exfalso. apply Hnin. change k with (fst (k, v)). now apply in_map.
    + auto.
Qed.

Lemma selected_keys_In {V} (f : string * V -> bool) (m : JsMap.t V) k :
  existsb (String.eqb k) (map fst (filter f m)) = true ->
  exists v, In (k, v) m /\ f (k, v) = true.
Proof.
  intros H. apply existsb_exists in H as (j & Hin & E).
  apply String.eqb_eq in E. subst j. apply in_map_iff in Hin as ([j v] & Ej & Hin).
  simpl in Ej. subst j. apply filter_In in Hin as [Hin He]. now exists v.
Qed.

Lemma In_selected_keys {V} (f : string * V -> bool) (m : JsMap.t V) k v :
  In (k, v) m -> f (k, v) = true ->
  existsb (String.eqb k) (map fst (filter f m)) = true.
Proof.
  intros Hin He. apply existsb_exists. exists k. split; [|apply String.eqb_refl].
  apply in_map_iff. exists (k, v). split; [reflexivity|]. apply filter_In. auto.
Qed.

Lemma users_addToHistory e um : registeredUsers (addToHistory e um) = registeredUsers um.
Proof. reflexivity. Qed.

(** X5. A registration binds the number to the record [registerUser]
    returns, for [expires] seconds from now, and leaves every other number
    as it was. *)
Theorem registerUser_binds now number uri address port expires um :
  let r := registerUser now number uri address port expires um in
  getUser number (snd r) = Some (fst r)
  /\ UserManager.address (fst r) = address
  /\ UserManager.port (fst r) = port
  /\ expiresAt (fst r) = (now + expires * 1000)%Z
  /\ forall other, other <> number -> getUser other (snd r) = getUser other um.
Proof.
  unfold registerUser, getUser. cbn [fst snd]. rewrite users_addToHistory. cbn [registeredUsers].
  repeat split.
  - apply get_set_same.
  - intros other H. now apply get_set_other.
Qed.

(** X6. The life of a registration: after [registerUser] at time [now],
    [isUserRegistered] at time [t] answers yes exactly up to
    [now + expires * 1000], the last instant included. *)
Theorem registration_lifetime now t number uri address port expires um :
  fst (isUserRegistered t number
         (snd (registerUser now number uri address port expires um)))
  = (t <=? now + expires * 1000)%Z.
Proof.
  unfold isUserRegistered.
  destruct (registerUser_binds now number uri address port expires um)
    as (Hg & _ & _ & He & _).
  unfold getUser in Hg. rewrite Hg, He.
  rewrite Z.gtb_ltb, Z.leb_antisym. now destruct (now + expires * 1000 <? t)%Z.
Qed.

(** X7. Registering a number again counts the registration and keeps the
    time of the first one. *)
Theorem registerUser_again t1 t2 number uri1 uri2 address1 address2 port1 port2 e1 e2 um :
  let r1 := registerUser t1 number uri1 address1 port1 e1 um in
  let r2 := registerUser t2 number uri2 address2 port2 e2 (snd r1) in
  registrationCount (fst r2) = (registrationCount (fst r1) + 1)%Z
  /\ registeredAt (fst r2) = registeredAt (fst r1)
  /\ lastSeen (fst r2) = t2
  /\ UserManager.address (fst r2) = address2.
Proof.
  intros r1 r2.
  destruct (registerUser_binds t1 number uri1 address1 port1 e1 um) as (Hg & _).
  fold r1 in Hg. unfold getUser in Hg. unfold r2, registerUser at 1 2 3 4.
  cbn [fst snd registrationCount registeredAt lastSeen UserManager.address].
  rewrite Hg. auto.
Qed.

(** X8. [unregisterUser] removes the binding of the number, reports whether
    there was one, and leaves every other number as it was. *)
Theorem unregisterUser_removes now number um :
  let r := unregisterUser now number um in
  getUser number (snd r) = None
  /\ fst r = JsMap.has number (registeredUsers um)
  /\ forall other, other <> number -> getUser other (snd r) = getUser other um.
Proof.
  unfold unregisterUser, getUser, JsMap.has.
  destruct (JsMap.get number (registeredUsers um)) as [u|] eqn:E; cbn [fst snd].
  - rewrite users_addToHistory. cbn [registeredUsers]. repeat split.
    + apply get_delete_same.
    + intros other H. now apply get_delete_other.
  - auto.
Qed.

(** X9. The periodic [cleanup] removes the expired bindings and nothing
    else: in a map that holds each number once, a number is bound after the
    tick exactly when it was bound before to a record that has not expired. *)
Theorem cleanup_removes_expired_only now um number :
  NoDup (JsMap.keys (registeredUsers um)) ->
  getUser number (cleanup now um)
  = match getUser number um with
    | Some u => if (now >? expiresAt u)%Z then None else Some u
    | None => None
    end.
Proof.
  intros Hnd. unfold cleanup, getUser. cbn [registeredUsers]. rewrite get_fold_delete.
  destruct (existsb (String.eqb number) _) eqn:E.
  - apply selected_keys_In in E as (u & Hin & He). cbn [snd] in He.
    rewrite (NoDup_keys_In _ _ _ Hnd Hin), He. reflexivity.
  - destruct (JsMap.get number (registeredUsers um)) as [u|] eqn:G; [|reflexivity].
    destruct (now >? expiresAt u)%Z eqn:He; [|reflexivity].
    apply get_In in G.
    rewrite (In_selected_keys (fun kv => (now >? expiresAt (snd kv))%Z) _ _ _ G He) in E.
    discriminate.
Qed.

Lemma cleanup_removes_expired_only_witness :
  NoDup (JsMap.keys (registeredUsers
           (snd (registerUser 0 "101" "sip:101@10.0.0.6" "10.0.0.6" 5062 3600
              (snd (registerUser 0 "100" "sip:100@10.0.0.5" "10.0.0.5" 5061 60 create))))))
  /\ getUser "100"
       (cleanup 60001
          (snd (registerUser 0 "101" "sip:101@10.0.0.6" "10.0.0.6" 5062 3600
             (snd (registerUser 0 "100" "sip:100@10.0.0.5" "10.0.0.5" 5061 60 create)))))
     = match getUser "100"
               (snd (registerUser 0 "101" "sip:101@10.0.0.6" "10.0.0.6" 5062 3600
                  (snd (registerUser 0 "100" "sip:100@10.0.0.5" "10.0.0.5" 5061 60 create))))
       with
       | Some u => if (60001 >? expiresAt u)%Z then None else Some u
       | None => None
       end.
Proof.
  assert (H : NoDup (JsMap.keys (registeredUsers
           (snd (registerUser 0 "101" "sip:101@10.0.0.6" "10.0.0.6" 5062 3600
              (snd (registerUser 0 "100" "sip:100@10.0.0.5" "10.0.0.5" 5061 60 create))))))).
  { cbv. repeat constructor; simpl; intuition discriminate. }
  split; [exact H|]. apply cleanup_removes_expired_only. exact H.
Defined.

Lemma getAllUsers_fold now l users um0 :
  let r := fold_left
    (fun acc kv =>
       let user := snd kv in
       if (now >? expiresAt user)%Z
       then (fst acc,
             {| registeredUsers := JsMap.delete (fst kv) (registeredUsers (snd acc));
                registrationHistory := registrationHistory (snd acc) |})
       else ((fst acc ++ [{| number := fst kv; uri := uri user;
                             address := UserManager.address user;
                             port := UserManager.port user; expires := expires user;
                             expiresAt := expiresAt user; registeredAt := registeredAt user;
                             lastSeen := lastSeen user; status := status user;
                             registrationCount := registrationCount user |}])%list,
             snd acc))
    l (users, um0) in
  registeredUsers (snd r)
  = fold_left (fun m n => JsMap.delete n m)
      (map fst (filter (fun kv => (now >? expiresAt (snd kv))%Z) l)) (registeredUsers um0)
  /\ registrationHistory (snd r) = registrationHistory um0
  /\ (Forall (fun u => (now <=? expiresAt u)%Z = true) users ->
      Forall (fun u => (now <=? expiresAt u)%Z = true) (fst r)).
Proof.
  revert users um0. induction l as [|[k u] l IH]; intros users um0; [cbn; auto|].
  cbn [fold_left filter snd fst].
  destruct (now >? expiresAt u)%Z eqn:E.
  - specialize (IH users
      {| registeredUsers := JsMap.delete k (registeredUsers um0);
         registrationHistory := registrationHistory um0 |}).
    cbn zeta in IH. destruct IH as (H1 & H2 & H3). cbn zeta. repeat split; auto.
  - match goal with
    | |- context [fold_left _ l (?us, um0)] => specialize (IH us um0)
    end.
    cbn zeta in IH. destruct IH as (H1 & H2 & H3). cbn zeta. repeat split; auto.
    intros Hu. apply H3. apply Forall_app. split; [exact Hu|].
    constructor; [|constructor]. cbn [expiresAt].
    rewrite Z.gtb_ltb in E. rewrite Z.leb_antisym, E. reflexivity.
Qed.

(** X10. [getAllUsers] and the periodic [cleanup] agree on expiry: listing
    the users leaves the registrar as a cleanup tick at the same time does,
    and every user listed has not expired. *)
Theorem getAllUsers_agrees_with_cleanup now um :
  snd (getAllUsers now um) = cleanup now um
  /\ Forall (fun u => (now <=? expiresAt u)%Z = true) (fst (getAllUsers now um)).
Proof.
  destruct (getAllUsers_fold now (registeredUsers um) [] um) as (H1 & H2 & H3).
  cbn zeta in *. fold (getAllUsers now um) in *. split.
  - unfold cleanup. destruct (snd (getAllUsers now um)) as [ru rh].
    cbn [registeredUsers registrationHistory] in *. now rewrite H1, H2.
  - apply H3. constructor.
Qed.

Lemma length_last_n {A} n (l : list A) : List.length (last_n n l) = Nat.min n (List.length l).
Proof. unfold last_n. rewrite length_skipn. lia. Qed.

Lemma last_last_n {A} n (l : list A) (x d : A) : 0 < n -> last (last_n n (l ++ [x])) d = x.
Proof.
  intros Hn. unfold last_n. rewrite length_app. simpl.
  rewrite skipn_app.
  replace (List.length l + 1 - n - List.length l) with 0 by lia. simpl.
  apply last_last.
Qed.

(** A history that is cut to its last [n] entries when it grows longer. *)
Lemma history_push {A} n (l : list A) (x d : A) :
  0 < n ->
  let h := if (n <? List.length (l ++ [x])%list)%nat
           then last_n n (l ++ [x])%list else (l ++ [x])%list in
  List.length h <= n /\ last h d = x.
Proof.
  intros Hn. cbn zeta. destruct (n <? _)%nat eqn:E.
  - rewrite length_last_n. split; [lia|]. now apply last_last_n.
  - apply Nat.ltb_ge in E. split; [exact E|]. apply last_last.
Qed.

(** X11. Both histories are bounded: after [addToHistory], of the
    registrar or of the dialog manager, the history ends with the entry
    added and holds at most 1000 entries, whatever it held before. *)
Theorem histories_bounded :
  (forall e um d,
     List.length (registrationHistory (addToHistory e um)) <= 1000
     /\ last (registrationHistory (addToHistory e um)) d = e)
  /\ (forall c cm d,
        List.length (CallManager.callHistory (CallManager.addToHistory c cm)) <= 1000
        /\ last (CallManager.callHistory (CallManager.addToHistory c cm)) d = c).
Proof.
  split.
  - intros e um d. apply (history_push 1000). lia.
  - intros c cm d. apply (history_push 1000). lia.
Qed.

End RegistrarFacts.

(** ** Dialog manager: ending calls and the setup timeout *)

Section DialogFacts.
Import CallManager.

Lemma activeCalls_endCall now k reason cm :
  activeCalls (snd (endCall now k reason cm)) = JsMap.delete k (activeCalls cm).
Proof.
  unfold endCall. destruct (JsMap.get k (activeCalls cm)) eqn:E; cbn [snd].
  - reflexivity.
  - symmetry. now apply get_none_filter.
Qed.

Lemma activeCalls_fold_endCall now reason ks cm :
  activeCalls (fold_left (fun m k => snd (endCall now k reason m)) ks cm)
  = fold_left (fun m k => JsMap.delete k m) ks (activeCalls cm).
Proof.
  revert cm. induction ks as [|k ks IH]; intros cm; [reflexivity|]. simpl.
  now rewrite IH, activeCalls_endCall.
Qed.

(** X12. [endCall] moves the dialog from the active calls to the history:
    it returns the dialog as ended (terminated at [now], for the given
    reason, with the duration since the answer in whole seconds), the
    call-id is no longer active, the history ends with the ended dialog, and
    every other dialog stays as it was. *)
Theorem endCall_archives now id reason cm c :
  getCall (Some id) cm = Some c ->
  let r := endCall now id reason cm in
  fst r = Some (set_ended now reason c)
  /\ state (set_ended now reason c) = TERMINATED
  /\ terminationReason (set_ended now reason c) = Some reason
  /\ duration (set_ended now reason c)
     = match answerTime c with Some a => ((now - a) / 1000)%Z | None => duration c end
  /\ getCall (Some id) (snd r) = None
  /\ last (callHistory (snd r)) c = set_ended now reason c
  /\ forall other, other <> id -> getCall (Some other) (snd r) = getCall (Some other) cm.
Proof.
  intros H r. pose proof (activeCalls_endCall now id reason cm) as Ha. fold r in Ha.
  unfold getCall in *. rewrite Ha. unfold r, endCall. rewrite H. cbn [fst snd].
  repeat split.
  - apply get_delete_same.
  - unfold with_calls. cbn [callHistory].
    apply (history_push 1000). lia.
  - intros other Hne. now apply get_delete_other.
Qed.

Lemma endCall_archives_witness :
  getCall (Some "call-1")
    (snd (createCall 0 "call-1" "100" "101" "10.0.0.5" 5061 "" create))
  = Some (fst (createCall 0 "call-1" "100" "101" "10.0.0.5" 5061 "" create))
  /\ getCall (Some "call-1")
       (snd (endCall 9000 "call-1" "NORMAL"
               (snd (createCall 0 "call-1" "100" "101" "10.0.0.5" 5061 "" create)))) = None.
Proof.
  split; [reflexivity|].
  apply (endCall_archives 9000 "call-1" "NORMAL"
           (snd (createCall 0 "call-1" "100" "101" "10.0.0.5" 5061 "" create))
           (fst (createCall 0 "call-1" "100" "101" "10.0.0.5" 5061 "" create))).
  reflexivity.
Defined.

(** X13. The periodic [cleanup] of the dialog manager times out the calls
    that are still INITIATED more than the call-setup timeout after their
    INVITE, and no other: in a map that holds each call-id once, a call is
    active after the tick exactly when it was active before and is not such
    a call. *)
Theorem cleanup_times_out_initiated_only cfg now cm id :
  NoDup (JsMap.keys (activeCalls cm)) ->
  getCall (Some id) (cleanup cfg now cm)
  = match getCall (Some id) cm with
    | Some c =>
        if (now - inviteTime c >? callSetup cfg)%Z && state_eqb (state c) INITIATED
        then None else Some c
    | None => None
    end.
Proof.
  intros Hnd. unfold cleanup, getCall. rewrite activeCalls_fold_endCall, get_fold_delete.
  destruct (existsb (String.eqb id) _) eqn:E.
  - apply selected_keys_In in E as (c & Hin & He). cbn [snd] in He.
    rewrite (NoDup_keys_In _ _ _ Hnd Hin), He. reflexivity.
  - destruct (JsMap.get id (activeCalls cm)) as [c|] eqn:G; [|reflexivity].
    destruct ((now - inviteTime c >? callSetup cfg)%Z && state_eqb (state c) INITIATED)
      eqn:He; [|reflexivity].
    apply get_In in G.
    rewrite (In_selected_keys
               (fun kv => (now - inviteTime (snd kv) >? callSetup cfg)%Z
                          && state_eqb (state (snd kv)) INITIATED) _ _ _ G He) in E.
    discriminate.
Qed.

Lemma cleanup_times_out_initiated_only_witness :
  NoDup (JsMap.keys (activeCalls
           (snd (createCall 0 "call-1" "100" "101" "10.0.0.5" 5061 "" create))))
  /\ getCall (Some "call-1")
       (cleanup default_config 30001
          (snd (createCall 0 "call-1" "100" "101" "10.0.0.5" 5061 "" create)))
     = match getCall (Some "call-1")
               (snd (createCall 0 "call-1" "100" "101" "10.0.0.5" 5061 "" create)) with
       | Some c =>
           if (30001 - inviteTime c >? callSetup default_config)%Z
              && state_eqb (state c) INITIATED
           then None else Some c
       | None => None
       end.
Proof.
  assert (H : NoDup (JsMap.keys (activeCalls
           (snd (createCall 0 "call-1" "100" "101" "10.0.0.5" 5061 "" create))))).
  { cbv. repeat constructor; simpl; intuition discriminate. }
  split; [exact H|]. apply cleanup_times_out_initiated_only. exact H.
Defined.

(** X14. A call that rings makes both its numbers busy: after [createCall]
    and [setTarget], as [handleInvite] runs them, the dialog is RINGING with
    the callee's transport as its target, and [isNumberBusy] holds of the
    caller's and of the callee's number. *)
Theorem ringing_call_is_busy now id fromNumber toNumber fromAddress fromPort sdp
    toAddress toPort cm :
  let cm1 := snd (createCall now id fromNumber toNumber fromAddress fromPort sdp cm) in
  let cm2 := snd (setTarget id toAddress toPort cm1) in
  (exists c, getCall (Some id) cm2 = Some c
             /\ state c = RINGING
             /\ CallManager.toAddress c = Some toAddress
             /\ CallManager.toPort c = Some toPort
             /\ CallManager.fromAddress c = fromAddress
             /\ CallManager.fromPort c = fromPort)
  /\ isNumberBusy fromNumber cm2 = true
  /\ isNumberBusy toNumber cm2 = true.
Proof.
  intros cm1 cm2.
  assert (G1 : JsMap.get id (activeCalls cm1)
               = Some (fst (createCall now id fromNumber toNumber fromAddress fromPort sdp cm)))
    by apply get_set_same.
  assert (G2 : JsMap.get id (activeCalls cm2)
               = Some (set_state RINGING (set_target toAddress toPort
                   (fst (createCall now id fromNumber toNumber fromAddress fromPort sdp cm))))).
  { unfold cm2, setTarget, modify. rewrite G1. cbn [snd with_calls activeCalls].
    apply get_set_same. }
  split; [|split].
  - eexists. split; [exact G2|]. repeat split.
  - apply isNumberBusy_iff. do 2 eexists. split; [exact (get_In _ _ _ G2)|].
    split; [now left|now left].
  - apply isNumberBusy_iff. do 2 eexists. split; [exact (get_In _ _ _ G2)|].
    split; [now right|now left].
Qed.

End DialogFacts.

(** ** Validator and dial plan *)

Section ValidatorFacts.
Import Js Regex Wire Scan Codec SipValidator.

Lemma exec_literal_first l r s :
  startsWith l s = false -> exec (Lit l >> r)%re s = None.
Proof. intros H. unfold exec. cbn [rmatch]. now rewrite rmatch_Lit, H. Qed.

Lemma exec_literal_found l r s x :
  exec (Lit l >> r)%re s = Some x -> startsWith l s = true.
Proof.
  unfold exec. cbn [rmatch]. rewrite rmatch_Lit.
  destruct (startsWith l s); [reflexivity|discriminate].
Qed.

Lemma validateSipUri_scheme cfg s :
  startsWith "sip:" s = false ->
  validateSipUri cfg (Some s)
  = UriError (if s =? "" then "URI is required and must be a string"
              else "Invalid SIP URI format").
Proof.
  intros H. unfold validateSipUri. cbn [truthy show].
  destruct (s =? ""); [reflexivity|]. cbn [negb].
  unfold sipUriPattern. now rewrite exec_literal_first.
Qed.

(** X15. The validator accepts the dial plan only: a URI that
    [validateSipUri] accepts starts with [sip:] and its number is one of the
    valid extensions of the configuration. *)
Theorem validateSipUri_accepts_dial_plan_only cfg uri number domain port :
  validateSipUri cfg uri = UriValid number domain port ->
  has_extension cfg number = true
  /\ exists s, uri = Some s /\ s <> "" /\ startsWith "sip:" s = true.
Proof.
  unfold validateSipUri. destruct uri as [s|]; [|discriminate]. cbn [truthy show].
  destruct (String.eqb_spec s "") as [->|Hne]; [discriminate|]. cbn [negb].
  destruct (exec sipUriPattern s) as [[rest c]|] eqn:E; [|discriminate].
  destruct (has_extension cfg (show (cap 1 c))) eqn:Hx; [|discriminate]. cbn [negb].
  intros [= <- _ _]. split; [exact Hx|]. exists s. repeat split; auto.
  unfold sipUriPattern in E. now apply exec_literal_found in E.
Qed.

Lemma validateSipUri_accepts_dial_plan_only_witness :
  validateSipUri default_config (Some "sip:101@10.0.0.6:5062")
  = UriValid "101" "10.0.0.6" "5062"
  /\ has_extension default_config "101" = true.
Proof.
  split; [reflexivity|].
  apply (validateSipUri_accepts_dial_plan_only default_config
           (Some "sip:101@10.0.0.6:5062") "101" "10.0.0.6" "5062").
  reflexivity.
Defined.

(** X16. [validateSipUri] reads a bare URI only: a text that does not start
    with [sip:], such as a URI in angle brackets or one of another scheme, is
    refused as of invalid format (an empty text as missing). *)
Theorem validateSipUri_needs_bare_sip_uri cfg s :
  startsWith "sip:" s = false ->
  validateSipUri cfg (Some s)
  = UriError (if s =? "" then "URI is required and must be a string"
              else "Invalid SIP URI format").
Proof. apply validateSipUri_scheme. Qed.

Lemma validateSipUri_needs_bare_sip_uri_witness :
  startsWith "sip:" "<sip:101@10.0.0.6>" = false
  /\ validateSipUri default_config (Some "<sip:101@10.0.0.6>")
     = UriError "Invalid SIP URI format".
Proof.
  split; [reflexivity|].
  apply (validateSipUri_needs_bare_sip_uri default_config "<sip:101@10.0.0.6>").
  reflexivity.
Defined.

(** X17. [validateByeRequest] hands the [To] header to [validateSipUri] as
    it is, without [extractUri]: a BYE whose [To] header does not start with
    [sip:], as every header in the name-addr form with angle brackets, is
    never valid. *)
Theorem validateByeRequest_refuses_name_addr cfg m t :
  JsObj.get "To" (headers m) = Some t ->
  startsWith "sip:" t = false ->
  valid (validateByeRequest cfg m) = false.
Proof.
  intros Ht Hs. unfold validateByeRequest.
  destruct (validateHeaders (headers m) ["To"; "From"; "Call-ID"; "CSeq"]) as [ok errors].
  destruct ok; [|reflexivity]. cbn [negb].
  rewrite Ht, validateSipUri_scheme by exact Hs. reflexivity.
Qed.

Lemma validateByeRequest_refuses_name_addr_witness :
  JsObj.get "To"
    (headers (parseSipMessage
       ("BYE sip:101@10.0.0.6 SIP/2.0" ++ CRLF ++ "Via: SIP/2.0/UDP 10.0.0.5:5061" ++ CRLF
        ++ "From: <sip:100@10.0.0.5>" ++ CRLF ++ "To: <sip:101@10.0.0.6>" ++ CRLF
        ++ "Call-ID: call-1" ++ CRLF ++ "CSeq: 2 BYE" ++ CRLF ++ CRLF)))
  = Some "<sip:101@10.0.0.6>"
  /\ valid (validateByeRequest default_config
       (parseSipMessage
          ("BYE sip:101@10.0.0.6 SIP/2.0" ++ CRLF ++ "Via: SIP/2.0/UDP 10.0.0.5:5061" ++ CRLF
           ++ "From: <sip:100@10.0.0.5>" ++ CRLF ++ "To: <sip:101@10.0.0.6>" ++ CRLF
           ++ "Call-ID: call-1" ++ CRLF ++ "CSeq: 2 BYE" ++ CRLF ++ CRLF))) = false.
Proof.
  split; [reflexivity|].
  apply (validateByeRequest_refuses_name_addr default_config _ "<sip:101@10.0.0.6>");
    reflexivity.
Defined.

Lemma string_of_uint_inj d d' :
  NilEmpty.string_of_uint d = NilEmpty.string_of_uint d' -> d = d'.
Proof.
  intros H. pose proof (NilEmpty.usu d) as H1. pose proof (NilEmpty.usu d') as H2.
  rewrite H in H1. congruence.
Qed.

Lemma num_to_string_nonneg z :
  (0 <= z)%Z -> num_to_string z = NilEmpty.string_of_uint (N.to_uint (Z.to_N z)).
Proof. destruct z; [reflexivity|reflexivity|lia]. Qed.

(** The decimal text determines the number. *)
Lemma num_to_string_inj z z' : num_to_string z = num_to_string z' -> z = z'.
Proof.
  destruct (Z.neg_nonneg_cases z) as [Hz|Hz], (Z.neg_nonneg_cases z') as [Hz'|Hz'].
  - destruct z as [| |p]; try lia. destruct z' as [| |p']; try lia.
    simpl. intros [= H]. apply string_of_uint_inj in H.
    apply DecimalPos.Unsigned.to_uint_inj in H. congruence.
  - destruct z as [| |p]; try lia. rewrite (num_to_string_nonneg z' Hz').
    simpl. intros H. pose proof (digits_of_uint (N.to_uint (Z.to_N z'))) as D.
    rewrite <- H in D. discriminate D.
  - destruct z' as [| |p]; try lia. rewrite (num_to_string_nonneg z Hz).
    simpl. intros H. pose proof (digits_of_uint (N.to_uint (Z.to_N z))) as D.
    rewrite H in D. discriminate D.
  - rewrite (num_to_string_nonneg z Hz), (num_to_string_nonneg z' Hz').
    intros H. apply string_of_uint_inj in H. apply DecimalN.Unsigned.to_uint_inj in H.
    apply Z2N.inj in H; auto.
Qed.

(** X18. The dial plan is the range of the configuration: the decimal text
    of a number is a valid extension exactly when the number lies between
    [extensions.min] and [extensions.max], both included. *)
Theorem has_extension_range cfg z :
  has_extension cfg (num_to_string z) = true <-> (ext_min cfg <= z <= ext_max cfg)%Z.
Proof.
  unfold has_extension, validExtensions. rewrite existsb_exists. split.
  - intros (x & Hin & E). apply String.eqb_eq in E. subst x.
    apply in_map_iff in Hin as (i & E & Hin). apply num_to_string_inj in E.
    apply in_seq in Hin. lia.
  - intros H. exists (num_to_string z). split; [|apply String.eqb_refl].
    apply in_map_iff. exists (Z.to_nat (z - ext_min cfg)). split.
    + f_equal. lia.
    + apply in_seq. lia.
Qed.

(** X19. An SDP body that [validateSdp] accepts is complete: it is not
    empty, each of the six required sections starts one of its lines, and
    its first media line has at least four fields, the media type [audio]
    and a port between 1024 and 65535. *)
Theorem validateSdp_accepts_complete_only sdp :
  validateSdp sdp = Valid ->
  sdp <> ""
  /\ (forall section, In section requiredSections ->
        existsb (startsWith section) (split_crlf sdp) = true)
  /\ exists mediaLine p,
       find (startsWith "m=") (split_crlf sdp) = Some mediaLine
       /\ 4 <= List.length (split_char " " mediaLine)
       /\ substring_from 2 (nth 0 (split_char " " mediaLine) "") = "audio"
       /\ parseInt (nth 1 (split_char " " mediaLine) "") = Some p
       /\ (1024 <= p <= 65535)%Z.
Proof.
  unfold validateSdp. destruct (String.eqb_spec sdp "") as [->|Hne]; [discriminate|].
  set (lines := split_crlf sdp).
  set (missing := filter (fun section => negb (existsb (startsWith section) lines))
                    requiredSections).
  destruct (map _ missing ++ _)%list as [|e es] eqn:E; [|discriminate]. intros _.
  apply app_eq_nil in E as [E1 E2]. apply map_eq_nil in E1.
  assert (Hall : forall section, In section requiredSections ->
                   existsb (startsWith section) lines = true).
  { intros section Hin. destruct (existsb (startsWith section) lines) eqn:X; [reflexivity|].
    assert (Hm : In section missing) by (apply filter_In; now rewrite X).
    rewrite E1 in Hm. destruct Hm. }
  split; [exact Hne|split; [exact Hall|]].
  assert (Hm : existsb (startsWith "m=") lines = true)
    by (apply Hall; unfold requiredSections; simpl; auto 10).
  destruct (find (startsWith "m=") lines) as [mediaLine|] eqn:F.
  - unfold media_errors in E2.
    destruct (List.length (split_char " " mediaLine) <? 4)%nat eqn:L; [discriminate|].
    apply Nat.ltb_ge in L. apply app_eq_nil in E2 as [T P].
    destruct (String.eqb_spec (substring_from 2 (nth 0 (split_char " " mediaLine) "")) "audio")
      as [Ha|]; [|discriminate].
    destruct (parseInt (nth 1 (split_char " " mediaLine) "")) as [p|] eqn:Pp; [|discriminate].
    destruct ((p <? 1024) || (p >? 65535))%Z eqn:R; [discriminate|].
    apply orb_false_iff in R as [R1 R2]. apply Z.ltb_ge in R1.
    rewrite Z.gtb_ltb in R2. apply Z.ltb_ge in R2.
    exists mediaLine, p. split; [reflexivity|]. split; [exact L|]. split; [exact Ha|].
    split; [exact Pp|]. split; assumption.
  - exfalso. apply existsb_exists in Hm as (l & Hin & Hl).
    pose proof (find_none _ _ F l Hin) as Hn. congruence.
Qed.

Lemma validateSdp_accepts_complete_only_witness :
  validateSdp (Scenario.sdp "10.0.0.5" "4000") = Valid
  /\ Scenario.sdp "10.0.0.5" "4000" <> "".
Proof.
  split; [reflexivity|].
  apply (validateSdp_accepts_complete_only (Scenario.sdp "10.0.0.5" "4000")). reflexivity.
Defined.

End ValidatorFacts.

(** ** Codec: the number of a URI *)

Section NumberFacts.
Import Js Regex Wire Scan Codec.

Lemma take_matched a b : take (String.length (a ++ b) - String.length b) (a ++ b) = a.
Proof.
  rewrite length_append.
  replace (String.length a + String.length b - String.length b) with (String.length a) by lia.
  apply take_app_length.
Qed.

Lemma exec_number ds rest :
  ds <> "" -> all_chars is_digit ds = true ->
  exec numberPattern ("sip:" ++ ds ++ "@" ++ rest) = Some (rest, [(1, ds)]).
Proof.
  intros Hne Hd. unfold exec, numberPattern. cbn [rmatch]. rewrite rmatch_Lit.
  rewrite startsWith_app_same, drop_app_length.
  unfold digit. rewrite rmatch_Plus_cls. destruct ds as [|d ds]; [congruence|].
  simpl in Hd. apply andb_true_iff in Hd as [H0 Hd].
  change (String d ds ++ "@" ++ rest) with (String d (ds ++ "@" ++ rest)) at 1.
  cbv iota. rewrite H0. rewrite greedy_commit.
  - rewrite skip_app_all by exact Hd. rewrite skip_stop by reflexivity.
    change ("@" ++ rest) with (String "@" rest). cbv iota. rewrite Ascii.eqb_refl.
    do 3 f_equal. change (String "@" rest) with ("@" ++ rest).
    now rewrite (take_matched (String d ds) ("@" ++ rest)).
  - intros b t Hb. destruct (Ascii.eqb_spec b "@") as [->|]; [discriminate Hb|].
    reflexivity.
Qed.

(** The pattern of the number starts with [s]. *)
Lemma exec_number_head c s : Ascii.eqb c "s" = false -> exec numberPattern (String c s) = None.
Proof.
  intros H. unfold exec, numberPattern. cbn [rmatch Lit]. now rewrite H.
Qed.

Lemma search_number pre ds rest :
  all_chars (fun c => negb (Ascii.eqb c "s")) pre = true ->
  ds <> "" -> all_chars is_digit ds = true ->
  option_map groups (search numberPattern (pre ++ "sip:" ++ ds ++ "@" ++ rest))
  = Some [(1, ds)].
Proof.
  intros Hp Hne Hd. induction pre as [|c pre IH].
  - change ("" ++ ?z) with z. 
    destruct ds as [|d ds]; [congruence|].
    change ("sip:" ++ String d ds ++ "@" ++ rest)
      with (String "s" ("ip:" ++ String d ds ++ "@" ++ rest)).
    cbn [search].
    change (String "s" ("ip:" ++ String d ds ++ "@" ++ rest))
      with ("sip:" ++ String d ds ++ "@" ++ rest).
    rewrite exec_number by assumption. reflexivity.
  - simpl in Hp. apply andb_true_iff in Hp as [Hc Hp]. apply negb_true_iff in Hc.
    change (String c pre ++ ?z) with (String c (pre ++ z)). cbn [search].
    rewrite exec_number_head by exact Hc. specialize (IH Hp).
    destruct (search numberPattern (pre ++ "sip:" ++ ds ++ "@" ++ rest)); [|discriminate].
    exact IH.
Qed.

(** X20. [extractNumber] reads the number of the first [sip:] URI of a
    header: after a text without the letter [s], such as an opening angle
    bracket, the digits between [sip:] and [@] are returned. *)
Theorem extractNumber_reads_user_part pre ds rest :
  all_chars (fun c => negb (Ascii.eqb c "s")) pre = true ->
  ds <> "" -> all_chars is_digit ds = true ->
  extractNumber (pre ++ "sip:" ++ ds ++ "@" ++ rest) = Some ds.
Proof.
  intros Hp Hne Hd. unfold extractNumber.
  pose proof (search_number pre ds rest Hp Hne Hd) as H.
  destruct (search numberPattern _) as [m|]; [|discriminate].
  simpl in H. injection H as ->. reflexivity.
Qed.

Lemma extractNumber_reads_user_part_witness :
  all_chars (fun c => negb (Ascii.eqb c "s")) "<" = true
  /\ "101" <> ""
  /\ all_chars is_digit "101" = true
  /\ extractNumber ("<" ++ "sip:" ++ "101" ++ "@" ++ "10.0.0.6>;tag=7") = Some "101".
Proof.
  split; [reflexivity|split; [discriminate|split; [reflexivity|]]].
  apply extractNumber_reads_user_part; [reflexivity|discriminate|reflexivity].
Defined.

End NumberFacts.

(** ** SIP engine: what each handler touches and whom it answers *)

Section HandlerFacts.
Import Js Codec SipServer.

(** X21. [handleRegister] answers the sender and nobody else: it sends one
    datagram, a 200 or a 400 without body, to the source of the REGISTER, and
    changes neither the dialogs nor the RTP streams. *)
Theorem handleRegister_answers_sender cfg env message rinfo st :
  let r := handleRegister cfg env message rinfo st in
  (exists code text hs,
     snd r = [send (createSipResponse (Some code) text hs "") (port rinfo) (address rinfo)]
     /\ (code = "200" \/ code = "400"))
  /\ callManager (fst r) = callManager st
  /\ rtpProxy (fst r) = rtpProxy st.
Proof.
  unfold handleRegister. cbv zeta.
  destruct (negb (SipValidator.valid _)).
  - cbn [fst snd]. split; [|auto]. do 3 eexists. split; [reflexivity|now right].
  - destruct (UserManager.registerUser _ _ _ _ _ _ _) as [u um]. cbn [fst snd].
    split; [|auto]. do 3 eexists. split; [reflexivity|now left].
Qed.

(** X22. [handleInvite] changes the dialogs only and answers the sender
    first: the registrar and the RTP streams stay as they were, and of the
    one or two datagrams sent the first goes to the source of the INVITE. *)
Theorem handleInvite_answers_sender_first cfg env message rinfo st :
  let r := handleInvite cfg env message rinfo st in
  userManager (fst r) = userManager st
  /\ rtpProxy (fst r) = rtpProxy st
  /\ exists d rest,
       snd r = d :: rest
       /\ dport d = Some (port rinfo) /\ daddress d = Some (address rinfo)
       /\ List.length rest <= 1.
Proof.
  unfold handleInvite. cbv zeta.
  destruct (negb (SipValidator.valid _)).
  { cbn [fst snd]. repeat split. do 2 eexists. repeat split. simpl. lia. }
  destruct (extractNumber (show (header (parseSipMessage message) "To"))) as [toNumber|];
    [|cbn [fst snd]; repeat split; do 2 eexists; repeat split; simpl; lia].
  destruct (extractNumber (show (header (parseSipMessage message) "From"))) as [fromNumber|];
    [|cbn [fst snd]; repeat split; do 2 eexists; repeat split; simpl; lia].
  destruct (UserManager.getUser toNumber (userManager st)) as [targetUser|];
    [|cbn [fst snd]; repeat split; do 2 eexists; repeat split; simpl; lia].
  destruct (UserManager.getUser fromNumber (userManager st)) as [callingUser|];
    [|cbn [fst snd]; repeat split; do 2 eexists; repeat split; simpl; lia].
  destruct (CallManager.isNumberBusy toNumber (callManager st));
    [cbn [fst snd]; repeat split; do 2 eexists; repeat split; simpl; lia|].
  destruct (CallManager.createCall _ _ _ _ _ _ _ _) as [c1 cm1].
  destruct (CallManager.setTarget _ _ _ _) as [b2 cm2].
  destruct (CallManager.updateCallState _ _ _ _) as [b3 cm3].
  cbn [fst snd]. repeat split. do 2 eexists. repeat split. simpl. lia.
Qed.

Lemma handleBye_known message rinfo st id call :
  header (parseSipMessage message) "Call-ID" = Some id ->
  CallManager.getCall (Some id) (callManager st) = Some call ->
  fst (handleBye message rinfo st)
  = with_rtp (RtpProxy.removeStream id (rtpProxy st))
      (with_calls
         (CallManager.with_calls
            (JsMap.set id (CallManager.set_terminating true call)
               (CallManager.activeCalls (callManager st)))
            (callManager st)) st)
  /\ exists forwarded answer,
       snd (handleBye message rinfo st) = [forwarded; answer]
       /\ dport forwarded = CallManager.toPort call
       /\ daddress forwarded = CallManager.toAddress call
       /\ dport answer = Some (port rinfo) /\ daddress answer = Some (address rinfo).
Proof.
  intros Hid Hc. unfold handleBye. cbv zeta. rewrite Hid, Hc.
  unfold CallManager.modify. cbn [CallManager.getCall] in Hc. rewrite Hc.
  cbn [fst snd]. split; [reflexivity|]. do 2 eexists. repeat split.
Qed.

(** X23. A BYE of a known dialog marks the dialog as terminating and keeps
    it active, removes both RTP streams of the call, leaves the registrar
    alone, and is answered with a second datagram to its source. *)
Theorem handleBye_marks_terminating message rinfo st id call :
  header (parseSipMessage message) "Call-ID" = Some id ->
  CallManager.getCall (Some id) (callManager st) = Some call ->
  let r := handleBye message rinfo st in
  CallManager.getCall (Some id) (callManager (fst r))
  = Some (CallManager.set_terminating true call)
  /\ JsMap.get id (RtpProxy.activeStreams (rtpProxy (fst r))) = None
  /\ JsMap.get (RtpProxy.reverse_key id) (RtpProxy.activeStreams (rtpProxy (fst r))) = None
  /\ userManager (fst r) = userManager st
  /\ exists forwarded answer,
       snd r = [forwarded; answer]
       /\ dport forwarded = CallManager.toPort call
       /\ daddress forwarded = CallManager.toAddress call
       /\ dport answer = Some (port rinfo) /\ daddress answer = Some (address rinfo).
Proof.
  intros Hid Hc r. destruct (handleBye_known message rinfo st id call Hid Hc) as [Hs Hd].
  unfold r. rewrite Hs.
  cbn [with_rtp with_calls callManager rtpProxy userManager
       CallManager.getCall CallManager.with_calls CallManager.activeCalls].
  split; [apply get_set_same|].
  rewrite !removeStream_get, !String.eqb_refl, orb_true_r. cbn [orb].
  repeat split. exact Hd.
Qed.

Lemma handleBye_marks_terminating_witness :
  header (parseSipMessage (Scenario.bye "101")) "Call-ID" = Some "call-1"
  /\ CallManager.getCall (Some "call-1") (callManager Scenario.dialing) = Some Scenario.dialed
  /\ CallManager.getCall (Some "call-1")
       (callManager (fst (handleBye (Scenario.bye "101") Scenario.callee_at Scenario.dialing)))
     = Some (CallManager.set_terminating true Scenario.dialed).
Proof.
  split; [reflexivity|split; [reflexivity|]].
  apply (handleBye_marks_terminating (Scenario.bye "101") Scenario.callee_at
           Scenario.dialing "call-1" Scenario.dialed); reflexivity.
Defined.

(** X24. A dialog ends with the 200 OK of its BYE: when the BYE of a known
    dialog has been handled, a response for the same Call-ID whose status
    line holds [200 OK] removes the dialog from the active calls, files it
    in the history as ended normally at that time, and is relayed to
    nobody. *)
Theorem bye_then_ok_ends_dialog cfg env bye ok rinfo1 rinfo2 st id call :
  header (parseSipMessage bye) "Call-ID" = Some id ->
  header (parseSipMessage ok) "Call-ID" = Some id ->
  includes "200 OK" (firstLine (parseSipMessage ok)) = true ->
  CallManager.getCall (Some id) (callManager st) = Some call ->
  let st1 := fst (handleBye bye rinfo1 st) in
  let r := handleResponse cfg env ok rinfo2 st1 in
  CallManager.getCall (Some id) (callManager (fst r)) = None
  /\ last (CallManager.callHistory (callManager (fst r))) call
     = CallManager.set_ended (now env) "NORMAL" (CallManager.set_terminating true call)
  /\ snd r = [].
Proof.
  intros Hb Ho Hs Hc st1 r.
  assert (Hg : CallManager.getCall (Some id) (callManager st1)
               = Some (CallManager.set_terminating true call)).
  { unfold st1. destruct (handleBye_known bye rinfo1 st id call Hb Hc) as [-> _].
    cbn [with_rtp with_calls callManager CallManager.getCall CallManager.with_calls
         CallManager.activeCalls].
    apply get_set_same. }
  unfold r, handleResponse. cbv zeta. rewrite Ho, Hg, Hs.
  cbn [CallManager.terminating CallManager.set_terminating andb].
  cbn [fst snd with_calls callManager].
  pose proof (activeCalls_endCall (now env) id "NORMAL" (callManager st1)) as Ha.
  unfold CallManager.getCall. rewrite Ha. split; [apply get_delete_same|].
  split; [|reflexivity].
  unfold CallManager.endCall. cbn [CallManager.getCall] in Hg. rewrite Hg.
  cbn [snd CallManager.with_calls CallManager.callHistory].
  apply (history_push 1000). lia.
Qed.

Lemma bye_then_ok_ends_dialog_witness :
  header (parseSipMessage (Scenario.bye "101")) "Call-ID" = Some "call-1"
  /\ header (parseSipMessage Scenario.bye_ok) "Call-ID" = Some "call-1"
  /\ includes "200 OK" (firstLine (parseSipMessage Scenario.bye_ok)) = true
  /\ CallManager.getCall (Some "call-1") (callManager Scenario.dialing) = Some Scenario.dialed
  /\ CallManager.getCall (Some "call-1")
       (callManager
          (fst (handleResponse default_config (Scenario.at_time 50) Scenario.bye_ok
                  Scenario.caller
                  (fst (handleBye (Scenario.bye "101") Scenario.callee_at Scenario.dialing)))))
     = None.
Proof.
  split; [reflexivity|split; [reflexivity|split; [reflexivity|split; [reflexivity|]]]].
  apply (bye_then_ok_ends_dialog default_config (Scenario.at_time 50) (Scenario.bye "101")
           Scenario.bye_ok Scenario.callee_at Scenario.caller Scenario.dialing "call-1"
           Scenario.dialed); reflexivity.
Defined.

(** X25. [handleAck] keeps no state: when it returns, the registrar, the
    dialogs and the streams are as before, and at most one datagram, the
    forwarded ACK, is sent. *)
Theorem handleAck_keeps_state cfg env message rinfo st st' out :
  handleAck cfg env message rinfo st = Some (st', out) ->
  st' = st /\ List.length out <= 1.
Proof.
  unfold handleAck. cbv zeta.
  destruct (header (parseSipMessage message) "Call-ID") as [id|];
    [|intros [= <- <-]; simpl; auto].
  destruct (CallManager.getCall (Some id) (callManager st)) as [call|];
    [|intros [= <- <-]; simpl; auto].
  destruct (header (parseSipMessage message) "Via") as [via|]; [|discriminate].
  intros [= <- <-]. simpl. auto.
Qed.

Lemma handleAck_keeps_state_witness :
  handleAck default_config (Scenario.at_time 40) Scenario.ack Scenario.caller Scenario.dialing
  = Some (Scenario.dialing,
          [{| payload :=
                "ACK sip:101@10.0.0.6:5062 SIP/2.0" ++ CRLF
                ++ "Via: SIP/2.0/UDP 192.168.0.42:5060;branch=z9hG4bK2" ++ CRLF
                ++ "From: undefined" ++ CRLF ++ "To: undefined" ++ CRLF
                ++ "Call-ID: call-1" ++ CRLF ++ "CSeq: 1 ACK" ++ CRLF ++ CRLF;
              dport := Some 5062%Z; daddress := Some "10.0.0.6" |}])
  /\ Scenario.dialing = Scenario.dialing.
Proof.
  assert (H : handleAck default_config (Scenario.at_time 40) Scenario.ack Scenario.caller
                Scenario.dialing
              = Some (Scenario.dialing,
                      [{| payload :=
                            "ACK sip:101@10.0.0.6:5062 SIP/2.0" ++ CRLF
                            ++ "Via: SIP/2.0/UDP 192.168.0.42:5060;branch=z9hG4bK2" ++ CRLF
                            ++ "From: undefined" ++ CRLF ++ "To: undefined" ++ CRLF
                            ++ "Call-ID: call-1" ++ CRLF ++ "CSeq: 1 ACK" ++ CRLF ++ CRLF;
                          dport := Some 5062%Z; daddress := Some "10.0.0.6" |}])) by reflexivity.
  split; [exact H|]. exact (proj1 (handleAck_keeps_state _ _ _ _ _ _ _ H)).
Defined.

(** X26. An ACK of a known dialog without a [Via] header stops the server:
    the handler calls [match] on the missing header, the exception is not
    caught, and the [message] handler does not return. *)
Theorem ack_without_via_is_fatal cfg env message rinfo st id call :
  startsWith "ACK" (hd "" (split_crlf message)) = true ->
  header (parseSipMessage message) "Call-ID" = Some id ->
  header (parseSipMessage message) "Via" = None ->
  CallManager.getCall (Some id) (callManager st) = Some call ->
  on_message cfg env message rinfo st = None.
Proof.
  intros Ha Hid Hv Hc. unfold on_message.
  destruct (startsWith "REGISTER" (hd "" (split_crlf message))) eqn:R.
  { apply startsWith_app in R. apply startsWith_app in Ha. rewrite R in Ha. discriminate. }
  destruct (startsWith "INVITE" (hd "" (split_crlf message))) eqn:I.
  { apply startsWith_app in I. apply startsWith_app in Ha. rewrite I in Ha. discriminate. }
  destruct (startsWith "BYE" (hd "" (split_crlf message))) eqn:B.
  { apply startsWith_app in B. apply startsWith_app in Ha. rewrite B in Ha. discriminate. }
  rewrite Ha. unfold handleAck. cbv zeta. now rewrite Hid, Hc, Hv.
Qed.

Lemma ack_without_via_is_fatal_witness :
  startsWith "ACK" (hd "" (split_crlf Scenario.ack_without_via)) = true
  /\ header (parseSipMessage Scenario.ack_without_via) "Call-ID" = Some "call-1"
  /\ header (parseSipMessage Scenario.ack_without_via) "Via" = None
  /\ CallManager.getCall (Some "call-1") (callManager Scenario.dialing) = Some Scenario.dialed
  /\ on_message default_config (Scenario.at_time 40) Scenario.ack_without_via Scenario.caller
       Scenario.dialing = None.
Proof.
  split; [reflexivity|split; [reflexivity|split; [reflexivity|split; [reflexivity|]]]].
  apply (ack_without_via_is_fatal default_config (Scenario.at_time 40)
           Scenario.ack_without_via Scenario.caller Scenario.dialing "call-1" Scenario.dialed);
    reflexivity.
Defined.

End HandlerFacts.

(** ** SDP rewriter: the three kinds of line *)

Section RewriterLines.
Import Js Regex Wire Scan RtpProxy Pass.

(** X27. A connection line is rewritten to the server address: a line
    [c=IN IP4 addr] becomes [c=IN IP4 A] for the server address [A], whatever
    the address [addr] of the line is, and the rewriting goes on after the
    line. *)
Theorem modifySdp_connection_line cfg addr t :
  host (serverAddress cfg) ->
  addr <> "" -> all_chars nn addr = true -> eol t = true ->
  modifySdp cfg ("c=IN IP4 " ++ addr ++ t)
  = "c=IN IP4 " ++ serverAddress cfg ++ modifySdp cfg t.
Proof.
  intros Hh Hne Hn Ht. destruct (host_token _ Hh) as [Ha0 Ha].
  rewrite !modifySdp_passes.
  set (a := serverAddress cfg) in *. set (p := num_to_string (rtp_port cfg)).
  destruct addr as [|b x]; [congruence|]. simpl in Hn. apply andb_true_iff in Hn as [Hb Hx].
  change (String b x ++ t) with (String b (x ++ t)).
  rewrite connection_match by exact Hb.
  rewrite skip_app_all by exact Hx. rewrite skip_stop by now apply eol_stop.
  change ("c=IN IP4 " ++ a ++ connection a t) with ("c=" ++ "IN IP4 " ++ a ++ connection a t).
  rewrite origin_settled by (auto using connection_eol).
  change ("c=" ++ "IN IP4 " ++ a ++ origin a (connection a t))
    with ("c=IN IP4 " ++ a ++ origin a (connection a t)).
  rewrite audio_free by reflexivity.
  rewrite audio_token by (auto using origin_eol, connection_eol). reflexivity.
Qed.

Lemma modifySdp_connection_line_witness :
  host (serverAddress default_config)
  /\ modifySdp default_config ("c=IN IP4 " ++ "10.0.0.5" ++ CRLF)
     = "c=IN IP4 " ++ serverAddress default_config ++ modifySdp default_config CRLF.
Proof.
  split; [split; [discriminate|reflexivity]|].
  apply modifySdp_connection_line;
    [split; [discriminate|reflexivity]|discriminate|reflexivity|reflexivity].
Defined.

(** X28. The port of an audio line is rewritten to the RTP port of the
    server and the rest of the line is kept: for a server address that is an
    address token, after [m=audio] and the digits of a port, a text that
    starts with no digit and holds none of the letters [c], [o] and [m]
    stays, and the rewriting goes on after it. *)
Theorem modifySdp_audio_line cfg ds b rest t :
  host (serverAddress cfg) ->
  ds <> "" -> all_chars is_digit ds = true ->
  is_digit b = false ->
  all_chars (fun c => negb (Ascii.eqb "c" c)) (String b rest) = true ->
  all_chars (fun c => negb (Ascii.eqb "o" c)) (String b rest) = true ->
  all_chars (fun c => negb (Ascii.eqb "m" c)) (String b rest) = true ->
  modifySdp cfg ("m=audio " ++ ds ++ String b rest ++ t)
  = "m=audio " ++ num_to_string (rtp_port cfg) ++ String b rest ++ modifySdp cfg t.
Proof.
  intros _ Hne Hd Hb Hc Ho Hm. rewrite !modifySdp_passes.
  set (a := serverAddress cfg). set (p := num_to_string (rtp_port cfg)).
  pose proof (digits_port_chars ds Hd) as Hq.
  rewrite connection_over_audio by exact Hq.
  rewrite connection_free by exact Hc.
  rewrite origin_over_audio by exact Hq.
  rewrite origin_free by exact Ho.
  destruct ds as [|d ds]; [congruence|]. simpl in Hd. apply andb_true_iff in Hd as [H0 Hd].
  change (String d ds ++ ?z) with (String d (ds ++ z)).
  rewrite audio_match by exact H0.
  rewrite skip_app_all by exact Hd.
  change (String b rest ++ ?z) with (String b (rest ++ z)) at 1.
  rewrite skip_stop by exact Hb.
  change (String b (rest ++ ?z)) with (String b rest ++ z).
  rewrite audio_free by exact Hm. reflexivity.
Qed.

Lemma modifySdp_audio_line_witness :
  host (serverAddress default_config)
  /\ modifySdp default_config ("m=audio " ++ "4000" ++ String " " "RTP/AVP 0" ++ CRLF)
     = "m=audio " ++ num_to_string (rtp_port default_config) ++ String " " "RTP/AVP 0"
       ++ modifySdp default_config CRLF.
Proof.
  split; [split; [discriminate|reflexivity]|].
  apply modifySdp_audio_line; try reflexivity; try discriminate.
  split; [discriminate|reflexivity].
Defined.

Lemma append_last a b x y : x ++ String a "" = y ++ String b "" -> a = b.
Proof.
  revert y. induction x as [|c x IH]; intros y H.
  - destruct y as [|d y]; simpl in H; [congruence|].
    injection H as _ H. destruct y; discriminate.
  - destruct y as [|d y]; simpl in H.
    + injection H as _ H. destruct x; discriminate.
    + injection H as _ H. eauto.
Qed.

(** A line that ends with the first address of the line and does not read
    [c=] before it is no connection line. *)
Lemma connection_first_line a w u t :
  all_chars ns u = true -> eol t = true ->
  has_T (w ++ "IN IP4 ") = false -> (forall w1, w <> w1 ++ "c=") ->
  connection a (w ++ "IN IP4 " ++ u ++ t) = w ++ "IN IP4 " ++ u ++ connection a t.
Proof.
  intros Hu Ht. induction w as [|c w IH]; intros Hw Hc.
  - change ("" ++ "IN IP4 " ++ u ++ t) with ("IN IP4 " ++ u ++ t).
    rewrite connection_free by reflexivity. now rewrite connection_token.
  - change (String c w ++ "IN IP4 ") with (String c (w ++ "IN IP4 ")) in Hw.
    apply has_T_cons in Hw as [_ Hw].
    change (String c w ++ "IN IP4 " ++ u ++ t) with (String c (w ++ "IN IP4 " ++ u ++ t)).
    destruct (c_match (String c (w ++ "IN IP4 " ++ u ++ t))) as [r|] eqn:E.
    + exfalso. apply lit_then_inv in E as (b & x & E & Hb & _).
      destruct w as [|c2 w]; [discriminate E|].
      injection E as -> -> E.
      destruct w as [|c3 w]; [exact (Hc "" eq_refl)|].
      change (has_T (String "=" (String c3 w ++ "IN IP4 ")) = false) in Hw.
      apply has_T_cons in Hw as [_ Hw].
      change (has_T (String c3 (w ++ "IN IP4 ")) = false) in Hw.
      apply has_T_cons in Hw as [M _].
      change (a_match (String c3 w ++ "IN IP4 ") = None) in M.
      apply (a_match_longer _ (u ++ t)) in M;
        [|simpl; rewrite length_append; simpl; lia].
      assert (M' : a_match ("IN IP4 " ++ String b x) = None)
        by (rewrite append_assoc in M;
            change (a_match ("IN IP4 " ++ String b x)) with
              (a_match (String "I" (String "N" (String " " (String "I" (String "P"
                 (String "4" (String " " (String b x)))))))));
            rewrite <- E; exact M).
      unfold a_match in M'. rewrite lit_then_app in M' by exact Hb. discriminate.
    + rewrite connection_nomatch by exact E. simpl. f_equal. apply IH; [exact Hw|].
      intros w1 Hw1. apply (Hc (String c w1)). simpl. now rewrite Hw1.
Qed.

(** The audio pass leaves alone a text without the sign [=]. *)
Lemma audio_plain p w z :
  all_chars (fun c => negb (Ascii.eqb "=" c)) w = true ->
  match z with String b _ => Ascii.eqb "=" b = false | "" => True end ->
  audio p (w ++ z) = w ++ audio p z.
Proof.
  intros Hw Hz. apply replace_all_pass. intros c w1 w2 E.
  rewrite E, all_chars_app in Hw. apply andb_true_iff in Hw as [_ Hw]. cbn [all_chars] in Hw.
  apply andb_true_iff in Hw as [_ Hw].
  rewrite exec_audio. change (String c w2 ++ z) with (String c (w2 ++ z)).
  unfold m_match. change "m=audio " with (String "m" (String "=" "audio ")).
  rewrite lit_then_cons. destruct (Ascii.eqb "m" c); [|reflexivity].
  destruct w2 as [|b w2].
  - destruct z as [|b z]; [reflexivity|].
    change ("" ++ String b z) with (String b z). now rewrite lit_then_cons, Hz.
  - cbn [all_chars] in Hw. apply andb_true_iff in Hw as [Hb _]. apply negb_true_iff in Hb.
    change (String b w2 ++ z) with (String b (w2 ++ z)). now rewrite lit_then_cons, Hb.
Qed.

(** X29. The address of an origin line is rewritten to the server address:
    in a line [o=user id version IN IP4 addr] whose three fields hold no
    sign [=] and in which no address pattern stands before the address of
    the line, the address token becomes the server address and the fields
    are kept. *)
Theorem modifySdp_origin_line cfg u s v addr t :
  host (serverAddress cfg) ->
  u <> "" -> s <> "" -> v <> "" ->
  all_chars ns u = true -> all_chars ns s = true -> all_chars ns v = true ->
  all_chars (fun c => negb (Ascii.eqb "=" c)) (u ++ " " ++ s ++ " " ++ v ++ " ") = true ->
  has_T (("o=" ++ u ++ " " ++ s ++ " " ++ v ++ " ") ++ "IN IP4 ") = false ->
  addr <> "" -> all_chars ns addr = true -> eol t = true ->
  modifySdp cfg (("o=" ++ u ++ " " ++ s ++ " " ++ v ++ " ") ++ "IN IP4 " ++ addr ++ t)
  = ("o=" ++ u ++ " " ++ s ++ " " ++ v ++ " ") ++ "IN IP4 " ++ serverAddress cfg
    ++ modifySdp cfg t.
Proof.
  intros Hh Hu Hs Hv Hau Has Hav Heq HT Hne Had Ht.
  destruct (host_token _ Hh) as [Ha0 Ha]. rewrite !modifySdp_passes.
  set (a := serverAddress cfg) in *. set (p := num_to_string (rtp_port cfg)).
  set (w := "o=" ++ u ++ " " ++ s ++ " " ++ v ++ " ") in *.
  assert (Ow : o_prefix w) by (exists u, s, v; repeat split; auto).
  pose proof (o_prefix_nn w Ow) as Hwn.
  rewrite connection_first_line; auto.
  2:{ intros w1 E. unfold w in E.
      replace ("o=" ++ u ++ " " ++ s ++ " " ++ v ++ " ")
        with (("o=" ++ u ++ " " ++ s ++ " " ++ v) ++ String " " "") in E
        by now rewrite !append_assoc.
      replace (w1 ++ "c=") with ((w1 ++ "c") ++ String "=" "") in E
        by now rewrite append_assoc.
      apply append_last in E. discriminate. }
  destruct addr as [|b x]; [congruence|]. simpl in Had.
  apply andb_true_iff in Had as [Hb Hx].
  assert (M : o_match (w ++ "IN IP4 " ++ String b (x ++ connection a t))
              = Some (skip nn (x ++ connection a t)))
    by (apply o_match_intro; auto using ns_nn).
  change (String b x ++ connection a t) with (String b (x ++ connection a t)).
  destruct (origin_match a _ _ M) as (m & Es & Hm & HTm & Hr & _ & _ & Eo).
  rewrite skip_app_all in Es, Eo by (now apply all_ns_nn).
  rewrite skip_stop in Es, Eo by (apply eol_stop, connection_eol, Ht).
  rewrite Eo.
  assert (Em : m = w ++ "IN IP4 " ++ String b x).
  { assert (Hl : all_chars nn (w ++ "IN IP4 " ++ String b x) = true).
    { rewrite !all_chars_app, Hwn. simpl. now rewrite (ns_nn b Hb), (all_ns_nn x Hx). }
    replace (w ++ "IN IP4 " ++ String b (x ++ connection a t))
      with ((w ++ "IN IP4 " ++ String b x) ++ connection a t) in Es
      by now rewrite !append_assoc.
    apply line_split_unique in Es; auto using connection_eol. now destruct Es. }
  rewrite Em, before_T_first by (auto using ns_nn).
  rewrite audio_app_address.
  rewrite audio_token by (auto using origin_eol, connection_eol).
  replace (audio p w) with w; [reflexivity|].
  unfold w. change ("o=" ++ ?z) with (String "o" (String "=" z)).
  rewrite !audio_nomatch by reflexivity.
  rewrite <- (append_nil_r (u ++ " " ++ s ++ " " ++ v ++ " ")) at 2.
  rewrite audio_plain by (auto; exact I). now rewrite audio_nil, append_nil_r.
Qed.

Lemma modifySdp_origin_line_witness :
  host (serverAddress default_config)
  /\ modifySdp default_config
       (("o=" ++ "alice" ++ " " ++ "2890844526" ++ " " ++ "2890842807" ++ " ")
        ++ "IN IP4 " ++ "10.0.0.5" ++ CRLF)
     = ("o=" ++ "alice" ++ " " ++ "2890844526" ++ " " ++ "2890842807" ++ " ")
       ++ "IN IP4 " ++ serverAddress default_config ++ modifySdp default_config CRLF.
Proof.
  split; [split; [discriminate|reflexivity]|].
  apply modifySdp_origin_line; try reflexivity; try discriminate.
  split; [discriminate|reflexivity].
Defined.

End RewriterLines.
